(** * fluent-json-schema-es: the schema-builder state machine

    A shallow embedding of [FluentJSONSchema.cjs] (and of [src/RawSchema.js],
    which the bundle repeats verbatim): the shared utilities, the base
    builder, the object builder's [prop]/[definition] and its selections
    [only]/[without], the array builder's [contains], the root factory and
    the raw-schema ingestion, followed by the properties of the
    specification that were checked against them and by further properties
    of the code.

    JavaScript values are trees: an object is the list of its own enumerable
    properties in enumeration order, which for ordinary property names is
    insertion order.  Names that are canonical array indices ("0", "1", ...)
    are enumerated first by the language, and [Object.assign] does not copy
    a member called [__proto__]: the lists below keep insertion order
    throughout, which is the enumeration order of names that are [ordinary],
    and the statements on the layout of a serialized object, on flattening
    and on ingestion that fix the place of a key carry that as a
    hypothesis.  Numbers are the integral ones, for which
    [Number.isInteger] holds.  The null and mixed kinds and [extend] (which
    needs the external deep-merge package) are not part of this
    development. *)

From Stdlib Require Import String Ascii List ZArith Bool Arith Lia DecimalString Permutation.
Import ListNotations.
Local Open Scope string_scope.
Local Open Scope list_scope.

(** ** Outcomes of a call *)

(** A call returns or throws.  [FluentSchemaError] is the library's own
    error class (the specification's [ValidationError]); [TypeError] is the
    language's.  [Unsupported] marks a coercion of the language that the
    embedding does not describe (a non-string used as a property name or in
    a template string). *)
Inductive error : Type :=
| FluentSchemaError
| TypeError
| Unsupported.

Inductive result (A : Type) : Type :=
| Ok (a : A)
| Throw (e : error).
Arguments Ok {A} a.
Arguments Throw {A} e.

Definition bind {A B : Type} (r : result A) (k : A -> result B) : result B :=
  match r with
  | Ok a => k a
  | Throw e => Throw e
  end.

Notation "x <- r ;; k" := (bind r (fun x => k))
  (at level 61, r at next level, right associativity).
Notation "' p <- r ;; k" := (bind r (fun x => let p := x in k))
  (at level 61, p pattern, r at next level, right associativity).

Fixpoint foldM {A B : Type} (f : B -> A -> result B) (l : list A) (memo : B)
  : result B :=
  match l with
  | [] => Ok memo
  | x :: t => memo' <- f memo x ;; foldM f t memo'
  end.

Definition succeeds {A : Type} (r : result A) : bool :=
  match r with Ok _ => true | Throw _ => false end.

(** ** JavaScript values *)

Module Js.

#[local] Set Warnings "-register-all".

Inductive value : Type :=
| VUndefined
| VNull
| VBool (b : bool)
| VNum (n : Z)
| VStr (s : string)
| VSymbol                       (* the module's one symbol, [REQUIRED] *)
| VArr (items : list value)
| VObj (props : list (string * value)).

Definition obj : Type := list (string * value).

(** [!!v] *)
Definition truthy (v : value) : bool :=
  match v with
  | VUndefined | VNull => false
  | VBool b => b
  | VNum n => negb (Z.eqb n 0)
  | VStr s => negb (String.eqb s "")
  | VSymbol | VArr _ | VObj _ => true
  end.

(** [a || b] *)
Definition or_else (a b : value) : value := if truthy a then a else b.

(** [typeof v === 'object'] *)
Definition typeof_object (v : value) : bool :=
  match v with
  | VNull | VArr _ | VObj _ => true
  | _ => false
  end.

Definition isArray (v : value) : bool :=
  match v with VArr _ => true | _ => false end.

Definition is_string (v : value) : bool :=
  match v with VStr _ => true | _ => false end.

(** [a === b] on the values a [required] list holds.  Two objects or arrays
    are equal only when they are one reference; a tree holds none twice. *)
Definition strict_eqb (a b : value) : bool :=
  match a, b with
  | VUndefined, VUndefined => true
  | VNull, VNull => true
  | VBool x, VBool y => Bool.eqb x y
  | VNum x, VNum y => Z.eqb x y
  | VStr x, VStr y => String.eqb x y
  | VSymbol, VSymbol => true
  | _, _ => false
  end.

(** *** Objects *)

Fixpoint get (k : string) (o : obj) : value :=
  match o with
  | [] => VUndefined
  | (k', v) :: t => if String.eqb k k' then v else get k t
  end.

Fixpoint has (k : string) (o : obj) : bool :=
  match o with
  | [] => false
  | (k', _) :: t => String.eqb k k' || has k t
  end.

(** [o[k] = v]: an existing property keeps its place, a new one goes last,
    which is where the language lists it among the [ordinary] names (an
    array index would be listed before them). *)
Fixpoint set (k : string) (v : value) (o : obj) : obj :=
  match o with
  | [] => [(k, v)]
  | (k', v') :: t =>
      if String.eqb k k' then (k, v) :: t else (k', v') :: set k v t
  end.

(** The rest of a destructuring [{ k, ...rest } = o]. *)
Definition remove (k : string) (o : obj) : obj :=
  filter (fun kv => negb (String.eqb k (fst kv))) o.

(** [Object.assign(target, source)], also [{ ...target, ...source }]; the
    former would not copy a member called [__proto__]. *)
Definition assign (target source : obj) : obj :=
  fold_left (fun memo kv => set (fst kv) (snd kv) memo) source target.

Definition keys (o : obj) : list string := map fst o.

Definition index_key (i : nat) : string :=
  NilZero.string_of_uint (Nat.to_uint i).

Definition indexed {A : Type} (l : list A) : list (string * A) :=
  combine (map index_key (seq 0 (length l))) l.

Definition chars (s : string) : list value :=
  map (fun c => VStr (String c "")) (list_ascii_of_string s).

(** The own enumerable properties of a value: [Object.entries(v)] for a
    value that is neither null nor undefined, and what [{ ...v }] copies. *)
Definition entries (v : value) : obj :=
  match v with
  | VObj o => o
  | VArr l => indexed l
  | VStr s => indexed (chars s)
  | _ => []
  end.

(** [v.k] for the property names this library reads. *)
Definition field (k : string) (v : value) : result value :=
  match v with
  | VUndefined | VNull => Throw TypeError
  | _ => Ok (get k (entries v))
  end.

(** [[...v]]: the elements of an iterable. *)
Definition iterate (v : value) : result (list value) :=
  match v with
  | VArr l => Ok l
  | VStr s => Ok (chars s)
  | _ => Throw TypeError
  end.

End Js.
Import Js.

(** ** Shared utilities *)

(** [hasCombiningKeywords] *)
Definition hasCombiningKeywords (attributes : obj) : bool :=
  truthy (get "allOf" attributes) || truthy (get "anyOf" attributes)
  || truthy (get "oneOf" attributes) || truthy (get "not" attributes).

(** [last]: the last element of a list, [undefined] for a falsy argument or
    an empty list. *)
Definition last (array : value) : result value :=
  if truthy array then
    l <- iterate array ;;
    Ok (hd VUndefined (rev l))
  else Ok VUndefined.

(** [a.indexOf(v)], as the position of the first strictly equal element; an
    object or array is found at its own position only. *)
Fixpoint first_index (v : value) (a : list value) (i : nat) : option nat :=
  match a with
  | [] => None
  | x :: t => if strict_eqb x v then Some i else first_index v t (S i)
  end.

Definition indexOf (a : list value) (v : value) (self : nat) : nat :=
  match v with
  | VArr _ | VObj _ => self
  | _ => match first_index v a 0 with Some i => i | None => self end
  end.

(** [isUniq]: filtering the elements that are their own first occurrence
    keeps them all. *)
Definition isUniq (array : list value) : bool :=
  Nat.eqb
    (length (filter (fun iv => Nat.eqb (indexOf array (snd iv) (fst iv)) (fst iv))
               (combine (seq 0 (length array)) array)))
    (length array).

(** [omit] *)
Definition omit (o : obj) (props : list string) : obj :=
  fold_left
    (fun memo kv =>
       if existsb (String.eqb (fst kv)) props then memo
       else set (fst kv) (snd kv) memo)
    o [].

(** [flat]: from a list of named entries to a keyed object. *)
Definition flat (array : list value) : result obj :=
  foldM
    (fun memo prop =>
       name <- field "name" prop ;;
       let rest := remove "name" (entries prop) in
       match name with
       | VStr n => Ok (set n (VObj rest) memo)
       | _ => Throw Unsupported
       end)
    array [].

(** [toArray]: from a keyed object back to a list of named entries. *)
Definition toArray (o : value) : value :=
  if truthy o then
    VArr (map (fun kv => VObj (assign [("name", VStr (fst kv))] (entries (snd kv))))
            (entries o))
  else o.

(** The symbol [REQUIRED] and the kind names. *)
Definition REQUIRED : value := VSymbol.

Definition is_REQUIRED (v : value) : bool :=
  match v with VSymbol => true | _ => false end.

(** [s.replace('#', '')]: the first ['#'] is dropped. *)
Fixpoint replace_hash (s : string) : string :=
  match s with
  | EmptyString => EmptyString
  | String c t => if Ascii.eqb c "#" then t else String c (replace_hash t)
  end.

(** [patchIdsWithParentId] *)
Definition patchIdsWithParentId (schema : obj) (generateIds : bool)
    (parentId : value) : result obj :=
  let properties := entries (or_else (get "properties" schema) (VObj [])) in
  if Nat.eqb (length properties) 0 then Ok schema
  else
    patched <-
      foldM
        (fun memo kp =>
           let key := fst kp in
           let props := snd kp in
           own <- field "$id" props ;;
           let id :=
             or_else own
               (if generateIds then VStr ("#properties/" ++ key) else VUndefined) in
           id' <-
             (if generateIds && truthy parentId then
                match parentId with
                | VStr parent =>
                    match id with
                    | VStr i => Ok (VStr (parent ++ "/" ++ replace_hash i))
                    | _ => Throw TypeError
                    end
                | _ => Throw Unsupported
                end
              else Ok id) ;;
           Ok (set key (VObj (set "$id" id' (entries props))) memo))
        properties [] ;;
    Ok (set "properties" (VObj patched) schema).

(** [appendRequired]: [attributes] carries the property's [name]; the pair
    returned is the patched schema and the patched attributes. *)
Definition appendRequired (attributes schema : obj) : result (obj * obj) :=
  let name := get "name" attributes in
  let required := get "required" attributes in
  let attributes := remove "required" (remove "name" attributes) in
  items <-
    (if truthy required then
       match required with VArr l => Ok l | _ => Throw TypeError end
     else Ok []) ;;
  let memo :=
    fold_left
      (fun memo item =>
         if is_REQUIRED item
         then (fst memo ++ [name], snd memo)
         else (fst memo, snd memo ++ [item]))
      items ([], []) in
  let schemaRequired := fst memo in
  let attributeRequired := snd memo in
  current <- iterate (get "required" schema) ;;
  let patchedRequired := current ++ schemaRequired in
  if negb (isUniq patchedRequired) then Throw FluentSchemaError
  else
    Ok (set "required" (VArr patchedRequired) schema,
        set "required" (VArr attributeRequired) attributes).

(** ** Serialization *)

(** [Object.keys(v).length] *)
Definition keys_length (v : value) : nat := length (entries v).

(** [valueOf] of a builder whose [BaseSchema] closure holds [schema]. *)
Definition valueOf (schema : obj) (isRoot : bool) : result value :=
  let properties := get "properties" schema in
  let definitions := get "definitions" schema in
  let required := get "required" schema in
  let dschema := get "$schema" schema in
  let rest :=
    remove "$schema" (remove "required" (remove "definitions"
      (remove "properties" schema))) in
  _ <-
    (if isRoot && truthy required then
       match required with
       | VArr l =>
           if negb (forallb is_string l) then Throw FluentSchemaError else Ok tt
       | _ => Throw TypeError
       end
     else Ok tt) ;;
  defs <-
    (if Nat.ltb 0 (keys_length (or_else definitions (VArr []))) then
       match definitions with
       | VArr l => o <- flat l ;; Ok [("definitions", VObj o)]
       | _ => Throw TypeError
       end
     else Ok []) ;;
  props <-
    (if Nat.ltb 0 (keys_length (or_else properties (VArr []))) then
       match properties with
       | VArr l => o <- flat l ;; Ok [("properties", VObj o)]
       | _ => Throw TypeError
       end
     else Ok []) ;;
  req <-
    (if truthy required then
       match required with
       | VArr l => Ok (if Nat.ltb 0 (length l) then [("required", required)] else [])
       | VStr _ => Ok [("required", required)]
       | VObj o => if has "length" o then Throw Unsupported else Ok []
       | _ => Ok []
       end
     else Ok []) ;;
  let clause k :=
    if truthy (get k schema) then [(k, get k schema)] else [] in
  Ok (VObj
        (fold_left assign
           [ (if truthy dschema then [("$schema", dschema)] else []);
             defs;
             omit rest ["if"; "then"; "else"];
             props;
             req;
             clause "if";
             clause "then";
             clause "else" ]
           [])).

(** ** Builders *)

(** The factory functions.  A builder object is what one of them returned:
    its methods are closures over the factory's [schema] and [options]. *)
Inductive kind : Type :=
| Base
| Boolean
| String_
| Number
| Integer
| Object
| Array.

Record options : Type := mkOptions {
  generateIds : bool;
  factory : kind
}.

(** [built_by] tells which methods the object carries.  [base] is the
    [schema] binding of [BaseSchema]'s closure, read by the base methods and
    by [valueOf].  [own] is the [schema] binding of the kind factory's
    closure, read by the methods the kind adds; [ObjectSchema.prop] assigns
    to it. *)
Record builder : Type := mkBuilder {
  built_by : kind;
  base : obj;
  own : obj;
  opts : options
}.

(** [F({ schema, ...options })]: both closures start from the one state. *)
Definition construct (F : kind) (s : obj) (o : options) : builder :=
  mkBuilder F s s o.

(** What a caller may pass where a sub-schema is expected. *)
Inductive arg : Type :=
| Plain (v : value)
| Fluent (b : builder).

(** [isFluentSchema] *)
Definition isFluentSchema (a : arg) : bool :=
  match a with
  | Fluent _ => true
  | Plain (VObj o) => truthy (get "isFluentSchema" o)
  | Plain _ => false
  end.

(** The entries [prop] keeps: no [$schema], no [def], nothing undefined and
    no empty list but under [default]. *)
Definition strip (attributes : obj) : obj :=
  fold_left
    (fun memo kv =>
       let key := fst kv in
       let value := snd kv in
       if String.eqb key "$schema" || String.eqb key "def"
          || match value with VUndefined => true | _ => false end
          || (match value with VArr [] => true | _ => false end
              && negb (String.eqb key "default"))
       then memo
       else set key value memo)
    attributes [].

(** The entry [prop] appends for [name], from the sub-schema's attributes
    and the [$id] chosen for it: the [type] gives way to a combining
    keyword, a [$ref] leaves nothing but itself. *)
Definition entry (name : string) (id : value) (attributes : obj) : value :=
  let type :=
    if hasCombiningKeywords attributes then VUndefined
    else get "type" attributes in
  let ref := get "$ref" attributes in
  let attributes := strip (set "type" type (set "$id" id attributes)) in
  if truthy ref then VObj [("name", VStr name); ("$ref", ref)]
  else VObj (assign [("name", VStr name)] attributes).

(** [ObjectSchema(...).prop(name, props)], run on the factory's bindings
    [schema] and [options].  The first component is the factory's [schema]
    binding when the call ends: [prop] assigns the patched schema to it. *)
Definition prop_run (schema : obj) (o : options) (name : string) (props : arg)
  : obj * result builder :=
  let props := match props with Plain VUndefined => Plain (VObj []) | p => p end in
  match props with
  | Plain (VArr _) | Plain VUndefined | Plain (VBool _) | Plain (VNum _)
  | Plain (VStr _) | Plain VSymbol => (schema, Throw FluentSchemaError)
  | Plain VNull => (schema, Throw TypeError)
  | _ =>
      let def :=
        match props with Plain v => truthy (get "def" (entries v)) | Fluent _ => false end in
      let target := if def then "definitions" else "properties" in
      match
        (match props with
         | Fluent b => valueOf b.(base) false
         | Plain v => if has "valueOf" (entries v) then Throw Unsupported else Ok v
         end)
      with
      | Throw e => (schema, Throw e)
      | Ok serialized =>
          let attributes := entries serialized in
          let id :=
            or_else (get "$id" attributes)
              (if o.(generateIds) then VStr ("#" ++ target ++ "/" ++ name)
               else VUndefined) in
          match
            (if isFluentSchema props then
               attributes <- patchIdsWithParentId attributes o.(generateIds) id ;;
               appendRequired (set "name" (VStr name) attributes) schema
             else Ok (schema, attributes))
          with
          | Throw e => (schema, Throw e)
          | Ok (schema, attributes) =>
              (schema,
               current <- iterate (get target schema) ;;
               Ok (construct Object
                     (set target (VArr (current ++ [entry name id attributes]))
                        schema)
                     o))
          end
      end
  end.

(** [setAttribute] *)
Definition setAttribute (schema : obj) (o : options) (key : string)
    (value : value) : result builder :=
  currentProp <- last (get "properties" schema) ;;
  if truthy currentProp then
    match get "name" (entries currentProp), o.(factory) with
    | VStr name, Object =>
        snd (prop_run schema o name
               (Plain (VObj (assign [(key, value)]
                               (remove "name" (entries currentProp))))))
    | VStr _, _ => Throw TypeError
    | _, _ => Throw Unsupported
    end
  else Ok (construct o.(factory) (set key value schema) o).

(** [setRaw] *)
Definition setRaw (schema : obj) (o : options) (raw : value) : result builder :=
  currentProp <- last (get "properties" schema) ;;
  if truthy currentProp then
    match get "name" (entries currentProp), o.(factory) with
    | VStr name, Object =>
        snd (prop_run schema o name
               (Plain (VObj (assign (entries raw)
                               (remove "name" (entries currentProp))))))
    | VStr _, _ => Throw TypeError
    | _, _ => Throw Unsupported
    end
  else Ok (construct o.(factory) (assign schema (entries raw)) o).

(** [props.valueOf({ isRoot })] for whatever was passed: a builder
    serializes its state, any other object is its own value. *)
Definition arg_valueOf (a : arg) (isRoot : bool) : result value :=
  match a with
  | Fluent b => valueOf b.(base) isRoot
  | Plain VUndefined | Plain VNull => Throw TypeError
  | Plain v => if has "valueOf" (entries v) then Throw Unsupported else Ok v
  end.

(** [setComposeType]: [schemas] is [None] for an argument that is no list. *)
Definition setComposeType (prop : string) (schemas : option (list arg))
    (schema : obj) (o : options) : result builder :=
  match schemas with
  | Some l =>
      if negb (forallb isFluentSchema l) then Throw FluentSchemaError
      else
        values <-
          foldM
            (fun memo s =>
               v <- arg_valueOf s false ;;
               Ok (memo ++ [VObj (remove "$schema" (entries v))]))
            l [] ;;
        Ok (construct o.(factory) (set prop (VArr values) schema) o)
  | None => Throw FluentSchemaError
  end.

(** *** The base builder *)

Module BaseSchema.

Definition initialState : obj := [("properties", VArr []); ("required", VArr [])].

Section Methods.
(** The closure of one [BaseSchema(...)] call. *)
Variable schema : obj.
Variable o : options.

Definition id (id : value) : result builder :=
  if negb (truthy id) then Throw FluentSchemaError
  else setAttribute schema o "$id" id.

Definition title (title : value) := setAttribute schema o "title" title.

Definition description (description : value) :=
  setAttribute schema o "description" description.

Definition examples (examples : value) : result builder :=
  if negb (isArray examples) then Throw FluentSchemaError
  else setAttribute schema o "examples" examples.

Definition ref (ref : value) := setAttribute schema o "$ref" ref.

Definition enum (values : value) : result builder :=
  if negb (isArray values) then Throw FluentSchemaError
  else setAttribute schema o "enum" values.

Definition const (value : value) := setAttribute schema o "const" value.

Definition default (defaults : value) := setAttribute schema o "default" defaults.

Definition readOnly (isReadOnly : value) :=
  setAttribute schema o "readOnly"
    (match isReadOnly with VUndefined => VBool true | v => v end).

Definition writeOnly (isWriteOnly : value) :=
  setAttribute schema o "writeOnly"
    (match isWriteOnly with VUndefined => VBool true | v => v end).

Definition deprecated (isDeprecated : value) : result builder :=
  if truthy isDeprecated
     && negb (match isDeprecated with VBool _ => true | _ => false end)
  then Throw FluentSchemaError
  else
    setAttribute schema o "deprecated"
      (match isDeprecated with VUndefined => VBool true | v => v end).

Definition required (props : value) : result builder :=
  currentProp <- last (get "properties" schema) ;;
  required <-
    (if isArray props then
       current <- iterate (get "required" schema) ;;
       added <- iterate props ;;
       Ok (current ++ added)
     else if truthy currentProp then
       current <- iterate (get "required" schema) ;;
       name <- field "name" currentProp ;;
       Ok (current ++ [name])
     else Ok [REQUIRED]) ;;
  if negb (isUniq required) then Throw FluentSchemaError
  else Ok (construct o.(factory) (set "required" (VArr required) schema) o).

Definition not (not : arg) : result builder :=
  if negb (isFluentSchema not) then Throw FluentSchemaError
  else
    v <- arg_valueOf not true ;;
    let notSchema := omit (entries v) ["$schema"; "definitions"] in
    patched <- patchIdsWithParentId notSchema o.(generateIds) (VStr "#not") ;;
    Ok (construct Base (set "not" (VObj patched) schema) o).

Definition anyOf (schemas : option (list arg)) :=
  setComposeType "anyOf" schemas schema o.

Definition allOf (schemas : option (list arg)) :=
  setComposeType "allOf" schemas schema o.

Definition oneOf (schemas : option (list arg)) :=
  setComposeType "oneOf" schemas schema o.

Definition as_ (type : value) := setAttribute schema o "type" type.

(** A clause of [ifThen]/[ifThenElse] before its ids are patched. *)
Definition clause (c : arg) : result obj :=
  v <- arg_valueOf c true ;;
  Ok (omit (entries v) ["$schema"; "definitions"; "type"]).

Definition patched (clauseSchema : obj) (parentId : string) : result value :=
  p <- patchIdsWithParentId clauseSchema o.(generateIds) (VStr parentId) ;;
  Ok (VObj p).

Definition ifThen (ifClause thenClause : arg) : result builder :=
  if negb (isFluentSchema ifClause) then Throw FluentSchemaError
  else if negb (isFluentSchema thenClause) then Throw FluentSchemaError
  else
    ifClauseSchema <- clause ifClause ;;
    thenClauseSchema <- clause thenClause ;;
    i <- patched ifClauseSchema "#if" ;;
    t <- patched thenClauseSchema "#then" ;;
    Ok (construct o.(factory) (set "then" t (set "if" i schema)) o).

Definition ifThenElse (ifClause thenClause elseClause : arg) : result builder :=
  if negb (isFluentSchema ifClause) then Throw FluentSchemaError
  else if negb (isFluentSchema thenClause) then Throw FluentSchemaError
  else if negb (isFluentSchema elseClause) then Throw FluentSchemaError
  else
    ifClauseSchema <- clause ifClause ;;
    thenClauseSchema <- clause thenClause ;;
    elseClauseSchema <- clause elseClause ;;
    i <- patched ifClauseSchema "#if" ;;
    t <- patched thenClauseSchema "#then" ;;
    e <- patched elseClauseSchema "#else" ;;
    Ok (construct o.(factory) (set "else" e (set "then" t (set "if" i schema))) o).

Definition raw (fragment : value) := setRaw schema o fragment.

Definition _getState : obj := schema.

Definition valueOf (isRoot : bool) : result value := valueOf schema isRoot.
End Methods.

End BaseSchema.

(** *** The string, number and array builders: their keyword setters *)

Definition FORMATS : list string :=
  [ "relative-json-pointer"; "json-pointer"; "uuid"; "regex"; "ipv6"; "ipv4";
    "hostname"; "email"; "url"; "uri-template"; "uri-reference"; "uri";
    "time"; "date"; "date-time" ].

(** [Number.isInteger(v)] and [typeof v === 'number']: the numbers of the
    embedding are the integral ones. *)
Definition isNumber (v : value) : bool :=
  match v with VNum _ => true | _ => false end.

Definition isInteger (v : value) : bool :=
  match v with VNum _ => true | _ => false end.

Module StringSchema.
Section Methods.
Variable schema : obj.
Variable o : options.

Definition minLength (min : value) : result builder :=
  if negb (isNumber min) then Throw FluentSchemaError
  else setAttribute schema o "minLength" min.

Definition maxLength (max : value) : result builder :=
  if negb (isNumber max) then Throw FluentSchemaError
  else setAttribute schema o "maxLength" max.

Definition format (format : value) : result builder :=
  if negb (match format with
           | VStr f => existsb (String.eqb f) FORMATS
           | _ => false
           end)
  then Throw FluentSchemaError
  else setAttribute schema o "format" format.


End Methods.
End StringSchema.

Module NumberSchema.
Section Methods.
Variable schema : obj.
Variable o : options.

(** The five numeric setters differ in their keyword only: the value is
    a number, and an integer when the schema's type is ['integer']. *)
Definition numeric (key : string) (n : value) : result builder :=
  if negb (isNumber n) then Throw FluentSchemaError
  else if strict_eqb (get "type" schema) (VStr "integer") && negb (isInteger n)
  then Throw FluentSchemaError
  else setAttribute schema o key n.

Definition minimum := numeric "minimum".
Definition maximum := numeric "maximum".
Definition multipleOf := numeric "multipleOf".
End Methods.
End NumberSchema.

Module ArraySchema.
Section Methods.
Variable schema : obj.
Variable o : options.

Definition uniqueItems (boolean : value) : result builder :=
  if negb (match boolean with VBool _ => true | _ => false end)
  then Throw FluentSchemaError
  else setAttribute schema o "uniqueItems" boolean.

Definition minItems (min : value) : result builder :=
  if negb (isNumber min) then Throw FluentSchemaError
  else setAttribute schema o "minItems" min.

Definition maxItems (max : value) : result builder :=
  if negb (isNumber max) then Throw FluentSchemaError
  else setAttribute schema o "maxItems" max.
End Methods.
End ArraySchema.

(** *** The object builder *)

Module ObjectSchema.
Section Methods.
(** The closure of one [ObjectSchema(...)] call; [schema] is the binding
    [prop] assigns to. *)
Variable schema : obj.
Variable o : options.

Definition id (id : value) : result builder :=
  if negb (truthy id) then Throw FluentSchemaError
  else Ok (construct o.(factory) (set "$id" id schema) o).

Definition maxProperties (max : value) : result builder :=
  if negb (isNumber max) then Throw FluentSchemaError
  else setAttribute schema o "maxProperties" max.

Definition minProperties (min : value) : result builder :=
  if negb (isNumber min) then Throw FluentSchemaError
  else setAttribute schema o "minProperties" min.

Definition prop (name : string) (props : arg) : obj * result builder :=
  prop_run schema o name props.

(** [definition]: the sub-schema's serialized form, marked [def], goes
    through [prop] of a fresh object builder. *)
Definition definition (name : string) (props : arg) : result builder :=
  let props := match props with Plain VUndefined => Plain (VObj []) | p => p end in
  v <- arg_valueOf props false ;;
  snd (prop_run schema o name (Plain (VObj (set "def" (VBool true) (entries v))))).
End Methods.
End ObjectSchema.

(** ** Raw-schema ingestion *)

(** [RawSchema] *)
Definition RawSchema (schema : value) : result builder :=
  let schema := match schema with VUndefined => VObj [] | v => v end in
  if negb (typeof_object schema) then Throw FluentSchemaError
  else
    type <- field "type" schema ;;
    let definitions := get "definitions" (entries schema) in
    let properties := get "properties" (entries schema) in
    let required := get "required" (entries schema) in
    let props :=
      remove "required" (remove "properties" (remove "definitions"
        (remove "type" (entries schema)))) in
    let typed := assign [("type", type)] props in
    match type with
    | VStr "string" => Ok (construct String_ typed (mkOptions false String_))
    | VStr "integer" => Ok (construct Integer typed (mkOptions false Number))
    | VStr "number" => Ok (construct Number typed (mkOptions false Number))
    | VStr "boolean" => Ok (construct Boolean typed (mkOptions false Boolean))
    | VStr "object" =>
        Ok (construct Object
              (assign
                 [ ("type", type);
                   ("definitions", or_else (toArray definitions) (VArr []));
                   ("properties", or_else (toArray properties) (VArr []));
                   ("required", or_else required (VArr [])) ]
                 props)
              (mkOptions false Object))
    | VStr "array" => Ok (construct Array typed (mkOptions false Array))
    | _ => Ok (construct Base props (mkOptions false Base))
    end.

(** ** The root factory *)

Definition draft07 : string := "http://json-schema.org/draft-07/schema#".

Definition initialState : obj :=
  [ ("$schema", VStr draft07);
    ("definitions", VArr []);
    ("properties", VArr []);
    ("required", VArr []) ].

(** [S]: [withOptions({ schema, generateIds })]. *)
Module S.
Section Methods.
Variable schema : obj.
Variable generateIds : bool.

Definition string :=
  BaseSchema.as_ schema (mkOptions generateIds String_) (VStr "string").

Definition number :=
  BaseSchema.as_ schema (mkOptions generateIds Number) (VStr "number").

Definition integer :=
  BaseSchema.as_ schema (mkOptions generateIds Integer) (VStr "integer").

Definition boolean :=
  BaseSchema.as_ schema (mkOptions generateIds Boolean) (VStr "boolean").

Definition array :=
  BaseSchema.as_ schema (mkOptions generateIds Array) (VStr "array").

Definition object :=
  BaseSchema.as_ schema (mkOptions generateIds Object) (VStr "object").

Definition raw (fragment : value) := RawSchema fragment.
End Methods.
End S.

(** The package's default export: [S()] with no options, next to the
    methods of a bare [BaseSchema()]. *)
Module FluentJSONSchema.

Definition self : builder :=
  construct Base BaseSchema.initialState (mkOptions false Base).

Definition string := S.string initialState false.
Definition number := S.number initialState false.
Definition integer := S.integer initialState false.
Definition boolean := S.boolean initialState false.
Definition array := S.array initialState false.
Definition object := S.object initialState false.
Definition raw (fragment : value) := S.raw fragment.

End FluentJSONSchema.

(** ** Calling a method of a builder object *)

Module Call.
Inductive t : Type :=
| id (v : value)
| title (v : value)
| description (v : value)
| examples (v : value)
| ref (v : value)
| enum (v : value)
| const (v : value)
| default (v : value)
| readOnly (v : value)
| writeOnly (v : value)
| deprecated (v : value)
| required (props : value)
| not (s : arg)
| anyOf (l : option (list arg))
| allOf (l : option (list arg))
| oneOf (l : option (list arg))
| ifThen (i t : arg)
| ifThenElse (i t e : arg)
| raw (fragment : value)
| minLength (v : value)
| maxLength (v : value)
| format (v : value)
| minimum (v : value)
| maximum (v : value)
| multipleOf (v : value)
| minItems (v : value)
| maxItems (v : value)
| uniqueItems (v : value)
| maxProperties (v : value)
| minProperties (v : value)
| prop (name : string) (props : arg)
| definition (name : string) (props : arg).
End Call.

Definition is_numeric (k : kind) : bool :=
  match k with Number | Integer => true | _ => false end.

(** [b.m(x)]: the receiver as the call leaves it, and what the call
    returned.  A method the object does not carry is [undefined], and
    calling it a [TypeError]. *)
Definition invoke (b : builder) (c : Call.t) : builder * result builder :=
  let s := b.(base) in
  let o := b.(opts) in
  let F := b.(built_by) in
  let only_on (p : bool) (r : result builder) :=
    (b, if p then r else Throw TypeError) in
  match c with
  | Call.id v =>
      (b, match F with
          | Object => ObjectSchema.id b.(own) o v
          | _ => BaseSchema.id s o v
          end)
  | Call.title v => (b, BaseSchema.title s o v)
  | Call.description v => (b, BaseSchema.description s o v)
  | Call.examples v => (b, BaseSchema.examples s o v)
  | Call.ref v => (b, BaseSchema.ref s o v)
  | Call.enum v => (b, BaseSchema.enum s o v)
  | Call.const v => (b, BaseSchema.const s o v)
  | Call.default v => (b, BaseSchema.default s o v)
  | Call.readOnly v => (b, BaseSchema.readOnly s o v)
  | Call.writeOnly v => (b, BaseSchema.writeOnly s o v)
  | Call.deprecated v => (b, BaseSchema.deprecated s o v)
  | Call.required props => (b, BaseSchema.required s o props)
  | Call.not a => (b, BaseSchema.not s o a)
  | Call.anyOf l => (b, BaseSchema.anyOf s o l)
  | Call.allOf l => (b, BaseSchema.allOf s o l)
  | Call.oneOf l => (b, BaseSchema.oneOf s o l)
  | Call.ifThen i t => (b, BaseSchema.ifThen s o i t)
  | Call.ifThenElse i t e => (b, BaseSchema.ifThenElse s o i t e)
  | Call.raw fragment => (b, BaseSchema.raw s o fragment)
  | Call.minLength v =>
      only_on (match F with String_ => true | _ => false end)
        (StringSchema.minLength b.(own) o v)
  | Call.maxLength v =>
      only_on (match F with String_ => true | _ => false end)
        (StringSchema.maxLength b.(own) o v)
  | Call.format v =>
      only_on (match F with String_ => true | _ => false end)
        (StringSchema.format b.(own) o v)
  | Call.minimum v => only_on (is_numeric F) (NumberSchema.minimum b.(own) o v)
  | Call.maximum v => only_on (is_numeric F) (NumberSchema.maximum b.(own) o v)
  | Call.multipleOf v => only_on (is_numeric F) (NumberSchema.multipleOf b.(own) o v)
  | Call.minItems v =>
      only_on (match F with Array => true | _ => false end)
        (ArraySchema.minItems b.(own) o v)
  | Call.maxItems v =>
      only_on (match F with Array => true | _ => false end)
        (ArraySchema.maxItems b.(own) o v)
  | Call.uniqueItems v =>
      only_on (match F with Array => true | _ => false end)
        (ArraySchema.uniqueItems b.(own) o v)
  | Call.maxProperties v =>
      only_on (match F with Object => true | _ => false end)
        (ObjectSchema.maxProperties b.(own) o v)
  | Call.minProperties v =>
      only_on (match F with Object => true | _ => false end)
        (ObjectSchema.minProperties b.(own) o v)
  | Call.prop name props =>
      match F with
      | Object =>
          let r := ObjectSchema.prop b.(own) o name props in
          (mkBuilder F s (fst r) o, snd r)
      | _ => (b, Throw TypeError)
      end
  | Call.definition name props =>
      only_on (match F with Object => true | _ => false end)
        (ObjectSchema.definition b.(own) o name props)
  end.

(** [b.valueOf()], the serialized form of a document. *)
Definition serialize (b : builder) : result value := valueOf b.(base) true.

(** A chain [b.m1(x1).m2(x2)...]: each call is made on what the one before
    returned. *)
Definition chain (start : result builder) (calls : list Call.t) : result builder :=
  fold_left (fun r c => b <- r ;; snd (invoke b c)) calls start.

(** ** Selection of properties, and the array builder's [contains] *)

(** [list.filter(f)] with a callback that may throw: the elements are
    visited in order. *)
Fixpoint filterM {A : Type} (f : A -> result bool) (l : list A)
  : result (list A) :=
  match l with
  | [] => Ok []
  | x :: t =>
      b <- f x ;;
      r <- filterM f t ;;
      Ok (if b then x :: r else r)
  end.

(** [v.filter(f)]: a list carries the method, a string or a number does
    not. *)
Definition filter_of (v : value) (f : value -> result bool)
  : result (list value) :=
  match v with
  | VArr l => filterM f l
  | VObj o => if has "filter" o then Throw Unsupported else Throw TypeError
  | _ => Throw TypeError
  end.

(** [properties.includes(v)]: a list compares by same-value-zero, which on
    the values described here is strict equality; a string would search for
    a substring. *)
Definition includes (properties : value) (v : value) : result bool :=
  match properties with
  | VArr l => Ok (existsb (strict_eqb v) l)
  | VStr _ => Throw Unsupported
  | VObj o => if has "includes" o then Throw Unsupported else Throw TypeError
  | _ => Throw TypeError
  end.

(** [only] and [without] of the object builder. *)
Module ObjectSelection.
Section Methods.
Variable schema : obj.
Variable o : options.

Definition only (properties : value) : result builder :=
  let rest := omit schema ["$id"; "properties"] in
  selected <-
    filter_of (get "properties" schema)
      (fun e => name <- field "name" e ;; includes properties name) ;;
  required <-
    filter_of (get "required" schema) (fun p => includes properties p) ;;
  Ok (construct Object
        (set "required" (VArr required) (set "properties" (VArr selected) rest))
        o).

Definition without (properties : value) : result builder :=
  let rest := omit schema ["$id"; "properties"] in
  selected <-
    filter_of (get "properties" schema)
      (fun e =>
         name <- field "name" e ;;
         found <- includes properties name ;;
         Ok (negb found)) ;;
  required <-
    filter_of (get "required" schema)
      (fun p => found <- includes properties p ;; Ok (negb found)) ;;
  Ok (construct Object
        (set "required" (VArr required) (set "properties" (VArr selected) rest))
        o).
End Methods.
End ObjectSelection.

(** [contains] of the array builder: of the sub-schema's serialized form,
    [$schema], [definitions], [properties] and [required] are left out. *)
Module ArrayContains.
Section Methods.
Variable schema : obj.
Variable o : options.

Definition contains (value : arg) : result builder :=
  if negb (isFluentSchema value) then Throw FluentSchemaError
  else
    v <- arg_valueOf value true ;;
    setAttribute schema o "contains"
      (VObj (remove "required" (remove "properties" (remove "definitions"
               (remove "$schema" (entries v)))))).
End Methods.
End ArrayContains.

(** * Definitions for the properties *)

(** ** Names enumerated in insertion order *)

Definition is_digit (c : ascii) : bool :=
  Nat.leb 48 (nat_of_ascii c) && Nat.leb (nat_of_ascii c) 57.

Fixpoint digits (s : string) : bool :=
  match s with
  | EmptyString => true
  | String c t => is_digit c && digits t
  end.

(** A name made of digits: the canonical array indices are among them. *)
Definition index_like (k : string) : bool :=
  negb (String.eqb k "") && digits k.

(** A name that an object lists where it was inserted and that
    [Object.assign] copies: no array index, not [__proto__]. *)
Definition ordinary (k : string) : bool :=
  negb (index_like k) && negb (String.eqb k "__proto__").

Definition ordinary_keys (o : obj) : bool :=
  forallb (fun kv => ordinary (fst kv)) o.

(** ** Builders of the worked chains *)

(** [S.string()] and [S.object()] as the default export builds them. *)
Definition string_builder : builder :=
  construct String_ (initialState ++ [("type", VStr "string")])
    (mkOptions false String_).

Definition object_builder (generateIds : bool) : builder :=
  construct Object (initialState ++ [("type", VStr "object")])
    (mkOptions generateIds Object).

(** ** Well-formed objects *)

(** Objects hold each property name once. *)
Fixpoint unique_keys (o : obj) : bool :=
  match o with
  | [] => true
  | (k, _) :: t => negb (has k t) && unique_keys t
  end.

(** The sub-schema [S.string().required()]: a required sentinel. *)
Definition required_string : builder :=
  construct String_
    [ ("$schema", VStr draft07); ("definitions", VArr []);
      ("properties", VArr []); ("required", VArr [REQUIRED]);
      ("type", VStr "string") ]
    (mkOptions false String_).

(** ** Flattening, entry by entry *)

Definition entry_name (e : value) : string :=
  match get "name" (entries e) with VStr n => n | _ => "" end.

Definition entry_rest (e : value) : value := VObj (remove "name" (entries e)).

(** [flat] on entries that all carry a name. *)
Definition flatten (l : list value) : obj :=
  fold_left (fun memo e => set (entry_name e) (entry_rest e) memo) l [].

(** An entry of a [properties] or [definitions] list: an object with a
    string under [name]. *)
Definition named (e : value) : bool :=
  match e with
  | VObj o => is_string (get "name" o)
  | _ => false
  end.

(** The other fields of the last entry called [n], if there is one. *)
Fixpoint last_named (n : string) (l : list value) : option value :=
  match l with
  | [] => None
  | e :: t =>
      match last_named n t with
      | Some r => Some r
      | None => if String.eqb (entry_name e) n then Some (entry_rest e) else None
      end
  end.

(** The names of a list in the order of their first occurrence, past the
    names already [seen]. *)
Fixpoint first_occurrences (seen : list string) (l : list string) : list string :=
  match l with
  | [] => []
  | n :: t =>
      if existsb (String.eqb n) seen then first_occurrences seen t
      else n :: first_occurrences (seen ++ [n]) t
  end.

(** ** The assembled object, in the specification's words *)

(** The names [valueOf] places itself. *)
Definition placed : list string :=
  ["properties"; "definitions"; "required"; "$schema"; "if"; "then"; "else"].

(** [k], if present. *)
Definition present (k : string) (schema : obj) : obj :=
  if has k schema then [(k, get k schema)] else [].

(** The named entries under [k] flattened to a mapping, omitted if empty. *)
Definition flattened (k : string) (schema : obj) : obj :=
  match get k schema with
  | VArr (e :: l) => [(k, VObj (flatten (e :: l)))]
  | _ => []
  end.

(** The list under [k], omitted if empty. *)
Definition listed (k : string) (schema : obj) : obj :=
  match get k schema with
  | VArr (e :: l) => [(k, VArr (e :: l))]
  | _ => []
  end.

(** The other root attributes, in their order. *)
Definition others (schema : obj) : obj :=
  filter (fun kv => negb (existsb (String.eqb (fst kv)) placed)) schema.

Definition valueOf_spec (schema : obj) : value :=
  VObj (present "$schema" schema
        ++ flattened "definitions" schema
        ++ others schema
        ++ flattened "properties" schema
        ++ listed "required" schema
        ++ present "if" schema
        ++ present "then" schema
        ++ present "else" schema).

(** [k], when the state holds a truthy value under it. *)
Definition emitted (k : string) (schema : obj) : obj :=
  if truthy (get k schema) then [(k, get k schema)] else [].

(** The object [valueOf] assembles, piece by piece. *)
Definition valueOf_layout (schema : obj) : value :=
  VObj (emitted "$schema" schema
        ++ flattened "definitions" schema
        ++ others schema
        ++ flattened "properties" schema
        ++ listed "required" schema
        ++ emitted "if" schema
        ++ emitted "then" schema
        ++ emitted "else" schema).

(** The names [valueOf] writes only under a truthy value. *)
Definition conditional : list string := ["$schema"; "if"; "then"; "else"].

(** The state without the [$schema] and the clauses it holds in vain. *)
Definition settled (schema : obj) : obj :=
  filter
    (fun kv =>
       negb (existsb (String.eqb (fst kv)) conditional) || truthy (snd kv))
    schema.

(** ** Builder states *)

Definition named_entries (v : value) : bool :=
  match v with
  | VUndefined => true
  | VArr l => forallb named l
  | _ => false
  end.

(** A state as the data model has it: each name once; [properties] and
    [definitions], where present, lists of named entries; [required], where
    present, a list; [$schema] and the conditional clauses, where present,
    holding a schema (a non-empty string, an object). *)
Definition wf_state (schema : obj) : bool :=
  unique_keys schema
  && named_entries (get "properties" schema)
  && named_entries (get "definitions" schema)
  && match get "required" schema with
     | VUndefined | VArr _ => true
     | _ => false
     end
  && forallb (fun k => negb (has k schema) || truthy (get k schema))
       ["$schema"; "if"; "then"; "else"].

(** The lists of a state as the data model has them: each name once;
    [properties] and [definitions], where present, lists of named entries;
    [required], where present, a list. *)
Definition typed_lists (schema : obj) : bool :=
  unique_keys schema
  && named_entries (get "properties" schema)
  && named_entries (get "definitions" schema)
  && match get "required" schema with
     | VUndefined | VArr _ => true
     | _ => false
     end.

(** The names of the entries of a list are ordinary. *)
Definition ordinary_entries (v : value) : bool :=
  match v with
  | VArr l => forallb (fun e => ordinary (entry_name e)) l
  | _ => true
  end.

(** The names [valueOf] writes are ordinary: those of the root's attributes
    and those of its properties and definitions. *)
Definition ordinary_state (schema : obj) : bool :=
  ordinary_keys schema
  && ordinary_entries (get "properties" schema)
  && ordinary_entries (get "definitions" schema).

(** No sentinel is left in the required list. *)
Definition resolved (schema : obj) : bool :=
  match get "required" schema with
  | VArr l => forallb is_string l
  | _ => true
  end.

(** ** Pieces of [prop] and of the serialized form *)

(** An optional entry under one name. *)
Definition part (k : string) (p : obj) : Prop := p = [] \/ exists v, p = [(k, v)].

(** What [strip] keeps. *)
Definition kept (kv : string * value) : bool :=
  negb (String.eqb (fst kv) "$schema" || String.eqb (fst kv) "def"
        || match snd kv with VUndefined => true | _ => false end
        || (match snd kv with VArr [] => true | _ => false end
            && negb (String.eqb (fst kv) "default"))).

(** The string sub-schema [S.string().title('A')]. *)
Definition titled_string : builder :=
  construct String_
    (initialState ++ [("type", VStr "string"); ("title", VStr "A")])
    (mkOptions false String_).

(** Attributes that [prop] reads as instructions rather than keywords. *)
Definition marked (attributes : obj) : bool :=
  has "valueOf" attributes || truthy (get "def" attributes)
  || truthy (get "isFluentSchema" attributes).

(** The [$id] that [prop] chooses for a property. *)
Definition property_id (o : options) (name : string) (attributes : obj) : value :=
  or_else (get "$id" attributes)
    (if o.(generateIds) then VStr ("#properties/" ++ name) else VUndefined).

(** The id [patchIdsWithParentId] gives a nested property when ids are
    generated under a parent id. *)
Definition nested_id (parent key : string) (props : value) : value :=
  match or_else (get "$id" (entries props)) (VStr ("#properties/" ++ key)) with
  | VStr i => VStr (parent ++ "/" ++ replace_hash i)
  | other => other
  end.

(** One step of its reduction, ids being generated under [parent]. *)
Definition patch_step (parent : string) (memo : obj) (kp : string * value)
  : result obj :=
  own <- field "$id" (snd kp) ;;
  match or_else own (VStr ("#properties/" ++ fst kp)) with
  | VStr i =>
      Ok (set (fst kp)
            (VObj (set "$id" (VStr (parent ++ "/" ++ replace_hash i))
                     (entries (snd kp))))
            memo)
  | _ => Throw TypeError
  end.

(** The sub-schema [S.object().prop('bar', S.string().id('myId')).required()]. *)
Definition object_with_explicit_bar : result builder :=
  s <- chain FluentJSONSchema.string [Call.id (VStr "myId")] ;;
  chain FluentJSONSchema.object [Call.prop "bar" (Fluent s); Call.required VUndefined].

(** The sub-schema [S.object().prop('bar', S.string()).required()] and the
    builder [withOptions({ generateIds: true }).object().prop('foo', ...)]
    makes of it. *)
Definition object_with_bar : builder :=
  construct Object
    [ ("$schema", VStr draft07); ("definitions", VArr []);
      ("properties", VArr [VObj [("name", VStr "bar"); ("type", VStr "string")]]);
      ("required", VArr [VStr "bar"]); ("type", VStr "object") ]
    (mkOptions false Object).

Definition object_with_foo : builder :=
  construct Object
    [ ("$schema", VStr draft07); ("definitions", VArr []);
      ("properties",
       VArr
         [ VObj
             [ ("name", VStr "foo"); ("type", VStr "object");
               ("properties",
                VObj
                  [ ("bar",
                     VObj [ ("type", VStr "string");
                            ("$id", VStr "#properties/foo/properties/bar") ]) ]);
               ("required", VArr [VStr "bar"]);
               ("$id", VStr "#properties/foo") ] ]);
      ("required", VArr []); ("type", VStr "object") ]
    (mkOptions true Object).

(** ** The setters that go through [setAttribute] *)



(** ** The round trip through ingestion *)

(** Two objects with the same members, whatever their order, are deep-equal. *)
Definition same_members (a b : value) : Prop :=
  match a, b with
  | VObj x, VObj y => Permutation x y
  | _, _ => a = b
  end.

Definition empty_or_absent (v : value) : bool :=
  match v with
  | VUndefined | VArr [] => true
  | _ => false
  end.

(** The kinds that serialize to attributes only. *)
Definition attribute_kinds : list string :=
  ["string"; "number"; "integer"; "boolean"; "array"].

Definition attributes_only (schema : obj) : bool :=
  empty_or_absent (get "properties" schema)
  && empty_or_absent (get "definitions" schema)
  && empty_or_absent (get "required" schema).

(** The schemas that ingestion can represent: an object schema, with its
    properties, definitions and required list; a string, number, integer,
    boolean or array schema, or a fragment without a type, made of
    attributes only. *)
Definition representable (schema : obj) : bool :=
  match get "type" schema with
  | VStr t =>
      String.eqb t "object"
      || (existsb (String.eqb t) attribute_kinds && attributes_only schema)
  | VUndefined => negb (has "type" schema) && attributes_only schema
  | _ => false
  end.

(** Each entry of a list holds each of its fields once. *)
Definition unique_entries (v : value) : bool :=
  match v with
  | VArr l => forallb (fun e => unique_keys (entries e)) l
  | _ => true
  end.

(** [type] is the first of the other root attributes, as the kind factories
    and the ingestion leave it. *)
Definition type_leads (schema : obj) : bool :=
  negb (has "type" schema)
  || match others schema with
     | (k, _) :: _ => String.eqb k "type"
     | [] => false
     end.

(** The other root attributes with [type] moved to the front. *)
Definition type_first (o : obj) : obj := present "type" o ++ remove "type" o.

(** The members of a serialized form, and what ingestion carries over of
    them apart from [type], [definitions], [properties] and [required]. *)
Definition serialized (schema : obj) : obj :=
  present "$schema" schema ++ flattened "definitions" schema
  ++ others schema ++ flattened "properties" schema
  ++ listed "required" schema ++ present "if" schema
  ++ present "then" schema ++ present "else" schema.

Definition carried (schema : obj) : obj :=
  present "$schema" schema ++ remove "type" (others schema)
  ++ present "if" schema ++ present "then" schema ++ present "else" schema.

(** The names ingestion places at the head of the rebuilt state. *)
Definition headed : list string := ["type"; "definitions"; "properties"; "required"].

(** The entry [toArray] makes of a key and its sub-schema. *)
Definition rebuilt (kv : string * value) : value :=
  VObj (assign [("name", VStr (fst kv))] (entries (snd kv))).

(** A sub-schema as flattening leaves it: an object, each field once, none
    called [name]. *)
Definition nameless (kv : string * value) : bool :=
  match snd kv with
  | VObj r => unique_keys r && negb (has "name" r)
  | _ => false
  end.

(** What [RawSchema] spreads after the names it reads. *)
Definition spread_props (o : obj) : obj :=
  remove "required" (remove "properties" (remove "definitions" (remove "type" o))).

(** The second serialization: the first with [type] moved to the front of
    the other attributes. *)
Definition reserialized (schema : obj) : obj :=
  present "$schema" schema ++ flattened "definitions" schema
  ++ type_first (others schema) ++ flattened "properties" schema
  ++ listed "required" schema ++ present "if" schema
  ++ present "then" schema ++ present "else" schema.

(** The builder of [S.object().prop('a', S.string()).required()]. *)
Definition object_with_required_a : builder :=
  construct Object
    [ ("$schema", VStr draft07); ("definitions", VArr []);
      ("properties", VArr [VObj [("name", VStr "a"); ("type", VStr "string")]]);
      ("required", VArr [VStr "a"]); ("type", VStr "object") ]
    (mkOptions false Object).

(** ** Entries and keyed objects *)

(** An entry as [prop] and [toArray] build it: the name first, then the
    other fields, each once. *)
Definition name_first (e : value) : bool :=
  match e with
  | VObj ((k, VStr _) :: r) =>
      String.eqb k "name" && unique_keys r && negb (has "name" r)
  | _ => false
  end.

(** The name of an entry and the names of its fields are ordinary. *)
Definition ordinary_entry (e : value) : bool :=
  ordinary (entry_name e) && ordinary_keys (entries e).

(** The entry of a list, as a member of the keyed object. *)
Definition keyed (e : value) : string * value := (entry_name e, entry_rest e).

(** No two entries of the list share a name. *)
Definition distinct_names (l : list value) : bool := unique_keys (map keyed l).

(** ** The list [prop] appends to *)

(** [props.def]: a plain object may be marked as a definition. *)
Definition marked_def (props : arg) : bool :=
  match props with
  | Plain v => truthy (get "def" (entries v))
  | Fluent _ => false
  end.

Definition target_of (props : arg) : string :=
  if marked_def props then "definitions" else "properties".

(** ** Selections *)

(** Whether the list given to [only] or [without] holds [v]. *)
Definition chosen (names : list value) (v : value) : bool :=
  existsb (strict_eqb v) names.




(** The state [only] and [without] hand to the object factory, for the test
    [q] and the lists [ps] and [rs] that [schema] holds under [properties]
    and [required]. *)
Definition selected_state (q : value -> bool) (ps rs : list value)
    (schema : obj) : obj :=
  set "required" (VArr (filter q rs))
    (set "properties" (VArr (filter (fun e => q (get "name" (entries e))) ps))
       (omit schema ["$id"; "properties"])).

(** ** Ingestion *)

(** A [type] that [RawSchema] has a case for. *)
Definition known_kind (type : value) : bool :=
  match type with
  | VStr t =>
      existsb (String.eqb t)
        ["string"; "integer"; "number"; "boolean"; "object"; "array"]
  | _ => false
  end.

(** ** Patched ids *)

(** A member of [properties] before and after its id was patched: the same
    name, the same sub-schema but for [$id]. *)
Definition repatched (kp kp' : string * value) : Prop :=
  fst kp' = fst kp
  /\ exists id, snd kp' = VObj (set "$id" id (entries (snd kp))).

(** The members [patchIdsWithParentId] goes through. *)
Definition nested_properties (schema : obj) : obj :=
  entries (or_else (get "properties" schema) (VObj [])).

(** ** Attributes a call leaves as they were *)

(** Every attribute of [before] but those called [names] is the same in
    [after]. *)
Definition unchanged_but (names : list string) (before after : obj) : Prop :=
  forall k, existsb (String.eqb k) names = false -> get k after = get k before.

(** What [only(['a'])] returns on [object_with_required_a]. *)
Definition object_with_only_a : builder :=
  construct Object
    [ ("$schema", VStr draft07); ("definitions", VArr []);
      ("required", VArr [VStr "a"]); ("type", VStr "object");
      ("properties", VArr [VObj [("name", VStr "a"); ("type", VStr "string")]]) ]
    (mkOptions false Object).

(** ** Calls that keep the data model *)

(** A sub-schema that cannot rename its entry: a builder, or a plain
    object without a member [name]. *)
Definition nameless_arg (props : arg) : bool :=
  match props with
  | Fluent _ => true
  | Plain v => negb (has "name" (entries v))
  end.

(** The calls considered: all but [raw], whose fragment may hold anything,
    with sub-schemas for [prop] and [definition] that bring no [name] of
    their own. *)
Definition keeps_data_model (c : Call.t) : bool :=
  match c with
  | Call.raw _ => false
  | Call.prop _ props => nameless_arg props
  | Call.definition _ props =>
      match
        arg_valueOf
          (match props with Plain VUndefined => Plain (VObj []) | p => p end)
          false
      with
      | Ok v => negb (has "name" (entries v))
      | Throw _ => true
      end
  | _ => true
  end.

(** What the data model asks of the value under a name. *)
Definition fits (k : string) (v : value) : bool :=
  if String.eqb "properties" k || String.eqb "definitions" k then named_entries v
  else if String.eqb "required" k then
    match v with VUndefined | VArr _ => true | _ => false end
  else if String.eqb "$schema" k || String.eqb "if" k || String.eqb "then" k
          || String.eqb "else" k
  then truthy v
  else true.

(** * Properties *)

(** ** Worked chains *)

Lemma string_is_string_builder : FluentJSONSchema.string = Ok string_builder.
Proof. reflexivity. Qed.

Lemma object_is_object_builder generateIds :
  S.object initialState generateIds = Ok (object_builder generateIds).
Proof. destruct generateIds; reflexivity. Qed.

(** ** Facts about objects *)

Section ObjectFacts.

Lemma eqb_sym_false (a b : string) :
  String.eqb a b = false -> String.eqb b a = false.
Proof. rewrite (String.eqb_sym b a). trivial. Qed.

Lemma has_In k (o : obj) : has k o = true <-> In k (keys o).
Proof.
  induction o as [|[k' v] t IH]; simpl.
  - split; [discriminate | tauto].
  - rewrite orb_true_iff, IH, String.eqb_eq. intuition.
Qed.

Lemma has_false_get k (o : obj) : has k o = false -> get k o = VUndefined.
Proof.
  induction o as [|[k' v] t IH]; simpl; trivial.
  intros H. apply orb_false_iff in H as [H1 H2]. rewrite H1. auto.
Qed.

Lemma get_set_same k v (o : obj) : get k (set k v o) = v.
Proof.
  induction o as [|[k' v'] t IH]; simpl.
  - now rewrite String.eqb_refl.
  - destruct (String.eqb k k') eqn:E; simpl.
    + now rewrite String.eqb_refl.
    + now rewrite E.
Qed.

Lemma get_set_other k k' v (o : obj) :
  String.eqb k k' = false -> get k (set k' v o) = get k o.
Proof.
  intros N. induction o as [|[k2 v2] t IH]; simpl.
  - now rewrite N.
  - destruct (String.eqb k' k2) eqn:E; simpl.
    + apply String.eqb_eq in E. subst k2. now rewrite N.
    + destruct (String.eqb k k2); auto.
Qed.

Lemma has_set k k' v (o : obj) :
  has k (set k' v o) = String.eqb k k' || has k o.
Proof.
  induction o as [|[k2 v2] t IH]; simpl.
  - reflexivity.
  - destruct (String.eqb k' k2) eqn:E; simpl.
    + apply String.eqb_eq in E. subst k2.
      destruct (String.eqb k k'); reflexivity.
    + rewrite IH. destruct (String.eqb k k'), (String.eqb k k2); reflexivity.
Qed.

Lemma set_absent k v (o : obj) : has k o = false -> set k v o = o ++ [(k, v)].
Proof.
  induction o as [|[k' v'] t IH]; simpl; trivial.
  intros H. apply orb_false_iff in H as [H1 H2].
  rewrite H1, IH by assumption. reflexivity.
Qed.

Lemma set_head k v v' (t : obj) : set k v ((k, v') :: t) = (k, v) :: t.
Proof. simpl. now rewrite String.eqb_refl. Qed.

Lemma has_app k (a b : obj) : has k (a ++ b) = has k a || has k b.
Proof.
  induction a as [|[k' v] t IH]; simpl; trivial.
  rewrite IH. now rewrite orb_assoc.
Qed.

Lemma get_app k (a b : obj) :
  get k (a ++ b) = if has k a then get k a else get k b.
Proof.
  induction a as [|[k' v] t IH]; simpl; trivial.
  destruct (String.eqb k k'); simpl; auto.
Qed.

Lemma has_remove k k' (o : obj) :
  has k (remove k' o) = negb (String.eqb k' k) && has k o.
Proof.
  unfold remove. induction o as [|[k2 v] t IH]; simpl.
  - now rewrite andb_false_r.
  - destruct (String.eqb k' k2) eqn:E; simpl.
    + apply String.eqb_eq in E. subst k2. rewrite IH.
      rewrite (String.eqb_sym k k').
      destruct (String.eqb k' k); reflexivity.
    + rewrite IH. destruct (String.eqb k k2) eqn:E2; simpl.
      * apply String.eqb_eq in E2. subst k2. now rewrite E.
      * reflexivity.
Qed.

Lemma get_remove_other k k' (o : obj) :
  String.eqb k' k = false -> get k (remove k' o) = get k o.
Proof.
  intros N. unfold remove. induction o as [|[k2 v] t IH]; simpl; trivial.
  destruct (String.eqb k' k2) eqn:E; simpl.
  - apply String.eqb_eq in E. subst k2.
    rewrite (String.eqb_sym k k'), N. exact IH.
  - destruct (String.eqb k k2); auto.
Qed.

Lemma get_remove_same k (o : obj) : get k (remove k o) = VUndefined.
Proof.
  apply has_false_get. rewrite has_remove, String.eqb_refl. reflexivity.
Qed.

Lemma unique_keys_NoDup (o : obj) : unique_keys o = true <-> NoDup (keys o).
Proof.
  induction o as [|[k v] t IH]; simpl.
  - split; [constructor | trivial].
  - rewrite andb_true_iff, negb_true_iff, IH. split.
    + intros [H1 H2]. constructor; trivial.
      rewrite <- has_In. congruence.
    + intros H. inversion H as [|? ? H1 H2]; subst. split; trivial.
      destruct (has k t) eqn:E; trivial.
      apply has_In in E. contradiction.
Qed.

Lemma unique_keys_app (a b : obj) :
  unique_keys (a ++ b) = true <->
  unique_keys a = true /\ unique_keys b = true
  /\ (forall k, has k a = true -> has k b = false).
Proof.
  induction a as [|[k v] t IH]; simpl.
  - intuition discriminate.
  - rewrite !andb_true_iff, !negb_true_iff, IH, has_app, orb_false_iff.
    split.
    + intros [[H1 H2] [H3 [H4 H5]]]. repeat split; trivial.
      intros k'. rewrite orb_true_iff. intros [E|E].
      * apply String.eqb_eq in E. now subst.
      * auto.
    + intros [[H1 H2] [H3 H4]]. repeat split; trivial.
      * apply H4. now rewrite String.eqb_refl.
      * intros k' E. apply H4. rewrite E. apply orb_true_r.
Qed.

Lemma unique_keys_filter (p : string * value -> bool) (o : obj) :
  unique_keys o = true -> unique_keys (filter p o) = true.
Proof.
  intros H. apply unique_keys_NoDup in H. apply unique_keys_NoDup.
  unfold keys in *. induction o as [|[k v] t IH]; simpl in *; trivial.
  inversion H as [|? ? H1 H2]; subst.
  destruct (p (k, v)); simpl; auto.
  constructor; auto. intros C. apply H1.
  apply in_map_iff in C as [[k' v'] [E C]]. simpl in E. subst k'.
  apply filter_In in C as [C _]. apply in_map_iff. now exists (k, v').
Qed.

Lemma has_filter_false (p : string * value -> bool) k (o : obj) :
  has k o = false -> has k (filter p o) = false.
Proof.
  induction o as [|[k' v] t IH]; simpl; trivial.
  intros H. apply orb_false_iff in H as [H1 H2].
  destruct (p (k', v)); simpl; auto. now rewrite H1, IH.
Qed.

(** A fold that sets the kept entries of a source one after the other is
    an append when the source's names are new and distinct. *)
Lemma fold_set_filter (drop : string * value -> bool) (src memo : obj) :
  unique_keys src = true ->
  (forall k, has k src = true -> has k memo = false) ->
  fold_left
    (fun memo kv => if drop kv then memo else set (fst kv) (snd kv) memo)
    src memo
  = memo ++ filter (fun kv => negb (drop kv)) src.
Proof.
  revert memo. induction src as [|[k v] t IH]; intros memo U D; simpl.
  - now rewrite app_nil_r.
  - simpl in U. apply andb_true_iff in U as [U1 U2].
    apply negb_true_iff in U1.
    destruct (drop (k, v)) eqn:E; simpl.
    + apply IH; trivial. intros k' Hk. apply D. simpl. rewrite Hk.
      apply orb_true_r.
    + rewrite set_absent.
      * rewrite IH; trivial.
        -- now rewrite <- app_assoc.
        -- intros k' Hk. rewrite has_app. simpl.
           rewrite (D k') by (simpl; rewrite Hk; apply orb_true_r).
           simpl. rewrite orb_false_r.
           destruct (String.eqb k' k) eqn:E2; trivial.
           apply String.eqb_eq in E2. subst. congruence.
      * apply D. simpl. now rewrite String.eqb_refl.
Qed.

Lemma assign_disjoint (target source : obj) :
  unique_keys source = true ->
  (forall k, has k source = true -> has k target = false) ->
  assign target source = target ++ source.
Proof.
  intros U D. unfold assign.
  rewrite (fold_set_filter (fun _ => false)); trivial.
  f_equal. induction source as [|x t IH]; simpl; trivial.
  f_equal. apply IH.
  - destruct x. simpl in U. now apply andb_true_iff in U as [_ U].
  - intros k Hk. apply D. destruct x. simpl. rewrite Hk. apply orb_true_r.
Qed.

Lemma omit_filter (o : obj) (props : list string) :
  unique_keys o = true ->
  omit o props = filter (fun kv => negb (existsb (String.eqb (fst kv)) props)) o.
Proof.
  intros U. unfold omit.
  now rewrite (fold_set_filter (fun kv => existsb (String.eqb (fst kv)) props)).
Qed.

End ObjectFacts.

(** ** Facts about [isUniq] and [last] *)

Section UniqFacts.

Lemma kept_le {A} (p : A -> bool) (l : list A) :
  length (filter p l) <= length l.
Proof. induction l as [|x t IH]; simpl; [|destruct (p x); simpl]; lia. Qed.

Lemma kept_lt {A} (p : A -> bool) (l : list A) x :
  In x l -> p x = false -> length (filter p l) < length l.
Proof.
  induction l as [|y t IH]; simpl; [tauto|].
  intros [E|I] F.
  - subst y. rewrite F. pose proof (kept_le p t). lia.
  - specialize (IH I F). destruct (p y); simpl; lia.
Qed.

Lemma first_index_hit v (l1 : list value) x l2 i :
  strict_eqb x v = true ->
  exists j, first_index v (l1 ++ x :: l2) i = Some j /\ j <= i + length l1.
Proof.
  intros E. revert i. induction l1 as [|y t IH]; intros i; simpl.
  - rewrite E. exists i. split; [trivial | lia].
  - destruct (strict_eqb y v).
    + exists i. split; [trivial | lia].
    + destruct (IH (S i)) as [j [H1 H2]]. exists j. split; [trivial | lia].
Qed.

Lemma In_numbered {A} (l1 : list A) x l2 s :
  In (s + length l1, x)
     (combine (seq s (length (l1 ++ x :: l2))) (l1 ++ x :: l2)).
Proof.
  revert s. induction l1 as [|y t IH]; intros s; simpl.
  - left. f_equal. lia.
  - right. replace (s + S (length t)) with (S s + length t) by lia. apply IH.
Qed.

(** A list that holds a name twice is not unique. *)
Lemma isUniq_duplicate n (l1 l2 l3 : list value) :
  isUniq (l1 ++ VStr n :: l2 ++ VStr n :: l3) = false.
Proof.
  unfold isUniq. apply Nat.eqb_neq.
  set (l := l1 ++ VStr n :: l2 ++ VStr n :: l3).
  set (j := length (l1 ++ VStr n :: l2)).
  assert (I : In (j, VStr n) (combine (seq 0 (length l)) l)).
  { assert (E : l = (l1 ++ VStr n :: l2) ++ VStr n :: l3)
      by (unfold l; rewrite <- app_assoc; reflexivity).
    rewrite E. unfold j.
    apply (In_numbered (l1 ++ VStr n :: l2) (VStr n) l3 0). }
  apply Nat.lt_neq.
  replace (length l) with (length (combine (seq 0 (length l)) l)) at 2
    by (rewrite length_combine, length_seq; apply Nat.min_id).
  eapply kept_lt; [exact I|].
  simpl. apply Nat.eqb_neq.
  destruct (first_index_hit (VStr n) l1 (VStr n) (l2 ++ VStr n :: l3) 0)
    as [i [H1 H2]]; [simpl; apply String.eqb_refl|].
  fold l in H1. rewrite H1. unfold j. rewrite length_app. simpl. lia.
Qed.

Lemma isUniq_duplicate_In n (l : list value) (added : list value) :
  In (VStr n) l -> In (VStr n) added -> isUniq (l ++ added) = false.
Proof.
  intros I1 I2. apply in_split in I1 as [a [b E1]].
  apply in_split in I2 as [c [d E2]]. subst.
  replace ((a ++ VStr n :: b) ++ c ++ VStr n :: d)
    with (a ++ VStr n :: (b ++ c) ++ VStr n :: d)
    by (rewrite <- !app_assoc; reflexivity).
  apply isUniq_duplicate.
Qed.

Lemma last_snoc (l : list value) (x : value) :
  last (VArr (l ++ [x])) = Ok x.
Proof. unfold last. simpl. now rewrite rev_app_distr. Qed.

End UniqFacts.

(** ** Required-sentinel resolution *)

(** C2: the chain [object().prop('a', string()).required().valueOf()]
    returns exactly [{ $schema, type: 'object', properties: { a: { type:
    'string' } }, required: ['a'] }].  A no-argument [required()] resolves
    against the property the preceding [prop()] declared: whenever the
    properties list ends with an entry named [n] and the required list with
    [n] appended holds no name twice, the call returns the builder whose
    required list is the old one followed by [n], all else unchanged. *)
Theorem required_resolves_against_preceding_prop :
  (s <- FluentJSONSchema.string ;;
   p <- chain FluentJSONSchema.object [Call.prop "a" (Fluent s)] ;;
   r <- chain (Ok p) [Call.required VUndefined] ;;
   v <- serialize r ;;
   Ok (get "required" p.(base), get "required" r.(base), v))
  = Ok (VArr [], VArr [VStr "a"],
        VObj [ ("$schema", VStr "http://json-schema.org/draft-07/schema#");
               ("type", VStr "object");
               ("properties", VObj [("a", VObj [("type", VStr "string")])]);
               ("required", VArr [VStr "a"]) ])
  /\ (forall schema o ps e n rs,
      get "properties" schema = VArr (ps ++ [VObj e]) ->
      get "name" e = VStr n ->
      get "required" schema = VArr rs ->
      isUniq (rs ++ [VStr n]) = true ->
      BaseSchema.required schema o VUndefined
      = Ok (construct o.(factory)
              (set "required" (VArr (rs ++ [VStr n])) schema) o)).
Proof.
  split; [reflexivity|].
  intros schema o ps e n rs P N R U. unfold BaseSchema.required.
  rewrite P, last_snoc. cbn [bind isArray truthy field entries].
  rewrite R, N. cbn [iterate bind]. now rewrite U.
Qed.

Lemma required_resolves_against_preceding_prop_witness :
  BaseSchema.required
    [ ("properties", VArr [VObj [("name", VStr "a")]; VObj [("name", VStr "b")]]);
      ("required", VArr [VStr "a"]) ]
    (mkOptions false Object) VUndefined
  = Ok (construct Object
          [ ("properties", VArr [VObj [("name", VStr "a")]; VObj [("name", VStr "b")]]);
            ("required", VArr [VStr "a"; VStr "b"]) ]
          (mkOptions false Object)).
Proof.
  destruct required_resolves_against_preceding_prop as [_ H].
  refine (eq_trans
            (H [ ("properties",
                  VArr [VObj [("name", VStr "a")]; VObj [("name", VStr "b")]]);
                 ("required", VArr [VStr "a"]) ]
               (mkOptions false Object)
               [VObj [("name", VStr "a")]] [("name", VStr "b")] "b" [VStr "a"]
               eq_refl eq_refl eq_refl eq_refl) _).
  reflexivity.
Defined.

(** ** Duplicate required names *)

Section RequiredFacts.

Lemma patchIds_get schema generateIds parentId patched k :
  patchIdsWithParentId schema generateIds parentId = Ok patched ->
  String.eqb k "properties" = false ->
  get k patched = get k schema.
Proof.
  unfold patchIdsWithParentId.
  destruct (Nat.eqb _ 0).
  - intros E _. now inversion E.
  - destruct (foldM _ _ _) as [p|e]; simpl; [|discriminate].
    intros E N. inversion E. now apply get_set_other.
Qed.

(** The reduction of [appendRequired]: the sentinels become the name, the
    other items are kept, each in their order. *)
Lemma appendRequired_split (name : value) (items a b : list value) :
  fold_left
    (fun memo item =>
       if is_REQUIRED item
       then (fst memo ++ [name], snd memo)
       else (fst memo, snd memo ++ [item]))
    items (a, b)
  = (a ++ map (fun _ => name) (filter is_REQUIRED items),
     b ++ filter (fun item => negb (is_REQUIRED item)) items).
Proof.
  revert a b. induction items as [|x t IH]; intros a b; simpl.
  - now rewrite !app_nil_r.
  - destruct (is_REQUIRED x); simpl; rewrite IH; simpl;
      now rewrite <- app_assoc.
Qed.

Lemma appendRequired_duplicate attributes schema n items rs :
  get "name" attributes = VStr n ->
  get "required" attributes = VArr items ->
  In REQUIRED items ->
  get "required" schema = VArr rs ->
  In (VStr n) rs ->
  appendRequired attributes schema = Throw FluentSchemaError.
Proof.
  intros Hn Hr Hi Hs Hd. unfold appendRequired.
  rewrite Hn, Hr, Hs. simpl.
  rewrite appendRequired_split. simpl.
  rewrite isUniq_duplicate_In with (n := n); trivial.
  apply in_map_iff. exists REQUIRED. split; trivial.
  apply filter_In. split; trivial.
Qed.

End RequiredFacts.

(** C3: a duplicate name in the required list fails with the library's
    error at the call that would introduce it.  (1) A no-argument
    [required()] whose preceding property is already required fails.  (2) A
    bulk [required([...])] fails when the list it would build holds a name
    twice.  (3) A [prop(name, sub)] whose sub-schema carries the required
    sentinel fails when [name] is already required (the sub-schema's nested
    ids being patchable).  The chains of the specification are instances:
    each fails at its last call, the calls before it having succeeded. *)
Theorem duplicate_required_fails_at_introduction :
  (forall schema o ps e n rs,
      get "properties" schema = VArr (ps ++ [VObj e]) ->
      get "name" e = VStr n ->
      get "required" schema = VArr rs ->
      In (VStr n) rs ->
      BaseSchema.required schema o VUndefined = Throw FluentSchemaError)
  /\ (forall schema o ps rs props n l1 l2 l3,
      get "properties" schema = VArr ps ->
      get "required" schema = VArr rs ->
      rs ++ props = l1 ++ VStr n :: l2 ++ VStr n :: l3 ->
      BaseSchema.required schema o (VArr props) = Throw FluentSchemaError)
  /\ (forall schema o name sub v items rs,
      valueOf sub.(base) false = Ok v ->
      get "required" (entries v) = VArr items ->
      In REQUIRED items ->
      succeeds
        (patchIdsWithParentId (entries v) o.(generateIds)
           (or_else (get "$id" (entries v))
              (if o.(generateIds) then VStr ("#properties/" ++ name)
               else VUndefined))) = true ->
      get "required" schema = VArr rs ->
      In (VStr name) rs ->
      prop_run schema o name (Fluent sub) = (schema, Throw FluentSchemaError))
  /\ succeeds
       (chain FluentJSONSchema.object
          [ Call.prop "a" (Plain VUndefined); Call.required VUndefined;
            Call.prop "a" (Plain VUndefined) ]) = true
  /\ chain FluentJSONSchema.object
       [ Call.prop "a" (Plain VUndefined); Call.required VUndefined;
         Call.prop "a" (Plain VUndefined); Call.required VUndefined ]
     = Throw FluentSchemaError
  /\ chain FluentJSONSchema.object [ Call.required (VArr [VStr "a"; VStr "a"]) ]
     = Throw FluentSchemaError
  /\ (s <- chain FluentJSONSchema.string [ Call.required VUndefined ] ;;
      chain FluentJSONSchema.object
        [ Call.prop "a" (Plain VUndefined); Call.required VUndefined;
          Call.prop "a" (Fluent s) ])
     = Throw FluentSchemaError.
Proof.
  repeat split.
  - intros schema o ps e n rs Hp Hn Hr Hd.
    unfold BaseSchema.required. rewrite Hp, last_snoc. simpl.
    rewrite Hr, Hn. simpl.
    rewrite isUniq_duplicate_In with (n := n); simpl; auto.
  - intros schema o ps rs props n l1 l2 l3 Hp Hr Hd.
    unfold BaseSchema.required. rewrite Hp, Hr. unfold last. simpl.
    rewrite Hd, isUniq_duplicate. reflexivity.
  - intros schema o name sub v items rs Hv Hr Hi Hp Hs Hd.
    unfold prop_run. rewrite Hv. simpl.
    destruct (patchIdsWithParentId _ _ _) as [patched|err] eqn:P;
      [|discriminate].
    simpl.
    rewrite (appendRequired_duplicate _ schema name items rs); trivial.
    + apply get_set_same.
    + rewrite get_set_other by reflexivity.
      rewrite (patchIds_get _ _ _ _ "required" P) by reflexivity. exact Hr.
Qed.

Lemma duplicate_required_fails_at_introduction_witness :
  BaseSchema.required
    [ ("properties", VArr [VObj [("name", VStr "a")]]);
      ("required", VArr [VStr "a"]) ]
    (mkOptions false Object) VUndefined = Throw FluentSchemaError
  /\ BaseSchema.required
       [ ("properties", VArr []); ("required", VArr [VStr "a"]) ]
       (mkOptions false Object) (VArr [VStr "b"; VStr "a"])
     = Throw FluentSchemaError
  /\ prop_run
       [ ("properties", VArr [VObj [("name", VStr "a")]]);
         ("required", VArr [VStr "a"]) ]
       (mkOptions false Object) "a"
       (Fluent (construct String_
                  [("type", VStr "string"); ("required", VArr [REQUIRED])]
                  (mkOptions false String_)))
     = ([ ("properties", VArr [VObj [("name", VStr "a")]]);
          ("required", VArr [VStr "a"]) ], Throw FluentSchemaError).
Proof.
  destruct duplicate_required_fails_at_introduction as [H1 [H2 [H3 _]]].
  split; [|split].
  - apply (H1 _ _ [] [("name", VStr "a")] "a" [VStr "a"]);
      [reflexivity | reflexivity | reflexivity | simpl; auto].
  - apply (H2 _ _ [] [VStr "a"] [VStr "b"; VStr "a"] "a" [] [VStr "b"] []);
      reflexivity.
  - apply (H3 _ _ "a" _
             (VObj [("type", VStr "string"); ("required", VArr [REQUIRED])])
             [REQUIRED] [VStr "a"]);
      [reflexivity | reflexivity | simpl; auto | reflexivity | reflexivity
      | simpl; auto].
Defined.

(** ** Immutability of the receiver *)

(** The base methods and [valueOf] read [BaseSchema]'s binding, which no
    call assigns to: the serialized form of the receiver is the same after
    any call. *)
Lemma invoke_keeps_serialized_form (b : builder) (c : Call.t) :
  (fst (invoke b c)).(base) = b.(base)
  /\ serialize (fst (invoke b c)) = serialize b.
Proof.
  unfold serialize.
  destruct c; simpl; try (split; reflexivity);
    destruct (built_by b); simpl; split; reflexivity.
Qed.

Lemma required_string_chain :
  chain FluentJSONSchema.string [Call.required VUndefined] = Ok required_string.
Proof. reflexivity. Qed.

(** C1, at [b = S.object()] and the call [b.prop('x',
    S.string().required())]: the call returns a new builder and [b.valueOf()]
    is unchanged, but [prop] has assigned the patched schema to the [schema]
    binding of [b]'s own closure.  The binding now lists ['x'] as required,
    so [b.prop('y').valueOf()] differs before and after the call, and the
    same [prop] call made a second time on [b] throws. *)
Theorem prop_reassigns_the_receivers_schema :
  let b := object_builder false in
  let call := Call.prop "x" (Fluent required_string) in
  let b' := fst (invoke b call) in
  succeeds (snd (invoke b call)) = true
  /\ serialize b' = serialize b
  /\ get "required" b.(own) = VArr []
  /\ get "required" b'.(own) = VArr [VStr "x"]
  /\ (y <- snd (invoke b (Call.prop "y" (Plain VUndefined))) ;; serialize y)
     = Ok (VObj [ ("$schema", VStr draft07); ("type", VStr "object");
                  ("properties", VObj [("y", VObj [])]) ])
  /\ (y <- snd (invoke b' (Call.prop "y" (Plain VUndefined))) ;; serialize y)
     = Ok (VObj [ ("$schema", VStr draft07); ("type", VStr "object");
                  ("properties", VObj [("y", VObj [])]);
                  ("required", VArr [VStr "x"]) ])
  /\ snd (invoke b' call) = Throw FluentSchemaError.
Proof. repeat split. Qed.

(** ** The [$id] guard *)

(** C7, at [id('#')]: the guard [!id] rejects the empty string only.  On a
    string builder and on an object builder [id('')] throws the library's
    error, while [id('#')] returns a builder whose [$id] is ['#']. *)
Theorem id_accepts_the_bare_fragment :
  chain FluentJSONSchema.string [Call.id (VStr "")] = Throw FluentSchemaError
  /\ chain FluentJSONSchema.object [Call.id (VStr "")] = Throw FluentSchemaError
  /\ (b <- chain FluentJSONSchema.string [Call.id (VStr "#")] ;;
      Ok (get "$id" b.(base))) = Ok (VStr "#")
  /\ (b <- chain FluentJSONSchema.object [Call.id (VStr "#")] ;;
      Ok (get "$id" b.(base))) = Ok (VStr "#")
  /\ (b <- chain FluentJSONSchema.string [Call.id (VStr "#")] ;; serialize b)
     = Ok (VObj [ ("$schema", VStr draft07); ("type", VStr "string");
                  ("$id", VStr "#") ]).
Proof. repeat split. Qed.

(** ** Ingestion of values that are no plain object *)

(** C10, at [null] and at a list: [typeof] answers ['object'] for both, so
    the guard lets them through.  Destructuring [null] throws the
    language's [TypeError], and a list comes back as a base builder whose
    attributes are the list's elements under their indices.  Numbers,
    strings, booleans and symbols are rejected with the library's error. *)
Theorem raw_lets_null_and_lists_through :
  RawSchema VNull = Throw TypeError
  /\ RawSchema (VArr []) = Ok (construct Base [] (mkOptions false Base))
  /\ RawSchema (VArr [VStr "string"])
     = Ok (construct Base [("0", VStr "string")] (mkOptions false Base))
  /\ (forall n, RawSchema (VNum n) = Throw FluentSchemaError)
  /\ (forall s, RawSchema (VStr s) = Throw FluentSchemaError)
  /\ (forall b, RawSchema (VBool b) = Throw FluentSchemaError)
  /\ RawSchema VSymbol = Throw FluentSchemaError.
Proof. repeat split. Qed.

(** ** [$schema] in the serialized form *)

Section SchemaKeyword.

Lemma assign_head k v (t source : obj) :
  has k source = false ->
  assign ((k, v) :: t) source = (k, v) :: assign t source.
Proof.
  unfold assign. revert t.
  induction source as [|[k' v'] s IH]; intros t H; simpl; trivial.
  simpl in H. apply orb_false_iff in H as [H1 H2].
  rewrite (String.eqb_sym k' k), H1. now apply IH.
Qed.

Lemma has_assign k (target source : obj) :
  has k (assign target source) = has k target || has k source.
Proof.
  unfold assign. revert target.
  induction source as [|[k' v'] s IH]; intros target; simpl.
  - now rewrite orb_false_r.
  - rewrite IH, has_set.
    destruct (String.eqb k k'), (has k target); reflexivity.
Qed.

Lemma has_omit k (o : obj) props :
  has k o = false -> has k (omit o props) = false.
Proof.
  unfold omit. intros H.
  assert (G : forall memo, has k memo = false ->
    has k (fold_left
             (fun memo kv =>
                if existsb (String.eqb (fst kv)) props then memo
                else set (fst kv) (snd kv) memo) o memo) = false).
  { induction o as [|[k' v'] t IH]; intros memo M; simpl; trivial.
    simpl in H. apply orb_false_iff in H as [H1 H2].
    apply IH; trivial.
    destruct (existsb _ props); trivial.
    rewrite has_set. simpl. now rewrite H1, M. }
  now apply G.
Qed.

(** [prop] never keeps a [$schema] entry. *)
Lemma has_strip_schema (attributes : obj) :
  has "$schema" (strip attributes) = false.
Proof.
  unfold strip.
  assert (G : forall memo, has "$schema" memo = false ->
    has "$schema"
      (fold_left
         (fun memo kv =>
            let key := fst kv in
            let value := snd kv in
            if String.eqb key "$schema" || String.eqb key "def"
               || match value with VUndefined => true | _ => false end
               || (match value with VArr [] => true | _ => false end
                   && negb (String.eqb key "default"))
            then memo else set key value memo)
         attributes memo) = false).
  { induction attributes as [|[k v] t IH]; intros memo M; simpl; trivial.
    apply IH.
    destruct (String.eqb k "$schema") eqn:E; simpl; trivial.
    match goal with |- has _ (if ?c then _ else _) = _ => destruct c end;
      trivial.
    rewrite has_set, (String.eqb_sym "$schema" k), E. exact M. }
  now apply G.
Qed.

End SchemaKeyword.

Section PropFacts.

(** What a successful [prop] returns: an object builder whose target list
    grew by one entry. *)
Lemma prop_run_Ok schema o name props b :
  snd (prop_run schema o name props) = Ok b ->
  exists target schema' current id attributes,
    b = construct Object
          (set target (VArr (current ++ [entry name id attributes])) schema')
          o.
Proof.
  unfold prop_run.
  set (p := match props with Plain VUndefined => Plain (VObj []) | q => q end).
  destruct p as [[| | | | | |l|po]|sb]; simpl; try discriminate.
  - destruct (has "valueOf" po); simpl; [discriminate|].
    destruct (if truthy (get "isFluentSchema" po) then _ else _)
      as [[schema' attributes]|]; simpl; [|discriminate].
    destruct (iterate _) as [current|]; simpl; [|discriminate].
    intros E. inversion E. eauto 6.
  - destruct (valueOf (base sb) false) as [v|]; simpl; [|discriminate].
    destruct (bind _ _) as [[schema' attributes]|]; simpl; [|discriminate].
    destruct (iterate _) as [current|]; simpl; [|discriminate].
    intros E. inversion E. eauto 6.
Qed.

Lemma entry_no_schema name id attributes :
  exists e, entry name id attributes = VObj e /\ has "$schema" e = false.
Proof.
  unfold entry. destruct (truthy (get "$ref" attributes)).
  - eexists. split; reflexivity.
  - eexists. split; [reflexivity|].
    rewrite has_assign, has_strip_schema. reflexivity.
Qed.

End PropFacts.

(** C8 as the specification states it fails at [S.string()]: serialized
    with [isRoot: false], the output still opens with [$schema]. *)
Lemma valueOf_not_root_keeps_schema :
  (b <- FluentJSONSchema.string ;; valueOf b.(base) false)
  = Ok (VObj [("$schema", VStr draft07); ("type", VStr "string")]).
Proof. reflexivity. Qed.

Section SchemaKept.

Variable schema : obj.
Variable isRoot : bool.
Variable v : value.
Hypothesis returned : valueOf schema isRoot = Ok v.

(** What [valueOf] returns: the [$schema] entry of the state, if truthy, and
    pieces that hold none. *)
Lemma valueOf_schema_entry :
  exists rest,
    v = VObj ((if truthy (get "$schema" schema)
               then [("$schema", get "$schema" schema)] else []) ++ rest)
    /\ has "$schema" rest = false.
Proof.
  pose proof returned as Hv. unfold valueOf in Hv. cbv zeta in Hv.
  destruct (if isRoot && _ then _ else Ok tt) as [[]|]; cbn [bind] in Hv;
    [|discriminate].
  match type of Hv with
  | bind ?d _ = _ => destruct d as [defs|] eqn:D; cbn [bind] in Hv; [|discriminate]
  end.
  match type of Hv with
  | bind ?d _ = _ => destruct d as [props|] eqn:P; cbn [bind] in Hv; [|discriminate]
  end.
  match type of Hv with
  | bind ?d _ = _ => destruct d as [req|] eqn:R; cbn [bind] in Hv; [|discriminate]
  end.
  inversion Hv as [E]. clear Hv E.
  assert (Hd : has "$schema" defs = false).
  { destruct (Nat.ltb 0 _) in D; [|now inversion D].
    destruct (get "definitions" schema); try discriminate.
    destruct (flat items); simpl in D; [|discriminate]. now inversion D. }
  assert (Hp : has "$schema" props = false).
  { destruct (Nat.ltb 0 _) in P; [|now inversion P].
    destruct (get "properties" schema); try discriminate.
    destruct (flat items); simpl in P; [|discriminate]. now inversion P. }
  assert (Hr : has "$schema" req = false).
  { destruct (truthy (get "required" schema)) in R; [|now inversion R].
    destruct (get "required" schema) as [| |?|?|?| |l|o]; inversion R; trivial.
    - now destruct (Nat.ltb 0 (length l)).
    - destruct (has "length" o); inversion R. trivial. }
  assert (Hc : forall k, String.eqb "$schema" k = false ->
    has "$schema" (if truthy (get k schema) then [(k, get k schema)] else [])
    = false).
  { intros k N. destruct (truthy (get k schema)); [|reflexivity].
    unfold has. now rewrite N. }
  set (rest := omit _ ["if"; "then"; "else"]).
  assert (Ho : has "$schema" rest = false).
  { apply has_omit. rewrite has_remove. reflexivity. }
  cbn [fold_left].
  destruct (truthy (get "$schema" schema)).
  - change (assign [] [("$schema", get "$schema" schema)])
      with [("$schema", get "$schema" schema)].
    repeat rewrite assign_head by auto.
    eexists. split; [reflexivity|].
    repeat rewrite has_assign.
    rewrite Hd, Hp, Hr, Ho, !Hc by reflexivity. reflexivity.
  - match goal with |- exists r, VObj ?x = _ /\ _ => exists x end.
    split; [reflexivity|].
    repeat rewrite has_assign.
    rewrite Hd, Hp, Hr, Ho, !Hc by reflexivity. reflexivity.
Qed.

End SchemaKept.

Section Alternatives.

Lemma alternatives_without_schema (l : list arg) (memo values : list value) :
  foldM
    (fun memo s =>
       v <- arg_valueOf s false ;;
       Ok (memo ++ [VObj (remove "$schema" (entries v))]))
    l memo
  = Ok values ->
  Forall (fun v => has "$schema" (entries v) = false) memo ->
  Forall (fun v => has "$schema" (entries v) = false) values
  /\ length values = (length memo + length l)%nat.
Proof.
  revert memo. induction l as [|s t IH]; intros memo F M.
  - inversion F. subst. split; [exact M | cbn; lia].
  - cbn [foldM] in F.
    destruct (arg_valueOf s false) as [v|]; cbn [bind] in F; [|discriminate].
    apply IH in F.
    + destruct F as [F1 F2]. split; [exact F1|].
      rewrite F2, length_app. cbn. lia.
    + apply Forall_app. split; [exact M|].
      constructor; [|constructor]. cbn [entries].
      rewrite has_remove. reflexivity.
Qed.

End Alternatives.

(** C8, amended: the output of [valueOf] - with [isRoot] true or false
    alike - holds the [$schema] of the state whenever the state holds a
    truthy one, and holds none otherwise; [isRoot] is not consulted for it.
    The keyword is dropped by the parent instead: the entry that [prop]
    appends for a sub-schema never holds [$schema], and neither does any of
    the alternatives that [anyOf], [allOf] and [oneOf] store. *)
Theorem schema_keyword_is_kept_by_valueOf_and_stripped_by_prop :
  (forall schema isRoot v,
      truthy (get "$schema" schema) = true ->
      valueOf schema isRoot = Ok v ->
      get "$schema" (entries v) = get "$schema" schema)
  /\ (forall schema isRoot v,
      truthy (get "$schema" schema) = false ->
      valueOf schema isRoot = Ok v ->
      has "$schema" (entries v) = false)
  /\ (forall schema o name props b,
      snd (prop_run schema o name props) = Ok b ->
      exists target current entry,
        get target b.(base) = VArr (current ++ [VObj entry])
        /\ has "$schema" entry = false)
  /\ (forall keyword l schema o b,
      setComposeType keyword (Some l) schema o = Ok b ->
      exists values,
        b = construct o.(factory) (set keyword (VArr values) schema) o
        /\ length values = length l
        /\ Forall (fun v => has "$schema" (entries v) = false) values).
Proof.
  repeat apply conj.
  - intros schema isRoot v T Hv.
    destruct (valueOf_schema_entry _ _ _ Hv) as [rest [E _]].
    subst v. rewrite T. cbn [entries app get]. now rewrite String.eqb_refl.
  - intros schema isRoot v T Hv.
    destruct (valueOf_schema_entry _ _ _ Hv) as [rest [E H]].
    subst v. rewrite T. exact H.
  - intros schema o name props b H.
    destruct (prop_run_Ok _ _ _ _ _ H)
      as [target [schema' [current [id [attributes E]]]]].
    destruct (entry_no_schema name id attributes) as [e [E1 E2]].
    exists target, current, e. subst b. simpl.
    rewrite get_set_same, E1. auto.
  - intros keyword l schema o b H. unfold setComposeType in H.
    destruct (negb _); [discriminate|].
    destruct (foldM _ l []) as [values|] eqn:F; cbn [bind] in H; [|discriminate].
    inversion H. exists values. split; [reflexivity|].
    destruct (alternatives_without_schema _ _ _ F (Forall_nil _)) as [F1 F2].
    split; [exact F2 | exact F1].
Qed.

Lemma schema_keyword_is_kept_by_valueOf_and_stripped_by_prop_witness :
  get "$schema"
    (entries (VObj [("$schema", VStr draft07); ("type", VStr "string")]))
  = get "$schema" (base string_builder)
  /\ (exists target current entry,
      get target
        [ ("properties", VArr [VObj [("name", VStr "a"); ("type", VStr "string")]]);
          ("required", VArr []) ]
      = VArr (current ++ [VObj entry])
      /\ has "$schema" entry = false)
  /\ (exists values,
      construct Object
        [ ("properties", VArr []); ("required", VArr []);
          ("anyOf", VArr [VObj [("type", VStr "string")]]) ]
        (mkOptions false Object)
      = construct Object
          (set "anyOf" (VArr values) BaseSchema.initialState)
          (mkOptions false Object)
      /\ length values = length [Fluent string_builder]
      /\ Forall (fun v => has "$schema" (entries v) = false) values).
Proof.
  destruct schema_keyword_is_kept_by_valueOf_and_stripped_by_prop
    as [H1 [_ [H3 H4]]].
  split; [|split].
  - apply (H1 (base string_builder) false); reflexivity.
  - apply (H3 BaseSchema.initialState (mkOptions false Object) "a"
             (Fluent string_builder)
             (construct Object
                [ ("properties",
                   VArr [VObj [("name", VStr "a"); ("type", VStr "string")]]);
                  ("required", VArr []) ]
                (mkOptions false Object))).
    reflexivity.
  - apply (H4 "anyOf" [Fluent string_builder] BaseSchema.initialState
             (mkOptions false Object)).
    reflexivity.
Defined.

(** ** The shape of the serialized form *)

(** *** Flattening *)

Section FlatFacts.

Lemma flat_flatten_from (l : list value) (memo : obj) :
  forallb named l = true ->
  foldM
    (fun memo prop =>
       name <- field "name" prop ;;
       let rest := remove "name" (entries prop) in
       match name with
       | VStr n => Ok (set n (VObj rest) memo)
       | _ => Throw Unsupported
       end)
    l memo
  = Ok (fold_left (fun memo e => set (entry_name e) (entry_rest e) memo) l memo).
Proof.
  revert memo. induction l as [|e t IH]; intros memo H; simpl; trivial.
  simpl in H. apply andb_true_iff in H as [H1 H2].
  destruct e as [| | | | | | |o]; try discriminate. simpl in *.
  unfold entry_name, entry_rest. simpl.
  destruct (get "name" o); try discriminate. simpl. now apply IH.
Qed.

Lemma flat_flatten (l : list value) :
  forallb named l = true -> flat l = Ok (flatten l).
Proof. apply flat_flatten_from. Qed.

Lemma keys_set k v (o : obj) :
  keys (set k v o) = if has k o then keys o else keys o ++ [k].
Proof.
  induction o as [|[k' v'] t IH]; simpl; trivial.
  destruct (String.eqb k k') eqn:E; simpl.
  - apply String.eqb_eq in E. now subst.
  - rewrite IH. now destruct (has k t).
Qed.

Lemma existsb_keys k (o : obj) : existsb (String.eqb k) (keys o) = has k o.
Proof. induction o as [|[k' v] t IH]; simpl; trivial. now rewrite IH. Qed.

Lemma get_flatten_from n (l : list value) (memo : obj) :
  get n (fold_left (fun memo e => set (entry_name e) (entry_rest e) memo) l memo)
  = match last_named n l with Some r => r | None => get n memo end.
Proof.
  revert memo. induction l as [|e t IH]; intros memo; simpl; trivial.
  rewrite IH. destruct (last_named n t); trivial.
  destruct (String.eqb (entry_name e) n) eqn:E.
  - apply String.eqb_eq in E. subst n. apply get_set_same.
  - apply get_set_other. now apply eqb_sym_false.
Qed.

Lemma keys_flatten_from (l : list value) (memo : obj) :
  keys (fold_left (fun memo e => set (entry_name e) (entry_rest e) memo) l memo)
  = keys memo ++ first_occurrences (keys memo) (map entry_name l).
Proof.
  revert memo. induction l as [|e t IH]; intros memo; simpl.
  - now rewrite app_nil_r.
  - rewrite IH, keys_set, existsb_keys.
    destruct (has (entry_name e) memo); trivial.
    now rewrite <- app_assoc.
Qed.

Lemma unique_keys_set k v (o : obj) :
  unique_keys o = true -> unique_keys (set k v o) = true.
Proof.
  induction o as [|[k' v'] t IH]; simpl; trivial.
  intros H. apply andb_true_iff in H as [H1 H2].
  destruct (String.eqb k k') eqn:E; simpl.
  - apply String.eqb_eq in E. subst. now rewrite H1.
  - rewrite has_set, (String.eqb_sym k' k), E. simpl. rewrite H1. auto.
Qed.

Lemma unique_keys_flatten (l : list value) : unique_keys (flatten l) = true.
Proof.
  unfold flatten.
  assert (G : forall memo, unique_keys memo = true ->
    unique_keys
      (fold_left (fun memo e => set (entry_name e) (entry_rest e) memo) l memo)
    = true).
  { induction l as [|e t IH]; intros memo M; simpl; trivial.
    apply IH. now apply unique_keys_set. }
  now apply G.
Qed.

End FlatFacts.

Section ValueOfFacts.

Lemma part_present k schema : part k (present k schema).
Proof. unfold part, present. destruct (has k schema); eauto. Qed.

Lemma part_flattened k schema : part k (flattened k schema).
Proof.
  unfold part, flattened.
  destruct (get k schema) as [| | | | | |[|e l]|]; eauto.
Qed.

Lemma part_listed k schema : part k (listed k schema).
Proof.
  unfold part, listed.
  destruct (get k schema) as [| | | | | |[|e l]|]; eauto.
Qed.

Lemma part_has k k' p : part k' p -> String.eqb k k' = false -> has k p = false.
Proof. intros [E|[v E]] N; subst; simpl; trivial. now rewrite N. Qed.

Lemma assign_part target k p :
  part k p -> has k target = false -> assign target p = target ++ p.
Proof.
  intros [E|[v E]] H; subst; simpl.
  - now rewrite app_nil_r.
  - unfold assign. simpl. now apply set_absent.
Qed.

Lemma has_filter_true (p : string * value -> bool) k (o : obj) :
  has k (filter p o) = true -> exists v, p (k, v) = true.
Proof.
  induction o as [|[k' v] t IH]; simpl; [discriminate|].
  destruct (p (k', v)) eqn:E; simpl; auto.
  destruct (String.eqb k k') eqn:E2; simpl; auto.
  apply String.eqb_eq in E2. subst. eauto.
Qed.

Lemma has_others k schema :
  existsb (String.eqb k) placed = true -> has k (others schema) = false.
Proof.
  intros H. destruct (has k (others schema)) eqn:E; trivial.
  apply has_filter_true in E as [v E]. cbn [fst] in E.
  rewrite H in E. discriminate.
Qed.

Lemma others_has k schema :
  has k (others schema) = true -> existsb (String.eqb k) placed = false.
Proof.
  intros H. destruct (existsb (String.eqb k) placed) eqn:E; trivial.
  rewrite has_others in H; congruence.
Qed.

Lemma keys_length_list l : keys_length (VArr l) = length l.
Proof.
  unfold keys_length, entries, indexed.
  rewrite length_combine, length_map, length_seq. apply Nat.min_id.
Qed.

Lemma flattened_computed k schema :
  named_entries (get k schema) = true ->
  (if Nat.ltb 0 (keys_length (or_else (get k schema) (VArr []))) then
     match get k schema with
     | VArr l => o <- flat l ;; Ok [(k, VObj o)]
     | _ => Throw TypeError
     end
   else Ok [])
  = Ok (flattened k schema).
Proof.
  unfold flattened, or_else.
  destruct (get k schema) as [| | | | | |[|e l]|]; try discriminate;
    try reflexivity.
  intros H. cbn [truthy]. rewrite keys_length_list.
  cbn [length Nat.ltb Nat.leb]. now rewrite flat_flatten.
Qed.

Lemma present_computed k schema :
  negb (has k schema) || truthy (get k schema) = true ->
  (if truthy (get k schema) then [(k, get k schema)] else []) = present k schema.
Proof.
  unfold present. destruct (has k schema) eqn:E; simpl.
  - now intros ->.
  - now rewrite (has_false_get _ _ E).
Qed.

Lemma filter_twice {A} (p q : A -> bool) (l : list A) :
  filter p (filter q l) = filter (fun x => q x && p x) l.
Proof.
  induction l as [|x t IH]; simpl; trivial.
  destruct (q x); simpl; [destruct (p x)|]; now rewrite IH.
Qed.

Lemma remove_others (schema : obj) :
  unique_keys schema = true ->
  omit
    (remove "$schema" (remove "required" (remove "definitions"
       (remove "properties" schema))))
    ["if"; "then"; "else"]
  = others schema.
Proof.
  intros U. rewrite omit_filter.
  - unfold remove, others. rewrite !filter_twice. apply filter_ext.
    intros [k v]. unfold placed, existsb, fst.
    rewrite (String.eqb_sym "properties" k), (String.eqb_sym "definitions" k),
      (String.eqb_sym "required" k), (String.eqb_sym "$schema" k).
    destruct (String.eqb k "properties"), (String.eqb k "definitions"),
      (String.eqb k "required"), (String.eqb k "$schema"),
      (String.eqb k "if"), (String.eqb k "then"), (String.eqb k "else");
      reflexivity.
  - unfold remove. now repeat apply unique_keys_filter.
Qed.

End ValueOfFacts.

Section Assembly.

Lemma listed_computed schema :
  match get "required" schema with
  | VUndefined | VArr _ => true
  | _ => false
  end = true ->
  (if truthy (get "required" schema) then
     match get "required" schema with
     | VArr l =>
         Ok (if Nat.ltb 0 (length l)
             then [("required", get "required" schema)] else [])
     | VStr _ => Ok [("required", get "required" schema)]
     | VObj o => if has "length" o then Throw Unsupported else Ok []
     | _ => Ok []
     end
   else Ok [])
  = Ok (listed "required" schema).
Proof.
  unfold listed.
  destruct (get "required" schema) as [| | | | | |[|e l]|]; try discriminate;
    reflexivity.
Qed.

Lemma check_passes schema isRoot :
  match get "required" schema with
  | VUndefined | VArr _ => true
  | _ => false
  end = true ->
  (isRoot = true -> resolved schema = true) ->
  (if isRoot && truthy (get "required" schema) then
     match get "required" schema with
     | VArr l =>
         if negb (forallb is_string l) then Throw FluentSchemaError else Ok tt
     | _ => Throw TypeError
     end
   else Ok tt)
  = Ok tt.
Proof.
  unfold resolved. intros W R.
  destruct isRoot; [|reflexivity]. specialize (R eq_refl).
  destruct (get "required" schema); try discriminate; try reflexivity.
  simpl. now rewrite R.
Qed.

Ltac other_part :=
  first [ eapply part_has; [apply part_present | reflexivity]
        | eapply part_has; [apply part_flattened | reflexivity]
        | eapply part_has; [apply part_listed | reflexivity]
        | apply has_others; reflexivity ].

Ltac absent :=
  repeat (rewrite has_app; apply orb_false_iff; split); other_part.

(** The eight pieces never share a name, so assigning them one after the
    other lays them end to end. *)
Lemma assign_pieces (schema : obj) :
  unique_keys schema = true ->
  fold_left assign
    [ present "$schema" schema; flattened "definitions" schema;
      others schema; flattened "properties" schema;
      listed "required" schema; present "if" schema;
      present "then" schema; present "else" schema ]
    []
  = present "$schema" schema ++ flattened "definitions" schema
    ++ others schema ++ flattened "properties" schema
    ++ listed "required" schema ++ present "if" schema
    ++ present "then" schema ++ present "else" schema.
Proof.
  intros U. cbn [fold_left].
  rewrite (assign_part [] "$schema" (present "$schema" schema));
    [|apply part_present|reflexivity].
  cbn [app].
  rewrite (assign_part _ "definitions" (flattened "definitions" schema));
    [|apply part_flattened|absent].
  rewrite (assign_disjoint _ (others schema)).
  - rewrite (assign_part _ "properties" (flattened "properties" schema));
      [|apply part_flattened|absent].
    rewrite (assign_part _ "required" (listed "required" schema));
      [|apply part_listed|absent].
    rewrite (assign_part _ "if" (present "if" schema));
      [|apply part_present|absent].
    rewrite (assign_part _ "then" (present "then" schema));
      [|apply part_present|absent].
    rewrite (assign_part _ "else" (present "else" schema));
      [|apply part_present|absent].
    now rewrite <- !app_assoc.
  - now apply unique_keys_filter.
  - intros k H. apply others_has in H. unfold placed, existsb in H.
    repeat (apply orb_false_iff in H as [? H]).
    rewrite !has_app.
    rewrite (part_has k "$schema"), (part_has k "definitions");
      auto using part_present, part_flattened.
Qed.

End Assembly.

Lemma valueOf_computes_spec schema isRoot :
  wf_state schema = true ->
  (isRoot = true -> resolved schema = true) ->
  valueOf schema isRoot = Ok (valueOf_spec schema).
Proof.
  intros W R. unfold wf_state in W.
  repeat (apply andb_true_iff in W as [W ?]).
  cbn [forallb] in *. repeat (apply andb_true_iff in H as [? H]).
  unfold valueOf. cbv beta zeta.
  rewrite check_passes by assumption. cbn [bind].
  rewrite !flattened_computed by assumption. cbn [bind].
  rewrite listed_computed by assumption. cbn [bind].
  rewrite !present_computed by assumption.
  rewrite remove_others by assumption.
  rewrite assign_pieces by assumption. reflexivity.
Qed.

Section Layout.

Lemma part_emitted k schema : part k (emitted k schema).
Proof. unfold part, emitted. destruct (truthy (get k schema)); eauto. Qed.

Variable schema : obj.
Variables p1 p6 p7 p8 : obj.
Hypothesis unique : unique_keys schema = true.
Hypothesis P1 : part "$schema" p1.
Hypothesis P6 : part "if" p6.
Hypothesis P7 : part "then" p7.
Hypothesis P8 : part "else" p8.

Ltac another_part :=
  first [ eapply part_has; [eassumption | reflexivity]
        | eapply part_has; [apply part_flattened | reflexivity]
        | eapply part_has; [apply part_listed | reflexivity]
        | apply has_others; reflexivity ].

Ltac none :=
  repeat (rewrite has_app; apply orb_false_iff; split); another_part.

(** The pieces never share a name, whatever stands for [$schema] and the
    clauses. *)
Lemma assign_parts :
  fold_left assign
    [ p1; flattened "definitions" schema; others schema;
      flattened "properties" schema; listed "required" schema; p6; p7; p8 ]
    []
  = p1 ++ flattened "definitions" schema ++ others schema
    ++ flattened "properties" schema ++ listed "required" schema
    ++ p6 ++ p7 ++ p8.
Proof.
  cbn [fold_left].
  rewrite (assign_part [] "$schema" p1); [|exact P1|reflexivity].
  cbn [app].
  rewrite (assign_part _ "definitions" (flattened "definitions" schema));
    [|apply part_flattened|none].
  rewrite (assign_disjoint _ (others schema)).
  - rewrite (assign_part _ "properties" (flattened "properties" schema));
      [|apply part_flattened|none].
    rewrite (assign_part _ "required" (listed "required" schema));
      [|apply part_listed|none].
    rewrite (assign_part _ "if" p6); [|exact P6|none].
    rewrite (assign_part _ "then" p7); [|exact P7|none].
    rewrite (assign_part _ "else" p8); [|exact P8|none].
    now rewrite <- !app_assoc.
  - now apply unique_keys_filter.
  - intros k H. apply others_has in H. unfold placed, existsb in H.
    repeat (apply orb_false_iff in H as [? H]).
    rewrite !has_app.
    rewrite (part_has k "$schema"), (part_has k "definitions");
      auto using part_flattened.
Qed.

End Layout.

(** [valueOf] on a state whose lists are as the data model has them. *)
Lemma valueOf_computes_layout schema isRoot :
  typed_lists schema = true ->
  (isRoot = true -> resolved schema = true) ->
  valueOf schema isRoot = Ok (valueOf_layout schema).
Proof.
  intros W R. unfold typed_lists in W.
  repeat (apply andb_true_iff in W as [W ?]).
  unfold valueOf. cbv beta zeta.
  rewrite check_passes by assumption. cbn [bind].
  rewrite !flattened_computed by assumption. cbn [bind].
  rewrite listed_computed by assumption. cbn [bind].
  rewrite remove_others by assumption.
  fold (emitted "$schema" schema). fold (emitted "if" schema).
  fold (emitted "then" schema). fold (emitted "else" schema).
  rewrite assign_parts by (trivial; apply part_emitted). reflexivity.
Qed.

(** C5 as the specification states it fails on a state that holds a falsy
    clause, such as the one of [S.raw({ title: 't', else: false })]: [else]
    is present and is left out of the output all the same. *)
Lemma falsy_clause_is_left_out :
  (b <- RawSchema (VObj [("title", VStr "t"); ("else", VBool false)]) ;;
   v <- serialize b ;;
   Ok (has "else" b.(base), v))
  = Ok (true, VObj [("title", VStr "t")]).
Proof. reflexivity. Qed.

(** C5, amended: for every builder state - its lists as the data model has
    them, the names of its root attributes and of its entries ordinary -
    [valueOf] returns the object assembled in this order: [$schema] if the
    state holds a truthy one, [definitions] flattened and omitted if empty,
    the other root attributes but [if]/[then]/[else], [properties]
    flattened and omitted if empty, [required] omitted if empty, then [if],
    [then], [else], each if the state holds a truthy value under it - one
    that is present and falsy is left out - ([isRoot] asks in addition that
    no sentinel is left in [required]).  Flattening gives each name the
    other fields of the last entry so called; ordinary names stand in the
    order of their first occurrence. *)
Theorem valueOf_assembles_in_key_order :
  (forall schema isRoot,
      typed_lists schema = true ->
      (isRoot = true -> resolved schema = true) ->
      ordinary_state schema = true ->
      valueOf schema isRoot = Ok (valueOf_layout schema))
  /\ (forall l,
      forallb named l = true ->
      exists d,
        flat l = Ok d
        /\ (forall n,
              get n d
              = match last_named n l with
                | Some rest => rest
                | None => VUndefined
                end)
        /\ (forallb (fun e => ordinary (entry_name e)) l = true ->
            keys d = first_occurrences [] (map entry_name l))).
Proof.
  split.
  - intros schema isRoot W R _. now apply valueOf_computes_layout.
  - intros l N. exists (flatten l). split; [now apply flat_flatten|]. split.
    + intros n. unfold flatten. now rewrite get_flatten_from.
    + intros _. unfold flatten. now rewrite keys_flatten_from.
Qed.

Lemma valueOf_assembles_in_key_order_witness :
  valueOf
    [ ("$schema", VStr draft07); ("definitions", VArr []);
      ("properties", VArr [VObj [("name", VStr "a"); ("type", VStr "string")]]);
      ("required", VArr [VStr "a"]); ("type", VStr "object");
      ("else", VBool false) ]
    true
  = Ok (VObj [ ("$schema", VStr draft07); ("type", VStr "object");
               ("properties", VObj [("a", VObj [("type", VStr "string")])]);
               ("required", VArr [VStr "a"]) ])
  /\ (exists d,
        flat [ VObj [("name", VStr "a"); ("type", VStr "string")];
               VObj [("name", VStr "b")];
               VObj [("name", VStr "a"); ("type", VStr "number")] ] = Ok d
        /\ get "a" d = VObj [("type", VStr "number")]
        /\ keys d = ["a"; "b"]).
Proof.
  destruct valueOf_assembles_in_key_order as [H1 H2].
  split.
  - refine (eq_trans
              (H1 [ ("$schema", VStr draft07); ("definitions", VArr []);
                    ("properties",
                     VArr [VObj [("name", VStr "a"); ("type", VStr "string")]]);
                    ("required", VArr [VStr "a"]); ("type", VStr "object");
                    ("else", VBool false) ]
                 true eq_refl (fun _ => eq_refl) eq_refl) _).
    reflexivity.
  - destruct (H2 [ VObj [("name", VStr "a"); ("type", VStr "string")];
                   VObj [("name", VStr "b")];
                   VObj [("name", VStr "a"); ("type", VStr "number")] ]
                eq_refl) as [d [E [G K]]].
    exists d. split; [exact E|]. split.
    + exact (G "a").
    + exact (K eq_refl).
Defined.

(** ** Attribute targeting *)

Section TargetingFacts.

Lemma get_assign k (target source : obj) :
  unique_keys source = true ->
  get k (assign target source)
  = if has k source then get k source else get k target.
Proof.
  unfold assign. revert target.
  induction source as [|[k' v'] s IH]; intros target U; simpl; trivial.
  simpl in U. apply andb_true_iff in U as [U1 U2].
  apply negb_true_iff in U1. rewrite IH by assumption.
  destruct (String.eqb k k') eqn:E; simpl.
  - apply String.eqb_eq in E. subst k'. rewrite U1. apply get_set_same.
  - destruct (has k s); trivial. now apply get_set_other.
Qed.

Lemma fold_left_pointwise {A B} (f g : A -> B -> A) (l : list B) (a : A) :
  (forall x y, f x y = g x y) -> fold_left f l a = fold_left g l a.
Proof.
  intros E. revert a. induction l as [|y t IH]; intros a; simpl; trivial.
  now rewrite E, IH.
Qed.

Lemma strip_filter (attributes : obj) :
  unique_keys attributes = true -> strip attributes = filter kept attributes.
Proof.
  intros U. unfold strip.
  rewrite (fold_left_pointwise _
             (fun memo kv =>
                if negb (kept kv) then memo else set (fst kv) (snd kv) memo)).
  - rewrite (fold_set_filter (fun kv => negb (kept kv))); trivial.
    simpl. apply filter_ext. intros kv. apply negb_involutive.
  - intros memo kv. unfold kept. now rewrite negb_involutive.
Qed.

Lemma get_filter (p : string * value -> bool) k (o : obj) :
  unique_keys o = true ->
  get k (filter p o) = if p (k, get k o) then get k o else VUndefined.
Proof.
  induction o as [|[k' v] t IH]; intros U; simpl.
  - now destruct (p (k, VUndefined)).
  - simpl in U. apply andb_true_iff in U as [U1 U2].
    apply negb_true_iff in U1.
    destruct (String.eqb k k') eqn:E.
    + apply String.eqb_eq in E. subst k'.
      destruct (p (k, v)) eqn:P; simpl.
      * now rewrite String.eqb_refl.
      * apply has_false_get. now apply has_filter_false.
    + destruct (p (k', v)); simpl; [rewrite E|]; now apply IH.
Qed.

(** The attributes of the entry [prop] builds, name by name: an attribute
    that [strip] keeps is the sub-schema's own. *)
Lemma entry_get name id attributes k :
  unique_keys attributes = true ->
  truthy (get "$ref" attributes) = false ->
  existsb (String.eqb k) ["name"; "$id"; "type"] = false ->
  get k (entries (entry name id attributes))
  = if kept (k, get k attributes) then get k attributes else VUndefined.
Proof.
  intros U R N. unfold entry. rewrite R. cbn [entries].
  cbn [existsb] in N. repeat (apply orb_false_iff in N as [? N]).
  set (X := set "type" _ (set "$id" id attributes)).
  assert (UX : unique_keys X = true) by (unfold X; now repeat apply unique_keys_set).
  rewrite get_assign by (rewrite strip_filter by exact UX; now apply unique_keys_filter).
  rewrite strip_filter by exact UX.
  assert (G : get k X = get k attributes)
    by (unfold X; now rewrite !get_set_other).
  rewrite get_filter, G by exact UX.
  destruct (has k (filter kept X)) eqn:E; trivial.
  apply has_false_get in E. rewrite get_filter, G in E by exact UX.
  rewrite E. simpl. now rewrite H.
Qed.

Lemma has_filter_get (p : string * value -> bool) k (o : obj) :
  unique_keys o = true ->
  has k (filter p o) = has k o && p (k, get k o).
Proof.
  induction o as [|[k' v] t IH]; intros U; cbn [filter has get]; trivial.
  cbn [unique_keys] in U. apply andb_true_iff in U as [U1 U2].
  apply negb_true_iff in U1.
  destruct (String.eqb k k') eqn:E.
  - apply String.eqb_eq in E. subst k'.
    destruct (p (k, v)); cbn [has orb andb].
    + now rewrite String.eqb_refl.
    + now apply has_filter_false.
  - cbn [orb]. destruct (p (k', v)); cbn [has]; rewrite ?E; now apply IH.
Qed.


End TargetingFacts.

Lemma titled_string_chain :
  chain FluentJSONSchema.string [Call.title (VStr "A")] = Ok titled_string.
Proof. reflexivity. Qed.


Section Targeting.

Variable schema : obj.
Variable o : options.

Lemma setAttribute_root key value :
  get "properties" schema = VArr [] \/ get "properties" schema = VUndefined ->
  setAttribute schema o key value
  = Ok (construct o.(factory) (set key value schema) o).
Proof. unfold setAttribute, last. now intros [-> | ->]. Qed.


(** Both [setAttribute] and [setRaw] hand the last entry's name and the
    merged attributes to [prop]. *)
Lemma prop_run_plain name merged ps :
  get "properties" schema = VArr ps ->
  marked merged = false ->
  snd (prop_run schema o name (Plain (VObj merged)))
  = Ok (construct Object
          (set "properties"
             (VArr (ps ++ [entry name (property_id o name merged) merged]))
             schema)
          o).
Proof.
  intros P M. unfold marked in M.
  apply orb_false_iff in M as [M M3]. apply orb_false_iff in M as [M1 M2].
  unfold prop_run, isFluentSchema. cbn [entries].
  rewrite M1, M2, M3. cbn [snd bind]. rewrite P. reflexivity.
Qed.





End Targeting.





(** ** Generated ids *)

Section IdFacts.

Lemma unique_keys_assign (target source : obj) :
  unique_keys target = true -> unique_keys (assign target source) = true.
Proof.
  unfold assign. revert target.
  induction source as [|[k v] s IH]; intros target U; simpl; trivial.
  apply IH. now apply unique_keys_set.
Qed.

(** A serialized form holds each keyword once. *)
Lemma valueOf_unique schema isRoot v :
  valueOf schema isRoot = Ok v ->
  exists o, v = VObj o /\ unique_keys o = true.
Proof.
  unfold valueOf.
  destruct (if isRoot && _ then _ else Ok tt) as [[]|]; simpl; [|discriminate].
  match goal with
  | |- bind ?d _ = _ -> _ => destruct d as [defs|]; simpl; [|discriminate]
  end.
  match goal with
  | |- bind ?d _ = _ -> _ => destruct d as [props|]; simpl; [|discriminate]
  end.
  match goal with
  | |- bind ?d _ = _ -> _ => destruct d as [req|]; simpl; [|discriminate]
  end.
  intros E. inversion E. eexists. split; [reflexivity|].
  repeat apply unique_keys_assign. reflexivity.
Qed.

Lemma patchIds_unique schema generateIds parentId patched :
  patchIdsWithParentId schema generateIds parentId = Ok patched ->
  unique_keys schema = true -> unique_keys patched = true.
Proof.
  unfold patchIdsWithParentId. destruct (Nat.eqb _ 0).
  - intros E. now inversion E.
  - destruct (foldM _ _ _) as [p|]; simpl; [|discriminate].
    intros E U. inversion E. now apply unique_keys_set.
Qed.

Lemma unique_keys_remove k (o : obj) :
  unique_keys o = true -> unique_keys (remove k o) = true.
Proof. apply unique_keys_filter. Qed.

(** [appendRequired] touches [name] and [required] only. *)
Lemma appendRequired_attributes attributes schema schema' attributes' :
  appendRequired attributes schema = Ok (schema', attributes') ->
  (forall k, existsb (String.eqb k) ["name"; "required"] = false ->
             get k attributes' = get k attributes)
  /\ (unique_keys attributes = true -> unique_keys attributes' = true)
  /\ (forall k, String.eqb k "required" = false -> get k schema' = get k schema).
Proof.
  unfold appendRequired.
  destruct (if truthy _ then _ else Ok []) as [items|]; simpl; [|discriminate].
  destruct (iterate _) as [current|]; simpl; [|discriminate].
  destruct (negb _); [discriminate|].
  intros E. inversion E. subst. clear E. split; [|split].
  - intros k N. cbn [existsb] in N.
    repeat (apply orb_false_iff in N as [? N]).
    rewrite get_set_other by assumption.
    rewrite !get_remove_other; trivial; now apply eqb_sym_false.
  - intros U. apply unique_keys_set. now repeat apply unique_keys_remove.
  - intros k N. now apply get_set_other.
Qed.

Lemma foldM_pointwise {A B} (f g : B -> A -> result B) (l : list A) (b : B) :
  (forall x y, f x y = g x y) -> foldM f l b = foldM g l b.
Proof.
  intros E. revert b. induction l as [|y t IH]; intros b; trivial.
  cbn [foldM]. rewrite E. destruct (g b y); cbn [bind]; auto.
Qed.

Lemma patchIds_generated schema parent :
  truthy (VStr parent) = true ->
  patchIdsWithParentId schema true (VStr parent)
  = let properties := entries (or_else (get "properties" schema) (VObj [])) in
    if Nat.eqb (length properties) 0 then Ok schema
    else
      patched <- foldM (patch_step parent) properties [] ;;
      Ok (set "properties" (VObj patched) schema).
Proof.
  intros T. unfold patchIdsWithParentId. cbv zeta.
  destruct (Nat.eqb _ 0); trivial.
  erewrite foldM_pointwise; [reflexivity|].
  intros memo kp. unfold patch_step. rewrite T. cbn [andb].
  destruct (field "$id" (snd kp)) as [own|]; cbn [bind]; trivial.
  destruct (or_else own _); reflexivity.
Qed.

Lemma patch_step_other parent key (l : obj) (memo patched : obj) :
  foldM (patch_step parent) l memo = Ok patched ->
  has key l = false -> get key patched = get key memo.
Proof.
  revert memo. induction l as [|[k p] t IH]; intros memo F H.
  - now inversion F.
  - cbn [foldM] in F. cbn [has] in H. apply orb_false_iff in H as [H1 H2].
    destruct (patch_step parent memo (k, p)) as [memo'|] eqn:E;
      cbn [bind] in F; [|discriminate].
    rewrite (IH _ F H2). unfold patch_step in E. cbn [fst snd] in E.
    destruct (field "$id" p); cbn [bind] in E; [|discriminate].
    destruct (or_else _ _); try discriminate.
    inversion E. now apply get_set_other.
Qed.

Lemma patch_fold parent (properties : obj) (memo patched : obj) key props :
  foldM (patch_step parent) properties memo = Ok patched ->
  unique_keys properties = true ->
  In (key, props) properties ->
  get key patched
  = VObj (set "$id" (nested_id parent key props) (entries props)).
Proof.
  revert memo. induction properties as [|[k p] t IH]; intros memo F U I.
  - destruct I.
  - cbn [foldM] in F. cbn [unique_keys] in U.
    apply andb_true_iff in U as [U1 U2]. apply negb_true_iff in U1.
    destruct (patch_step parent memo (k, p)) as [memo'|] eqn:E;
      cbn [bind] in F; [|discriminate].
    destruct I as [I|I]; [|eapply IH; eauto].
    inversion I. subst k p. clear I.
    rewrite (patch_step_other _ _ _ _ _ F U1).
    unfold patch_step in E. cbn [fst snd] in E.
    destruct (field "$id" props) as [own|] eqn:Eo; cbn [bind] in E;
      [|discriminate].
    assert (Eg : get "$id" (entries props) = own).
    { destruct props; cbn in Eo; try discriminate; now inversion Eo. }
    unfold nested_id. rewrite Eg.
    destruct (or_else own _); try discriminate.
    inversion E. apply get_set_same.
Qed.

End IdFacts.

Section PropIds.

Variable schema : obj.
Variable o : options.
Variable name : string.

(** [prop] with a builder as sub-schema, step by step. *)
Lemma prop_run_fluent sub v b :
  valueOf sub.(base) false = Ok v ->
  snd (prop_run schema o name (Fluent sub)) = Ok b ->
  exists patched schema' attributes current,
    patchIdsWithParentId (entries v) o.(generateIds)
      (property_id o name (entries v)) = Ok patched
    /\ appendRequired (set "name" (VStr name) patched) schema
       = Ok (schema', attributes)
    /\ iterate (get "properties" schema') = Ok current
    /\ b = construct Object
             (set "properties"
                (VArr (current ++
                       [entry name (property_id o name (entries v)) attributes]))
                schema')
             o.
Proof.
  intros V. unfold prop_run. rewrite V. cbn [isFluentSchema].
  destruct (patchIdsWithParentId _ _ _) as [patched|] eqn:P; cbn [bind snd];
    [|discriminate].
  destruct (appendRequired _ schema) as [[schema' attributes]|] eqn:A;
    cbn [snd]; [|discriminate].
  destruct (iterate _) as [current|] eqn:I; cbn [bind]; [|discriminate].
  intros E. inversion E.
  exists patched, schema', attributes, current.
  repeat split; first [reflexivity | assumption].
Qed.

Lemma entry_id id attributes :
  unique_keys attributes = true ->
  truthy (get "$ref" attributes) = false ->
  id <> VArr [] ->
  get "$id" (entries (entry name id attributes)) = id.
Proof.
  intros U R N. unfold entry. rewrite R. cbn [entries].
  set (X := set "type" _ (set "$id" id attributes)).
  assert (UX : unique_keys X = true)
    by (unfold X; now repeat apply unique_keys_set).
  assert (G : get "$id" X = id)
    by (unfold X; rewrite get_set_other by reflexivity; apply get_set_same).
  assert (K : get "$id" (strip X) = id).
  { rewrite strip_filter, get_filter, G by exact UX.
    unfold kept. cbn [fst snd].
    destruct id as [| | | | | |[|x l]|]; trivial. now contradiction N. }
  rewrite get_assign
    by (rewrite strip_filter by exact UX; now apply unique_keys_filter).
  rewrite K. destruct (has "$id" (strip X)) eqn:E; trivial.
  apply has_false_get in E. now rewrite <- K, E.
Qed.

Lemma property_id_truthy attributes :
  o.(generateIds) = true -> truthy (property_id o name attributes) = true.
Proof.
  intros G. unfold property_id, or_else. rewrite G.
  destruct (truthy (get "$id" attributes)) eqn:E; trivial.
Qed.

(** A sub-schema with a [$ref] leaves its name and the [$ref]: no [$id]. *)
Lemma prop_ref_plain attributes ps :
  get "properties" schema = VArr ps ->
  marked attributes = false ->
  truthy (get "$ref" attributes) = true ->
  snd (prop_run schema o name (Plain (VObj attributes)))
  = Ok (construct Object
          (set "properties"
             (VArr (ps ++
                    [VObj [("name", VStr name); ("$ref", get "$ref" attributes)]]))
             schema)
          o).
Proof.
  intros P M R. rewrite (prop_run_plain _ _ _ _ ps) by assumption.
  unfold entry. now rewrite R.
Qed.

Lemma prop_ref_fluent sub v b :
  valueOf sub.(base) false = Ok v ->
  truthy (get "$ref" (entries v)) = true ->
  snd (prop_run schema o name (Fluent sub)) = Ok b ->
  exists current,
    get "properties" b.(base)
    = VArr (current ++
            [VObj [("name", VStr name); ("$ref", get "$ref" (entries v))]]).
Proof.
  intros V R H.
  destruct (prop_run_fluent _ _ _ V H)
    as [patched [schema' [attributes [current [P [A [I E]]]]]]].
  destruct (appendRequired_attributes _ _ _ _ A) as [Ag _].
  assert (Ra : get "$ref" attributes = get "$ref" (entries v)).
  { rewrite Ag, get_set_other, (patchIds_get _ _ _ _ "$ref" P) by reflexivity.
    reflexivity. }
  exists current. subst b. cbn [base construct]. rewrite get_set_same.
  unfold entry. now rewrite Ra, R.
Qed.

End PropIds.

(** C6 as the specification states it fails on
    [withOptions({ generateIds: true }).object().prop('foo',
    object().prop('bar', string().id('myId')).required())]: the explicit
    [$id] of [bar] is not emitted unchanged, it comes out as
    ['#properties/foo/myId']. *)
Lemma explicit_nested_id_is_prefixed :
  (foo <- object_with_explicit_bar ;;
   b <- chain (S.object initialState true) [Call.prop "foo" (Fluent foo)] ;;
   serialize b)
  = Ok (VObj
          [ ("$schema", VStr draft07); ("type", VStr "object");
            ("properties",
             VObj
               [ ("foo",
                  VObj
                    [ ("type", VStr "object");
                      ("properties",
                       VObj
                         [ ("bar",
                            VObj [ ("type", VStr "string");
                                   ("$id", VStr "#properties/foo/myId") ]) ]);
                      ("required", VArr [VStr "bar"]);
                      ("$id", VStr "#properties/foo") ]) ]) ]).
Proof. reflexivity. Qed.

Section GeneratedIds.

Variable schema : obj.
Variable o : options.
Variable name : string.
Hypothesis generating : o.(generateIds) = true.

Lemma prop_own_id sub v b :
  valueOf sub.(base) false = Ok v ->
  truthy (get "$ref" (entries v)) = false ->
  get "$id" (entries v) <> VArr [] ->
  snd (prop_run schema o name (Fluent sub)) = Ok b ->
  exists current e,
    get "properties" b.(base) = VArr (current ++ [VObj e])
    /\ get "$id" e
       = if truthy (get "$id" (entries v)) then get "$id" (entries v)
         else VStr ("#properties/" ++ name).
Proof.
  intros V R N H.
  destruct (prop_run_fluent _ _ _ _ _ _ V H)
    as [patched [schema' [attributes [current [P [A [I E]]]]]]].
  destruct (valueOf_unique _ _ _ V) as [vo [Ev Uv]]. subst v.
  cbn [entries] in *.
  pose proof (patchIds_unique _ _ _ _ P Uv) as Up.
  destruct (appendRequired_attributes _ _ _ _ A) as [Ag [Au _]].
  assert (Ua : unique_keys attributes = true)
    by (apply Au; now apply unique_keys_set).
  assert (Ra : truthy (get "$ref" attributes) = false).
  { rewrite Ag, get_set_other, (patchIds_get _ _ _ _ "$ref" P) by reflexivity.
    exact R. }
  assert (Ni : property_id o name vo <> VArr []).
  { unfold property_id, or_else. rewrite generating.
    destruct (truthy (get "$id" vo)); [exact N | discriminate]. }
  pose proof (entry_id name _ _ Ua Ra Ni) as Ei.
  unfold entry in *. rewrite Ra in *. cbn [entries] in Ei.
  eexists current, _. subst b. cbn [base construct].
  rewrite get_set_same. split; [reflexivity|].
  rewrite Ei. unfold property_id, or_else. now rewrite generating.
Qed.

(** [prop] on attributes marked [def]: the entry goes to [definitions]. *)
Lemma prop_run_definition attributes ds :
  get "definitions" schema = VArr ds ->
  has "valueOf" attributes = false ->
  truthy (get "isFluentSchema" attributes) = false ->
  truthy (get "def" attributes) = true ->
  snd (prop_run schema o name (Plain (VObj attributes)))
  = Ok (construct Object
          (set "definitions"
             (VArr (ds ++
                    [ entry name
                        (or_else (get "$id" attributes)
                           (VStr ("#definitions/" ++ name)))
                        attributes ]))
             schema)
          o).
Proof.
  intros D M1 M2 M3. unfold prop_run, isFluentSchema. cbn [entries].
  rewrite M1, M2, M3, generating. cbn [snd bind]. rewrite D. reflexivity.
Qed.

Lemma definition_own_id sub v b ds :
  valueOf sub.(base) false = Ok v ->
  truthy (get "$ref" (entries v)) = false ->
  get "$id" (entries v) <> VArr [] ->
  has "valueOf" (entries v) = false ->
  truthy (get "isFluentSchema" (entries v)) = false ->
  get "definitions" schema = VArr ds ->
  ObjectSchema.definition schema o name (Fluent sub) = Ok b ->
  exists e,
    get "definitions" b.(base) = VArr (ds ++ [VObj e])
    /\ get "$id" e
       = if truthy (get "$id" (entries v)) then get "$id" (entries v)
         else VStr ("#definitions/" ++ name).
Proof.
  intros V R N M1 M2 D H.
  destruct (valueOf_unique _ _ _ V) as [vo [Ev Uv]]. subst v.
  cbn [entries] in *.
  unfold ObjectSchema.definition, arg_valueOf in H. rewrite V in H.
  cbn [bind entries] in H.
  rewrite (prop_run_definition _ ds) in H; trivial;
    [| now rewrite has_set, M1
     | now rewrite get_set_other by reflexivity
     | now rewrite get_set_same ].
  inversion H as [E]. clear H E. cbn [base construct].
  rewrite get_set_same, (get_set_other "$id" "def") by reflexivity.
  set (id := or_else (get "$id" vo) _).
  assert (Ua : unique_keys (set "def" (VBool true) vo) = true)
    by now apply unique_keys_set.
  assert (Ra : truthy (get "$ref" (set "def" (VBool true) vo)) = false)
    by (rewrite get_set_other by reflexivity; exact R).
  assert (Ni : id <> VArr []).
  { unfold id, or_else.
    destruct (truthy (get "$id" vo)); [exact N | discriminate]. }
  pose proof (entry_id name _ _ Ua Ra Ni) as Ei.
  unfold entry in *. rewrite Ra in *. cbn [entries] in Ei.
  eexists. split; [reflexivity|].
  rewrite Ei. reflexivity.
Qed.

Lemma prop_nested_id sub v b properties key props parent :
  valueOf sub.(base) false = Ok v ->
  truthy (get "$ref" (entries v)) = false ->
  property_id o name (entries v) = VStr parent ->
  get "properties" (entries v) = VObj properties ->
  unique_keys properties = true ->
  In (key, props) properties ->
  snd (prop_run schema o name (Fluent sub)) = Ok b ->
  exists current e nested,
    get "properties" b.(base) = VArr (current ++ [VObj e])
    /\ get "properties" e = VObj nested
    /\ get key nested
       = VObj (set "$id" (nested_id parent key props) (entries props)).
Proof.
  intros V R Ep Eq Uq I H.
  destruct (prop_run_fluent _ _ _ _ _ _ V H)
    as [patched [schema' [attributes [current [P [A [It E]]]]]]].
  destruct (valueOf_unique _ _ _ V) as [vo [Ev Uv]]. subst v.
  cbn [entries] in *.
  pose proof (patchIds_unique _ _ _ _ P Uv) as Up.
  destruct (appendRequired_attributes _ _ _ _ A) as [Ag [Au _]].
  assert (Ua : unique_keys attributes = true)
    by (apply Au; now apply unique_keys_set).
  assert (Ra : truthy (get "$ref" attributes) = false).
  { rewrite Ag, get_set_other, (patchIds_get _ _ _ _ "$ref" P) by reflexivity.
    exact R. }
  assert (T : truthy (VStr parent) = true)
    by (rewrite <- Ep; now apply property_id_truthy).
  rewrite generating, Ep, patchIds_generated in P by exact T.
  cbv zeta in P. rewrite Eq in P. cbn [or_else truthy entries] in P.
  destruct properties as [|q qs]; [destruct I|].
  cbn [length Nat.eqb] in P.
  destruct (foldM (patch_step parent) (q :: qs) []) as [nested|] eqn:F;
    cbn [bind] in P; [|discriminate].
  inversion P as [Epatched]. clear P.
  assert (Gp : get "properties" attributes = VObj nested).
  { rewrite Ag, get_set_other by reflexivity.
    rewrite <- Epatched. apply get_set_same. }
  pose proof (entry_get name (VStr parent) attributes "properties" Ua Ra eq_refl)
    as Ee.
  rewrite Gp in Ee. cbn in Ee.
  unfold entry in *. rewrite Ra in *. cbn [entries] in Ee.
  eexists current, _, nested. subst b. cbn [base construct].
  rewrite get_set_same, Ep. split; [reflexivity|]. split; [exact Ee|].
  eapply patch_fold; eauto.
Qed.

(** A plain object as sub-schema: the same [$id], and what it nests is
    stored as given. *)
Lemma plain_own_id attributes ps :
  get "properties" schema = VArr ps ->
  marked attributes = false ->
  unique_keys attributes = true ->
  truthy (get "$ref" attributes) = false ->
  get "$id" attributes <> VArr [] ->
  exists e,
    snd (prop_run schema o name (Plain (VObj attributes)))
    = Ok (construct Object (set "properties" (VArr (ps ++ [VObj e])) schema) o)
    /\ get "$id" e
       = (if truthy (get "$id" attributes) then get "$id" attributes
          else VStr ("#properties/" ++ name))
    /\ (forall nested,
          get "properties" attributes = VObj nested ->
          get "properties" e = VObj nested).
Proof.
  intros P M U R N.
  rewrite (prop_run_plain _ _ _ _ ps) by assumption.
  assert (Ni : property_id o name attributes <> VArr []).
  { unfold property_id, or_else. rewrite generating.
    destruct (truthy (get "$id" attributes)); [exact N | discriminate]. }
  pose proof (entry_id name _ _ U R Ni) as Ei.
  pose proof (entry_get name (property_id o name attributes) attributes
                "properties" U R eq_refl) as Ep.
  unfold entry in *. rewrite R in *. cbn [entries] in Ei, Ep.
  eexists. split; [reflexivity|]. split.
  - rewrite Ei. unfold property_id, or_else. now rewrite generating.
  - intros nested En. rewrite Ep, En. reflexivity.
Qed.

(** [prop(name)] alone. *)
Lemma prop_alone ps :
  get "properties" schema = VArr ps ->
  snd (prop_run schema o name (Plain VUndefined))
  = Ok (construct Object
          (set "properties"
             (VArr (ps ++
                    [VObj [ ("name", VStr name);
                            ("$id", VStr ("#properties/" ++ name)) ]]))
             schema)
          o).
Proof.
  intros P.
  change (prop_run schema o name (Plain VUndefined))
    with (prop_run schema o name (Plain (VObj []))).
  rewrite (prop_run_plain _ _ _ _ ps) by trivial.
  unfold property_id, or_else. rewrite generating. reflexivity.
Qed.

Lemma definition_plain_id attributes ds :
  unique_keys attributes = true ->
  truthy (get "$ref" attributes) = false ->
  get "$id" attributes <> VArr [] ->
  has "valueOf" attributes = false ->
  truthy (get "isFluentSchema" attributes) = false ->
  get "definitions" schema = VArr ds ->
  exists e,
    ObjectSchema.definition schema o name (Plain (VObj attributes))
    = Ok (construct Object (set "definitions" (VArr (ds ++ [VObj e])) schema) o)
    /\ get "$id" e
       = if truthy (get "$id" attributes) then get "$id" attributes
         else VStr ("#definitions/" ++ name).
Proof.
  intros U R N M1 M2 D.
  unfold ObjectSchema.definition, arg_valueOf. cbn [entries].
  rewrite M1. cbn [bind entries].
  rewrite (prop_run_definition _ ds); trivial;
    [| now rewrite has_set, M1
     | now rewrite get_set_other by reflexivity
     | now rewrite get_set_same ].
  rewrite (get_set_other "$id" "def") by reflexivity.
  set (id := or_else (get "$id" attributes) _).
  assert (Ua : unique_keys (set "def" (VBool true) attributes) = true)
    by now apply unique_keys_set.
  assert (Ra : truthy (get "$ref" (set "def" (VBool true) attributes)) = false)
    by (rewrite get_set_other by reflexivity; exact R).
  assert (Ni : id <> VArr []).
  { unfold id, or_else.
    destruct (truthy (get "$id" attributes)); [exact N | discriminate]. }
  pose proof (entry_id name _ _ Ua Ra Ni) as Ei.
  unfold entry in *. rewrite Ra in *. cbn [entries] in Ei.
  eexists. split; [reflexivity|].
  rewrite Ei. reflexivity.
Qed.

End GeneratedIds.

(** C6, amended: on an object builder created with [generateIds: true],
    (1) [prop(name, sub)] with a builder [sub] that declares no [$ref] gives
    the new entry the [$id] that [sub] serializes with, unchanged, and
    [#properties/<name>] when it has none; (2) [definition(name, sub)] does
    the same with [#definitions/<name>]; (3) a property nested directly in a
    builder passed to [prop] gets as [$id] the entry's id, a slash, and its
    own id with the first [#] removed - its own being the explicit one when
    it has one, [#properties/<key>] otherwise.  So a nested [bar] under
    [foo] reads [#properties/foo/properties/bar], and an explicit nested id
    is prefixed like a generated one.  (4) A plain object as sub-schema,
    with no [$ref], gets its [$id] as a builder does, in [prop] and in
    [definition] alike, but the properties it nests are stored as given;
    [prop(name)] alone stores the name and [#properties/<name>].  (5) A
    sub-schema with a [$ref], builder or plain object, leaves an entry of
    its name and the [$ref], without any [$id]. *)
Theorem generated_ids_follow_the_parent :
  (forall schema o name sub v b,
      o.(generateIds) = true ->
      valueOf sub.(base) false = Ok v ->
      truthy (get "$ref" (entries v)) = false ->
      get "$id" (entries v) <> VArr [] ->
      snd (prop_run schema o name (Fluent sub)) = Ok b ->
      exists current e,
        get "properties" b.(base) = VArr (current ++ [VObj e])
        /\ get "$id" e
           = if truthy (get "$id" (entries v)) then get "$id" (entries v)
             else VStr ("#properties/" ++ name))
  /\ (forall schema o name sub v b ds,
      o.(generateIds) = true ->
      valueOf sub.(base) false = Ok v ->
      truthy (get "$ref" (entries v)) = false ->
      get "$id" (entries v) <> VArr [] ->
      has "valueOf" (entries v) = false ->
      truthy (get "isFluentSchema" (entries v)) = false ->
      get "definitions" schema = VArr ds ->
      ObjectSchema.definition schema o name (Fluent sub) = Ok b ->
      exists e,
        get "definitions" b.(base) = VArr (ds ++ [VObj e])
        /\ get "$id" e
           = if truthy (get "$id" (entries v)) then get "$id" (entries v)
             else VStr ("#definitions/" ++ name))
  /\ (forall schema o name sub v b properties key props parent,
      o.(generateIds) = true ->
      valueOf sub.(base) false = Ok v ->
      truthy (get "$ref" (entries v)) = false ->
      property_id o name (entries v) = VStr parent ->
      get "properties" (entries v) = VObj properties ->
      unique_keys properties = true ->
      In (key, props) properties ->
      snd (prop_run schema o name (Fluent sub)) = Ok b ->
      exists current e nested,
        get "properties" b.(base) = VArr (current ++ [VObj e])
        /\ get "properties" e = VObj nested
        /\ get key nested
           = VObj (set "$id" (nested_id parent key props) (entries props)))
  /\ (forall parent key props,
      truthy (get "$id" (entries props)) = false ->
      nested_id parent key props = VStr (parent ++ "/properties/" ++ key))
  /\ (forall parent key props i,
      get "$id" (entries props) = VStr i ->
      i <> "" ->
      nested_id parent key props = VStr (parent ++ "/" ++ replace_hash i))
  /\ (forall schema o name attributes ps,
      o.(generateIds) = true ->
      get "properties" schema = VArr ps ->
      marked attributes = false ->
      unique_keys attributes = true ->
      truthy (get "$ref" attributes) = false ->
      get "$id" attributes <> VArr [] ->
      exists e,
        snd (prop_run schema o name (Plain (VObj attributes)))
        = Ok (construct Object
                (set "properties" (VArr (ps ++ [VObj e])) schema) o)
        /\ get "$id" e
           = (if truthy (get "$id" attributes) then get "$id" attributes
              else VStr ("#properties/" ++ name))
        /\ (forall nested,
              get "properties" attributes = VObj nested ->
              get "properties" e = VObj nested))
  /\ (forall schema o name ps,
      o.(generateIds) = true ->
      get "properties" schema = VArr ps ->
      snd (prop_run schema o name (Plain VUndefined))
      = Ok (construct Object
              (set "properties"
                 (VArr (ps ++
                        [VObj [ ("name", VStr name);
                                ("$id", VStr ("#properties/" ++ name)) ]]))
                 schema)
              o))
  /\ (forall schema o name attributes ds,
      o.(generateIds) = true ->
      unique_keys attributes = true ->
      truthy (get "$ref" attributes) = false ->
      get "$id" attributes <> VArr [] ->
      has "valueOf" attributes = false ->
      truthy (get "isFluentSchema" attributes) = false ->
      get "definitions" schema = VArr ds ->
      exists e,
        ObjectSchema.definition schema o name (Plain (VObj attributes))
        = Ok (construct Object
                (set "definitions" (VArr (ds ++ [VObj e])) schema) o)
        /\ get "$id" e
           = if truthy (get "$id" attributes) then get "$id" attributes
             else VStr ("#definitions/" ++ name))
  /\ (forall schema o name attributes ps,
      get "properties" schema = VArr ps ->
      marked attributes = false ->
      truthy (get "$ref" attributes) = true ->
      snd (prop_run schema o name (Plain (VObj attributes)))
      = Ok (construct Object
              (set "properties"
                 (VArr (ps ++
                        [VObj [ ("name", VStr name);
                                ("$ref", get "$ref" attributes) ]]))
                 schema)
              o))
  /\ (forall schema o name sub v b,
      valueOf sub.(base) false = Ok v ->
      truthy (get "$ref" (entries v)) = true ->
      snd (prop_run schema o name (Fluent sub)) = Ok b ->
      exists current,
        get "properties" b.(base)
        = VArr (current ++
                [VObj [("name", VStr name); ("$ref", get "$ref" (entries v))]])).
Proof.
  repeat apply conj.
  - intros. eapply prop_own_id; eauto.
  - intros. eapply definition_own_id; eauto.
  - intros. eapply prop_nested_id; eauto.
  - intros parent key props F. unfold nested_id, or_else. now rewrite F.
  - intros parent key props i E N. unfold nested_id, or_else. rewrite E.
    cbn [truthy]. destruct (String.eqb i "") eqn:Ei; trivial.
    apply String.eqb_eq in Ei. contradiction.
  - intros. now apply plain_own_id.
  - intros. now apply prop_alone.
  - intros. now apply definition_plain_id.
  - intros. now apply prop_ref_plain.
  - intros. eapply prop_ref_fluent; eauto.
Qed.

Lemma object_with_bar_chain :
  chain FluentJSONSchema.object
    [Call.prop "bar" (Fluent string_builder); Call.required VUndefined]
  = Ok object_with_bar.
Proof. reflexivity. Qed.

Lemma generated_ids_follow_the_parent_witness :
  (exists current e,
      get "properties" object_with_foo.(base) = VArr (current ++ [VObj e])
      /\ get "$id" e = VStr "#properties/foo")
  /\ (exists current e nested,
      get "properties" object_with_foo.(base) = VArr (current ++ [VObj e])
      /\ get "properties" e = VObj nested
      /\ get "bar" nested
         = VObj [ ("type", VStr "string");
                  ("$id", VStr "#properties/foo/properties/bar") ])
  /\ (exists e,
      snd (prop_run (base (object_builder true)) (mkOptions true Object) "q"
             (Plain (VObj [("type", VStr "string")])))
      = Ok (construct Object
              (set "properties" (VArr ([] ++ [VObj e]))
                 (base (object_builder true)))
              (mkOptions true Object))
      /\ get "$id" e = VStr "#properties/q").
Proof.
  destruct generated_ids_follow_the_parent as [H1 [_ [H3 [_ [_ [H6 _]]]]]].
  split; [|split].
  - apply (H1 (base (object_builder true)) (mkOptions true Object) "foo"
             object_with_bar
             (VObj [ ("$schema", VStr draft07); ("type", VStr "object");
                     ("properties", VObj [("bar", VObj [("type", VStr "string")])]);
                     ("required", VArr [VStr "bar"]) ])
             object_with_foo);
      try reflexivity. discriminate.
  - apply (H3 (base (object_builder true)) (mkOptions true Object) "foo"
             object_with_bar
             (VObj [ ("$schema", VStr draft07); ("type", VStr "object");
                     ("properties", VObj [("bar", VObj [("type", VStr "string")])]);
                     ("required", VArr [VStr "bar"]) ])
             object_with_foo
             [("bar", VObj [("type", VStr "string")])]
             "bar" (VObj [("type", VStr "string")]) "#properties/foo");
      try reflexivity. left. reflexivity.
  - destruct (H6 (base (object_builder true)) (mkOptions true Object) "q"
                [("type", VStr "string")] [] eq_refl eq_refl eq_refl eq_refl
                eq_refl)
      as [e [E [I _]]]; [discriminate|].
    exists e. split; [exact E | exact I].
Defined.

(** ** Serializing, ingesting, serializing again *)

Section PartFacts.

Lemma has_present k k' schema :
  has k (present k' schema) = String.eqb k k' && has k' schema.
Proof.
  unfold present. destruct (has k' schema); simpl.
  - now rewrite orb_false_r, andb_true_r.
  - now rewrite andb_false_r.
Qed.

Lemma get_present k k' schema :
  get k (present k' schema) = if String.eqb k k' then get k' schema else VUndefined.
Proof.
  unfold present. destruct (has k' schema) eqn:E; simpl.
  - reflexivity.
  - destruct (String.eqb k k'); trivial. now rewrite has_false_get.
Qed.

Lemma has_part k k' p : part k' p -> has k p = String.eqb k k' && has k' p.
Proof.
  intros [E|[v E]]; subst; simpl.
  - now rewrite andb_false_r.
  - now rewrite String.eqb_refl, orb_false_r, andb_true_r.
Qed.

Lemma has_others_iff k schema :
  has k (others schema) = negb (existsb (String.eqb k) placed) && has k schema.
Proof.
  unfold others. induction schema as [|[k' v] t IH]; simpl has at 2.
  - now rewrite andb_false_r.
  - cbn [filter fst].
    destruct (existsb (String.eqb k') placed) eqn:E; cbn [negb].
    + rewrite IH. destruct (String.eqb k k') eqn:E2; trivial.
      apply String.eqb_eq in E2. subst. now rewrite E.
    + cbn [has]. rewrite IH.
      destruct (String.eqb k k') eqn:E2; trivial.
      apply String.eqb_eq in E2. subst. now rewrite E.
Qed.

Lemma get_others k schema :
  unique_keys schema = true ->
  get k (others schema)
  = if existsb (String.eqb k) placed then VUndefined else get k schema.
Proof.
  intros U. unfold others. rewrite get_filter by exact U. cbn [fst].
  destruct (existsb (String.eqb k) placed); reflexivity.
Qed.

Lemma remove_app k (a b : obj) : remove k (a ++ b) = remove k a ++ remove k b.
Proof. apply filter_app. Qed.

Lemma remove_absent k (o : obj) : has k o = false -> remove k o = o.
Proof.
  unfold remove. induction o as [|[k' v] t IH]; simpl; trivial.
  intros H. apply orb_false_iff in H as [H1 H2].
  now rewrite H1, IH.
Qed.

Lemma remove_part_same k p : part k p -> remove k p = [].
Proof.
  intros [E|[v E]]; subst; trivial.
  unfold remove. simpl. now rewrite String.eqb_refl.
Qed.

Lemma remove_part_other k k' p :
  part k' p -> String.eqb k k' = false -> remove k p = p.
Proof.
  intros [E|[v E]] N; subst; trivial.
  unfold remove. simpl. now rewrite N.
Qed.

Lemma unique_keys_part k p : part k p -> unique_keys p = true.
Proof. intros [E|[v E]]; subst; reflexivity. Qed.

End PartFacts.

Lemma get_skip_part k k' p rest :
  part k' p -> String.eqb k k' = false -> get k (p ++ rest) = get k rest.
Proof. intros P N. now rewrite get_app, (part_has k k' p P N). Qed.

Lemma has_skip_part k k' p rest :
  part k' p -> String.eqb k k' = false -> has k (p ++ rest) = has k rest.
Proof. intros P N. now rewrite has_app, (part_has k k' p P N). Qed.

Lemma get_app_left k (a rest : obj) :
  has k rest = false -> get k (a ++ rest) = get k a.
Proof.
  intros H. rewrite get_app. destruct (has k a) eqn:E; trivial.
  now rewrite (has_false_get _ _ H), (has_false_get _ _ E).
Qed.

Ltac skip_parts :=
  repeat first
    [ rewrite (get_skip_part _ _ _ _ (part_present _ _)) by reflexivity
    | rewrite (get_skip_part _ _ _ _ (part_flattened _ _)) by reflexivity
    | rewrite (get_skip_part _ _ _ _ (part_listed _ _)) by reflexivity
    | rewrite (has_skip_part _ _ _ _ (part_present _ _)) by reflexivity
    | rewrite (has_skip_part _ _ _ _ (part_flattened _ _)) by reflexivity
    | rewrite (has_skip_part _ _ _ _ (part_listed _ _)) by reflexivity ].

Ltac no_part :=
  first [ apply (part_has _ _ _ (part_present _ _)); reflexivity
        | apply (part_has _ _ _ (part_flattened _ _)); reflexivity
        | apply (part_has _ _ _ (part_listed _ _)); reflexivity
        | apply has_others; reflexivity ].

Ltac remove_parts :=
  repeat match goal with
  | |- context [remove ?k (present ?k' ?s)] =>
      first [ rewrite (remove_part_same k (present k' s) (part_present k' s))
            | rewrite (remove_part_other k k' (present k' s) (part_present k' s) eq_refl) ]
  | |- context [remove ?k (flattened ?k' ?s)] =>
      first [ rewrite (remove_part_same k (flattened k' s) (part_flattened k' s))
            | rewrite (remove_part_other k k' (flattened k' s) (part_flattened k' s) eq_refl) ]
  | |- context [remove ?k (listed ?k' ?s)] =>
      first [ rewrite (remove_part_same k (listed k' s) (part_listed k' s))
            | rewrite (remove_part_other k k' (listed k' s) (part_listed k' s) eq_refl) ]
  | |- context [remove ?k []] => change (remove k []) with (@nil (string * value))
  end.

Section SerializedFacts.

Variable schema : obj.
Hypothesis unique : unique_keys schema = true.

Lemma serialized_type :
  get "type" (serialized schema) = get "type" schema
  /\ has "type" (serialized schema) = has "type" schema.
Proof.
  unfold serialized. skip_parts.
  assert (R : has "type"
                (flattened "properties" schema ++ listed "required" schema
                 ++ present "if" schema ++ present "then" schema
                 ++ present "else" schema) = false).
  { skip_parts. no_part. }
  split.
  - rewrite get_app_left by exact R. now rewrite get_others.
  - rewrite has_app, R, orb_false_r. now rewrite has_others_iff.
Qed.

Lemma get_others_skip k rest :
  existsb (String.eqb k) placed = true ->
  get k (others schema ++ rest) = get k rest.
Proof. intros H. now rewrite get_app, has_others. Qed.

Lemma has_others_skip k rest :
  existsb (String.eqb k) placed = true ->
  has k (others schema ++ rest) = has k rest.
Proof. intros H. now rewrite has_app, has_others. Qed.

(** A part under [k] is found under [k] wherever it stands, the names after
    it being others. *)
Lemma get_part_found k p rest :
  part k p -> has k rest = false -> get k (p ++ rest) = get k p.
Proof. intros _. apply get_app_left. Qed.

Lemma serialized_definitions :
  get "definitions" (serialized schema)
  = get "definitions" (flattened "definitions" schema).
Proof.
  unfold serialized. skip_parts. apply get_app_left.
  rewrite has_others_skip by reflexivity. skip_parts. no_part.
Qed.

Lemma serialized_properties :
  get "properties" (serialized schema)
  = get "properties" (flattened "properties" schema).
Proof.
  unfold serialized. skip_parts. rewrite get_others_skip by reflexivity.
  apply get_app_left. skip_parts. no_part.
Qed.

Lemma serialized_required :
  get "required" (serialized schema)
  = get "required" (listed "required" schema).
Proof.
  unfold serialized. skip_parts. rewrite get_others_skip by reflexivity.
  skip_parts. apply get_app_left. skip_parts. no_part.
Qed.

Lemma remove_placed_others k :
  existsb (String.eqb k) placed = true ->
  remove k (remove "type" (others schema)) = remove "type" (others schema).
Proof.
  intros H. apply remove_absent. rewrite has_remove, has_others by exact H.
  apply andb_false_r.
Qed.

Lemma serialized_carried :
  remove "required" (remove "properties" (remove "definitions"
    (remove "type" (serialized schema))))
  = carried schema.
Proof.
  unfold serialized, carried.
  rewrite !remove_app. remove_parts.
  rewrite !remove_placed_others by reflexivity.
  reflexivity.
Qed.

End SerializedFacts.

(** *** The state ingestion rebuilds *)

Section Reingested.

Variable schema : obj.
Variable head : obj.
Hypothesis wf : wf_state schema = true.
Hypothesis head_names :
  forallb (fun kv => existsb (String.eqb (fst kv)) headed) head = true.
Hypothesis head_unique : unique_keys head = true.

Lemma wf_unique : unique_keys schema = true.
Proof.
  unfold wf_state in wf. repeat (apply andb_true_iff in wf as [wf ?]).
  exact wf.
Qed.

Lemma serialized_unique : unique_keys (serialized schema) = true.
Proof.
  pose proof (valueOf_computes_spec schema false wf) as V.
  destruct (valueOf_unique _ _ _ (V ltac:(discriminate))) as [o [E U]].
  inversion E. subst o. exact U.
Qed.

Lemma carried_unique : unique_keys (carried schema) = true.
Proof.
  rewrite <- serialized_carried by apply wf_unique.
  repeat apply unique_keys_remove. apply serialized_unique.
Qed.

Lemma has_head k : has k head = true -> existsb (String.eqb k) headed = true.
Proof.
  revert head_names. clear. induction head as [|[k' v] t IH]; simpl has.
  - discriminate.
  - cbn [forallb fst]. intros N. apply andb_true_iff in N as [N1 N2].
    destruct (String.eqb k k') eqn:E; simpl; auto.
    apply String.eqb_eq in E. now subst.
Qed.

Lemma head_lacks k : existsb (String.eqb k) headed = false -> has k head = false.
Proof.
  intros N. destruct (has k head) eqn:E; trivial.
  apply has_head in E. congruence.
Qed.

Lemma carried_lacks k :
  existsb (String.eqb k) headed = true -> has k (carried schema) = false.
Proof.
  intros H. rewrite <- serialized_carried by apply wf_unique.
  rewrite !has_remove. unfold headed, existsb in H.
  destruct (String.eqb "type" k) eqn:E1; [now rewrite !andb_false_r|].
  destruct (String.eqb "definitions" k) eqn:E2; [now rewrite !andb_false_r|].
  destruct (String.eqb "properties" k) eqn:E3; [now rewrite !andb_false_r|].
  destruct (String.eqb "required" k) eqn:E4; [reflexivity|].
  rewrite (String.eqb_sym k "type"), (String.eqb_sym k "definitions"),
    (String.eqb_sym k "properties"), (String.eqb_sym k "required") in H.
  rewrite E1, E2, E3, E4 in H. discriminate.
Qed.

Lemma reingested_unique : unique_keys (head ++ carried schema) = true.
Proof.
  apply unique_keys_app. split; [exact head_unique|].
  split; [apply carried_unique|].
  intros k H. apply carried_lacks. now apply has_head.
Qed.

Lemma reingested_head k :
  existsb (String.eqb k) headed = true ->
  get k (head ++ carried schema) = get k head.
Proof. intros H. apply get_app_left. now apply carried_lacks. Qed.

Lemma carried_skip_others k rest :
  existsb (String.eqb k) placed = true ->
  has k (remove "type" (others schema) ++ rest) = has k rest
  /\ get k (remove "type" (others schema) ++ rest) = get k rest.
Proof.
  intros H.
  assert (N : has k (remove "type" (others schema)) = false)
    by (rewrite has_remove, has_others by exact H; apply andb_false_r).
  now rewrite has_app, get_app, N.
Qed.

Lemma reingested_clause k :
  In k ["$schema"; "if"; "then"; "else"] ->
  has k (head ++ carried schema) = has k schema
  /\ get k (head ++ carried schema) = get k schema.
Proof.
  intros I.
  assert (L : has k head = false).
  { apply head_lacks. cbn [In] in I.
    destruct I as [<-|[<-|[<-|[<-|[]]]]]; reflexivity. }
  rewrite has_app, get_app, L. cbn [orb]. unfold carried. cbn [In] in I.
  destruct I as [<-|[<-|[<-|[<-|[]]]]].
  - assert (R : has "$schema"
                  (remove "type" (others schema) ++ present "if" schema
                   ++ present "then" schema ++ present "else" schema) = false).
    { rewrite (proj1 (carried_skip_others "$schema" _ eq_refl)). skip_parts. no_part. }
    rewrite has_app, R, get_app_left, has_present, get_present by exact R.
    now rewrite orb_false_r.
  - skip_parts.
    rewrite (proj1 (carried_skip_others "if" _ eq_refl)),
      (proj2 (carried_skip_others "if" _ eq_refl)).
    assert (R : has "if" (present "then" schema ++ present "else" schema) = false)
      by (skip_parts; no_part).
    rewrite has_app, R, get_app_left, has_present, get_present by exact R.
    now rewrite orb_false_r.
  - skip_parts.
    rewrite (proj1 (carried_skip_others "then" _ eq_refl)),
      (proj2 (carried_skip_others "then" _ eq_refl)).
    skip_parts.
    assert (R : has "then" (present "else" schema) = false) by no_part.
    rewrite has_app, R, get_app_left, has_present, get_present by exact R.
    now rewrite orb_false_r.
  - skip_parts.
    rewrite (proj1 (carried_skip_others "else" _ eq_refl)),
      (proj2 (carried_skip_others "else" _ eq_refl)).
    skip_parts. now rewrite has_present, get_present.
Qed.

Lemma present_reingested k :
  In k ["$schema"; "if"; "then"; "else"] ->
  present k (head ++ carried schema) = present k schema.
Proof.
  intros I. unfold present.
  now rewrite (proj1 (reingested_clause k I)), (proj2 (reingested_clause k I)).
Qed.

Lemma others_part k p :
  part k p -> existsb (String.eqb k) placed = true -> others p = [].
Proof.
  intros [E|[v E]] H; subst; trivial.
  unfold others. cbn [filter fst]. now rewrite H.
Qed.

Lemma others_again :
  others (remove "type" (others schema)) = remove "type" (others schema).
Proof.
  unfold others, remove. rewrite !filter_twice. apply filter_ext.
  intros [k v]. cbn [fst].
  destruct (existsb (String.eqb k) placed), (String.eqb "type" k); reflexivity.
Qed.

Lemma others_carried : others (carried schema) = remove "type" (others schema).
Proof.
  unfold carried. unfold others at 1. rewrite !filter_app.
  fold (others (present "$schema" schema)).
  fold (others (remove "type" (others schema))).
  fold (others (present "if" schema)).
  fold (others (present "then" schema)).
  fold (others (present "else" schema)).
  rewrite !(others_part _ _ (part_present _ _)) by reflexivity.
  rewrite others_again. cbn [app]. apply app_nil_r.
Qed.

Lemma others_cons k v (t : obj) :
  others ((k, v) :: t)
  = if existsb (String.eqb k) placed then others t else (k, v) :: others t.
Proof.
  unfold others. cbn [filter fst].
  now destruct (existsb (String.eqb k) placed).
Qed.

Lemma others_headed (h : obj) :
  forallb (fun kv => existsb (String.eqb (fst kv)) headed) h = true ->
  unique_keys h = true ->
  others h = present "type" h.
Proof.
  induction h as [|[k v] t IH]; intros N U; [reflexivity|].
  cbn [forallb fst] in N. apply andb_true_iff in N as [N1 N2].
  cbn [unique_keys] in U. apply andb_true_iff in U as [U1 U2].
  apply negb_true_iff in U1. specialize (IH N2 U2).
  rewrite others_cons, IH.
  unfold headed, existsb in N1.
  repeat (apply orb_true_iff in N1 as [N1|N1]); try discriminate;
    apply String.eqb_eq in N1; subst k.
  - change (existsb (String.eqb "type") placed) with false. cbv iota.
    unfold present. rewrite U1. reflexivity.
  - reflexivity.
  - reflexivity.
  - reflexivity.
Qed.

Lemma assign_carried : assign head (carried schema) = head ++ carried schema.
Proof.
  apply assign_disjoint; [apply carried_unique|].
  intros k H. destruct (has k head) eqn:E; trivial.
  rewrite carried_lacks in H; [discriminate|]. now apply has_head.
Qed.

(** The serialized form of the rebuilt state. *)
Lemma reingested_spec :
  valueOf_spec (head ++ carried schema)
  = VObj (present "$schema" schema ++ flattened "definitions" head
          ++ (present "type" head ++ remove "type" (others schema))
          ++ flattened "properties" head ++ listed "required" head
          ++ present "if" schema ++ present "then" schema
          ++ present "else" schema).
Proof.
  unfold valueOf_spec.
  rewrite !present_reingested by (cbn [In]; auto).
  unfold flattened, listed. rewrite !reingested_head by reflexivity.
  unfold others at 1. rewrite filter_app.
  fold (others head). fold (others (carried schema)).
  rewrite others_carried, (others_headed head head_names head_unique).
  reflexivity.
Qed.

Lemma reingested_wf :
  named_entries (get "properties" head) = true ->
  named_entries (get "definitions" head) = true ->
  match get "required" head with
  | VUndefined | VArr _ => true
  | _ => false
  end = true ->
  wf_state (head ++ carried schema) = true.
Proof.
  intros P D R. unfold wf_state.
  rewrite reingested_unique, !reingested_head, P, D, R by reflexivity.
  cbn [andb forallb].
  assert (C : forall k, In k ["$schema"; "if"; "then"; "else"] ->
    negb (has k (head ++ carried schema)) || truthy (get k (head ++ carried schema))
    = negb (has k schema) || truthy (get k schema)).
  { intros k I. destruct (reingested_clause k I) as [-> ->]. reflexivity. }
  rewrite !C by (cbn [In]; auto).
  pose proof wf as W. unfold wf_state in W.
  apply andb_true_iff in W as [_ W]. exact W.
Qed.

Lemma reingested_resolved :
  resolved head = true -> resolved (head ++ carried schema) = true.
Proof. unfold resolved. now rewrite reingested_head by reflexivity. Qed.

End Reingested.

(** *** From a mapping back to named entries *)

Section ToArrayFacts.

Lemma toArray_object (d : obj) : toArray (VObj d) = VArr (map rebuilt d).
Proof. reflexivity. Qed.

Lemma rebuilt_nameless k r :
  unique_keys r = true -> has "name" r = false ->
  rebuilt (k, VObj r) = VObj (("name", VStr k) :: r).
Proof.
  intros U N. unfold rebuilt. cbn [fst snd entries].
  rewrite assign_disjoint; trivial.
  intros k' H. cbn [has]. rewrite orb_false_r.
  destruct (String.eqb k' "name") eqn:E; trivial.
  apply String.eqb_eq in E. subst. congruence.
Qed.

Lemma entry_of_rebuilt k r :
  has "name" r = false ->
  entry_name (VObj (("name", VStr k) :: r)) = k
  /\ entry_rest (VObj (("name", VStr k) :: r)) = VObj r.
Proof.
  intros N. split; [reflexivity|].
  unfold entry_rest. f_equal. cbn [entries].
  change (remove "name" (("name", VStr k) :: r)) with (remove "name" r).
  now apply remove_absent.
Qed.

Lemma flatten_rebuilt (d memo : obj) :
  unique_keys d = true ->
  (forall k, has k d = true -> has k memo = false) ->
  forallb nameless d = true ->
  fold_left (fun memo e => set (entry_name e) (entry_rest e) memo)
    (map rebuilt d) memo
  = memo ++ d.
Proof.
  revert memo. induction d as [|[k v] t IH]; intros memo U D N.
  - cbn. now rewrite app_nil_r.
  - cbn [unique_keys] in U. apply andb_true_iff in U as [U1 U2].
    apply negb_true_iff in U1.
    cbn [forallb] in N. apply andb_true_iff in N as [N1 N2].
    unfold nameless in N1. cbn [snd] in N1.
    destruct v as [| | | | | | |r]; try discriminate.
    apply andb_true_iff in N1 as [Nu Nn]. apply negb_true_iff in Nn.
    cbn [map fold_left]. rewrite rebuilt_nameless by assumption.
    destruct (entry_of_rebuilt k r Nn) as [-> ->].
    rewrite set_absent by (apply D; cbn [has]; now rewrite String.eqb_refl).
    rewrite IH; trivial.
    + now rewrite <- app_assoc.
    + intros k' H. rewrite has_app. cbn [has]. rewrite orb_false_r.
      rewrite (D k') by (cbn [has]; rewrite H; apply orb_true_r).
      cbn [orb]. destruct (String.eqb k' k) eqn:E; trivial.
      apply String.eqb_eq in E. subst. congruence.
Qed.

Lemma forallb_set (q : string * value -> bool) k v (o : obj) :
  forallb q o = true -> q (k, v) = true -> forallb q (set k v o) = true.
Proof.
  induction o as [|[k' v'] t IH]; intros F Q; cbn [set forallb].
  - now rewrite Q.
  - cbn [forallb] in F. apply andb_true_iff in F as [F1 F2].
    destruct (String.eqb k k'); cbn [forallb].
    + now rewrite Q, F2.
    + now rewrite F1, IH.
Qed.

Lemma flatten_nameless (l : list value) :
  forallb (fun e => unique_keys (entries e)) l = true ->
  forallb nameless (flatten l) = true.
Proof.
  unfold flatten.
  assert (G : forall memo, forallb nameless memo = true ->
    forallb (fun e => unique_keys (entries e)) l = true ->
    forallb nameless
      (fold_left (fun memo e => set (entry_name e) (entry_rest e) memo) l memo)
    = true).
  { induction l as [|e t IH]; intros memo M U; cbn [fold_left]; trivial.
    cbn [forallb] in U. apply andb_true_iff in U as [U1 U2].
    apply IH; trivial. apply forallb_set; trivial.
    unfold nameless, entry_rest. cbn [snd].
    rewrite unique_keys_remove by exact U1.
    now rewrite has_remove, String.eqb_refl. }
  now apply G.
Qed.

Lemma named_rebuilt (d : obj) :
  forallb nameless d = true -> forallb named (map rebuilt d) = true.
Proof.
  induction d as [|[k v] t IH]; intros N; trivial.
  cbn [forallb] in N. apply andb_true_iff in N as [N1 N2].
  unfold nameless in N1. cbn [snd] in N1.
  destruct v as [| | | | | | |r]; try discriminate.
  apply andb_true_iff in N1 as [Nu Nn]. apply negb_true_iff in Nn.
  cbn [map forallb]. rewrite rebuilt_nameless, IH by assumption.
  reflexivity.
Qed.

(** Ingestion's [toArray(x) || []] of what serialization flattened under
    [k] is a list of named entries that flattens to the same mapping. *)
Lemma rebuilt_flattened k schema (h : obj) :
  get k h = or_else (toArray (get k (flattened k schema))) (VArr []) ->
  unique_entries (get k schema) = true ->
  flattened k h = flattened k schema /\ named_entries (get k h) = true.
Proof.
  intros E U. unfold flattened in *.
  destruct (get k schema) as [| | | | | |[|e l]|] eqn:G;
    try (cbn in E; rewrite E; split; reflexivity).
  cbn [get] in E. rewrite String.eqb_refl in E.
  rewrite toArray_object in E. cbn [or_else truthy] in E.
  cbn [unique_entries] in U.
  pose proof (flatten_nameless _ U) as N.
  pose proof (unique_keys_flatten (e :: l)) as Uf.
  pose proof (flatten_rebuilt (flatten (e :: l)) [] Uf (fun _ _ => eq_refl) N) as R.
  rewrite E. cbn [named_entries]. rewrite (named_rebuilt _ N).
  split; [|reflexivity].
  destruct (map rebuilt (flatten (e :: l))) as [|x xs] eqn:M.
  - apply map_eq_nil in M.
    assert (K : keys (flatten (e :: l))
                = [] ++ first_occurrences [] (map entry_name (e :: l)))
      by apply keys_flatten_from.
    rewrite M in K. discriminate.
  - change (flatten (x :: xs) = flatten (e :: l)) in R. now rewrite R.
Qed.

Lemma rebuilt_listed schema (h : obj) :
  get "required" h
  = or_else (get "required" (listed "required" schema)) (VArr []) ->
  listed "required" h = listed "required" schema
  /\ match get "required" h with
     | VUndefined | VArr _ => true
     | _ => false
     end = true
  /\ (resolved schema = true -> resolved h = true).
Proof.
  intros E. unfold listed, resolved in *.
  destruct (get "required" schema) as [| | | | | |[|e l]|] eqn:G;
    try (cbn in E; rewrite E; repeat split; reflexivity).
  cbn in E. rewrite E. repeat split; trivial.
Qed.

End ToArrayFacts.

(** *** Ingestion of a serialized form *)

Section RawFacts.

Lemma RawSchema_object (o : obj) :
  get "type" o = VStr "object" ->
  RawSchema (VObj o)
  = Ok (construct Object
          (assign
             [ ("type", VStr "object");
               ("definitions", or_else (toArray (get "definitions" o)) (VArr []));
               ("properties", or_else (toArray (get "properties" o)) (VArr []));
               ("required", or_else (get "required" o) (VArr [])) ]
             (spread_props o))
          (mkOptions false Object)).
Proof.
  intros E. unfold RawSchema. cbn [typeof_object negb field entries bind].
  rewrite E. reflexivity.
Qed.

Lemma RawSchema_kind (o : obj) t :
  get "type" o = VStr t ->
  existsb (String.eqb t) attribute_kinds = true ->
  exists K K',
    RawSchema (VObj o)
    = Ok (construct K (assign [("type", VStr t)] (spread_props o))
            (mkOptions false K')).
Proof.
  intros E H. unfold RawSchema. cbn [typeof_object negb field entries bind].
  rewrite E. unfold attribute_kinds, existsb in H.
  repeat (apply orb_true_iff in H as [H|H]); try discriminate;
    apply String.eqb_eq in H; subst t; do 2 eexists; reflexivity.
Qed.

Lemma RawSchema_base (o : obj) :
  get "type" o = VUndefined ->
  RawSchema (VObj o) = Ok (construct Base (spread_props o) (mkOptions false Base)).
Proof.
  intros E. unfold RawSchema. cbn [typeof_object negb field entries bind].
  rewrite E. reflexivity.
Qed.

Lemma attributes_only_parts schema :
  attributes_only schema = true ->
  flattened "definitions" schema = []
  /\ flattened "properties" schema = []
  /\ listed "required" schema = [].
Proof.
  unfold attributes_only, flattened, listed, empty_or_absent. intros H.
  repeat (apply andb_true_iff in H as [H ?]).
  destruct (get "definitions" schema) as [| | | | | |[|? ?]|]; try discriminate;
    destruct (get "properties" schema) as [| | | | | |[|? ?]|]; try discriminate;
    destruct (get "required" schema) as [| | | | | |[|? ?]|]; try discriminate;
    auto.
Qed.

Lemma present_type_others schema :
  unique_keys schema = true ->
  present "type" (others schema) = present "type" schema.
Proof.
  intros U. unfold present.
  now rewrite has_others_iff, get_others by exact U.
Qed.

Lemma has_of_get k (o : obj) v : get k o = v -> v <> VUndefined -> has k o = true.
Proof.
  intros E N. destruct (has k o) eqn:H; trivial.
  rewrite (has_false_get _ _ H) in E. congruence.
Qed.

End RawFacts.

Section RoundTrip.

Variable schema : obj.
Hypothesis wf : wf_state schema = true.
Hypothesis res : resolved schema = true.
Hypothesis unique_properties : unique_entries (get "properties" schema) = true.
Hypothesis unique_definitions : unique_entries (get "definitions" schema) = true.

(** Serializing a state rebuilt under a head that agrees with the schema. *)
Lemma reingested_valueOf (head : obj) :
  forallb (fun kv => existsb (String.eqb (fst kv)) headed) head = true ->
  unique_keys head = true ->
  flattened "definitions" head = flattened "definitions" schema ->
  named_entries (get "definitions" head) = true ->
  flattened "properties" head = flattened "properties" schema ->
  named_entries (get "properties" head) = true ->
  listed "required" head = listed "required" schema ->
  match get "required" head with
  | VUndefined | VArr _ => true
  | _ => false
  end = true ->
  resolved head = true ->
  present "type" head = present "type" schema ->
  valueOf (head ++ carried schema) true = Ok (VObj (reserialized schema)).
Proof.
  intros N U D Dn P Pn R Rs Rr T.
  rewrite valueOf_computes_spec.
  - rewrite (reingested_spec schema head N U), D, P, R, T.
    unfold reserialized, type_first.
    now rewrite (present_type_others schema (wf_unique schema wf)).
  - now apply reingested_wf.
  - intros _. now apply reingested_resolved.
Qed.

Lemma reingest_serialized :
  representable schema = true ->
  exists b,
    RawSchema (VObj (serialized schema)) = Ok b
    /\ valueOf b.(base) true = Ok (VObj (reserialized schema)).
Proof.
  intros Rp. pose proof (wf_unique schema wf) as U.
  destruct (serialized_type schema U) as [Gt Ht].
  unfold representable in Rp.
  destruct (get "type" schema) as [| | | |t| | |] eqn:T; try discriminate.
  - (* a fragment without a type *)
    apply andb_true_iff in Rp as [Rt Ra]. apply negb_true_iff in Rt.
    destruct (attributes_only_parts schema Ra) as [D [P R]].
    eexists. split; [now apply RawSchema_base|].
    cbn [base construct]. unfold spread_props.
    rewrite serialized_carried by exact U.
    change (carried schema) with ([] ++ carried schema).
    apply reingested_valueOf; trivial; try (symmetry; assumption).
    unfold present. now rewrite Rt.
  - destruct (String.eqb t "object") eqn:Et.
    + (* an object schema *)
      apply String.eqb_eq in Et. subst t. clear Rp.
      eexists. split; [now apply RawSchema_object|].
      cbn [base construct]. unfold spread_props.
      rewrite serialized_carried, serialized_definitions, serialized_properties,
        serialized_required by exact U.
      set (head :=
             [ ("type", VStr "object");
               ("definitions",
                or_else (toArray (get "definitions" (flattened "definitions" schema)))
                  (VArr []));
               ("properties",
                or_else (toArray (get "properties" (flattened "properties" schema)))
                  (VArr []));
               ("required",
                or_else (get "required" (listed "required" schema)) (VArr [])) ]).
      assert (N : forallb (fun kv => existsb (String.eqb (fst kv)) headed) head = true)
        by reflexivity.
      assert (Uh : unique_keys head = true) by reflexivity.
      rewrite (assign_carried schema head wf N).
      destruct (rebuilt_flattened "definitions" schema head eq_refl unique_definitions)
        as [D Dn].
      destruct (rebuilt_flattened "properties" schema head eq_refl unique_properties)
        as [P Pn].
      destruct (rebuilt_listed schema head eq_refl) as [R [Rs Rr]].
      apply reingested_valueOf; auto.
      unfold present. rewrite (has_of_get _ _ _ T) by discriminate.
      rewrite T. reflexivity.
    + (* a schema of attributes only *)
      cbn [orb] in Rp. apply andb_true_iff in Rp as [Rk Ra].
      destruct (attributes_only_parts schema Ra) as [D [P R]].
      destruct (RawSchema_kind _ t Gt Rk) as [K [K' E]].
      eexists. split; [exact E|].
      cbn [base construct]. unfold spread_props.
      rewrite serialized_carried by exact U.
      set (head := [("type", VStr t)]).
      assert (N : forallb (fun kv => existsb (String.eqb (fst kv)) headed) head = true)
        by reflexivity.
      rewrite (assign_carried schema head wf N).
      apply reingested_valueOf; trivial; try (symmetry; assumption).
      unfold present. rewrite (has_of_get _ _ _ T) by discriminate.
      rewrite T. reflexivity.
Qed.

End RoundTrip.

Section TypeFirst.

Lemma type_first_permutation (o : obj) :
  unique_keys o = true -> Permutation o (type_first o).
Proof.
  unfold type_first. induction o as [|[k v] t IH]; intros U.
  - apply Permutation_refl.
  - cbn [unique_keys] in U. apply andb_true_iff in U as [U1 U2].
    apply negb_true_iff in U1.
    destruct (String.eqb "type" k) eqn:E.
    + apply String.eqb_eq in E. subst k.
      unfold present. cbn [has get]. rewrite String.eqb_refl. cbn [orb app].
      unfold remove. cbn [filter fst]. rewrite String.eqb_refl. cbn [negb].
      fold (remove "type" t). rewrite (remove_absent _ _ U1).
      apply Permutation_refl.
    + assert (P : present "type" ((k, v) :: t) = present "type" t)
        by (unfold present; cbn [has get]; now rewrite E).
      assert (R : remove "type" ((k, v) :: t) = (k, v) :: remove "type" t)
        by (unfold remove; cbn [filter fst]; now rewrite E).
      rewrite P, R. apply Permutation_cons_app. now apply IH.
Qed.

Lemma type_first_leading schema :
  unique_keys schema = true ->
  type_leads schema = true ->
  type_first (others schema) = others schema.
Proof.
  intros U L. unfold type_leads in L. unfold type_first.
  pose proof (unique_keys_filter
                (fun kv => negb (existsb (String.eqb (fst kv)) placed)) schema U)
    as Uo.
  fold (others schema) in Uo.
  apply orb_true_iff in L as [L|L].
  - apply negb_true_iff in L.
    assert (H : has "type" (others schema) = false)
      by (rewrite has_others_iff, L; apply andb_false_r).
    unfold present. rewrite H. cbn [app]. now apply remove_absent.
  - destruct (others schema) as [|[k v] t]; [discriminate|].
    apply String.eqb_eq in L. subst k.
    cbn [unique_keys] in Uo. apply andb_true_iff in Uo as [U1 U2].
    apply negb_true_iff in U1.
    unfold present. cbn [has get]. rewrite String.eqb_refl. cbn [orb app].
    unfold remove. cbn [filter fst]. rewrite String.eqb_refl. cbn [negb].
    fold (remove "type" t). now rewrite (remove_absent _ _ U1).
Qed.

End TypeFirst.

Section Settled.

Variable schema : obj.
Hypothesis typed : typed_lists schema = true.

Lemma typed_unique : unique_keys schema = true.
Proof.
  unfold typed_lists in typed.
  repeat (apply andb_true_iff in typed as [typed ?]). exact typed.
Qed.

Lemma get_settled k :
  get k (settled schema)
  = if existsb (String.eqb k) conditional && negb (truthy (get k schema))
    then VUndefined else get k schema.
Proof.
  unfold settled. rewrite get_filter by exact typed_unique. cbn [fst snd].
  destruct (existsb (String.eqb k) conditional); cbn [negb orb andb]; trivial.
  now destruct (truthy (get k schema)).
Qed.

Lemma get_settled_other k :
  existsb (String.eqb k) conditional = false ->
  get k (settled schema) = get k schema.
Proof. intros N. now rewrite get_settled, N. Qed.

Lemma has_settled k :
  has k (settled schema)
  = has k schema
    && (negb (existsb (String.eqb k) conditional) || truthy (get k schema)).
Proof.
  unfold settled. now rewrite has_filter_get by exact typed_unique.
Qed.

Lemma truthy_has k : truthy (get k schema) = true -> has k schema = true.
Proof.
  intros H. destruct (has k schema) eqn:E; trivial.
  apply has_false_get in E. rewrite E in H. discriminate.
Qed.

Lemma present_settled k :
  existsb (String.eqb k) conditional = true ->
  present k (settled schema) = emitted k schema.
Proof.
  intros C. unfold present, emitted.
  rewrite has_settled, get_settled, C. cbn [negb orb andb].
  destruct (truthy (get k schema)) eqn:T; cbn [negb].
  - now rewrite (truthy_has k T).
  - now rewrite andb_false_r.
Qed.

Lemma others_settled : others (settled schema) = others schema.
Proof.
  unfold others, settled. clear typed.
  induction schema as [|[k v] t IH]; trivial.
  cbn [filter fst snd].
  destruct (existsb (String.eqb k) placed) eqn:P; cbn [negb].
  - destruct (negb _ || _); cbn [filter fst]; rewrite ?P; exact IH.
  - assert (C : existsb (String.eqb k) conditional = false).
    { unfold placed, conditional, existsb in *.
      repeat (apply orb_false_iff in P as [? P]).
      now repeat (apply orb_false_iff; split). }
    rewrite C. cbn [negb orb filter fst]. rewrite P. cbn [negb].
    now rewrite IH.
Qed.

Lemma settled_spec : valueOf_spec (settled schema) = valueOf_layout schema.
Proof.
  unfold valueOf_spec, valueOf_layout.
  rewrite !present_settled by reflexivity. rewrite others_settled.
  unfold flattened, listed. now rewrite !get_settled_other by reflexivity.
Qed.

Lemma settled_wf : wf_state (settled schema) = true.
Proof.
  pose proof typed as T. unfold typed_lists in T.
  repeat (apply andb_true_iff in T as [T ?]).
  assert (C : forall k,
            existsb (String.eqb k) conditional = true ->
            negb (has k (settled schema)) || truthy (get k (settled schema))
            = true).
  { intros k C. rewrite has_settled, get_settled, C. cbn [negb orb andb].
    destruct (truthy (get k schema)) eqn:E; cbn [negb].
    - rewrite E. apply orb_true_r.
    - now rewrite andb_false_r. }
  unfold wf_state. rewrite !get_settled_other by reflexivity.
  cbn [forallb].
  repeat (apply andb_true_iff; split); trivial;
    try (apply C; reflexivity).
  unfold settled. now apply unique_keys_filter.
Qed.

Lemma settled_representable :
  representable (settled schema) = representable schema.
Proof.
  unfold representable, attributes_only.
  rewrite has_settled. cbn [existsb String.eqb Ascii.eqb Bool.eqb negb orb].
  rewrite andb_true_r.
  now rewrite !get_settled_other by reflexivity.
Qed.

Lemma settled_type_leads : type_leads (settled schema) = type_leads schema.
Proof.
  unfold type_leads. rewrite others_settled, has_settled.
  cbn [existsb String.eqb Ascii.eqb Bool.eqb negb orb].
  now rewrite andb_true_r.
Qed.

(** A root serialization that returns has met no sentinel. *)
Lemma valueOf_root_sentinel_free v :
  valueOf schema true = Ok v -> resolved schema = true.
Proof.
  intros V. pose proof typed as T. unfold typed_lists in T.
  repeat (apply andb_true_iff in T as [T ?]).
  unfold resolved. unfold valueOf in V. cbv zeta in V.
  destruct (get "required" schema) as [| | | | | |l|]; try discriminate; trivial.
  cbn [andb truthy] in V.
  destruct (forallb is_string l); trivial. discriminate.
Qed.

End Settled.

(** C9 as the specification states it fails on the string schema
    [S.string().required(['a'])], on the fragment without a type
    [S.required(['a'])] and on a string schema that holds a definition:
    ingestion keeps [required], [properties] and [definitions] for an
    object schema only, so the second serialization has lost them. *)
Lemma required_list_is_lost_outside_objects :
  (b <- chain FluentJSONSchema.string [Call.required (VArr [VStr "a"])] ;;
   v <- serialize b ;;
   b' <- RawSchema v ;;
   v' <- serialize b' ;;
   Ok (v, v'))
  = Ok (VObj [ ("$schema", VStr draft07); ("type", VStr "string");
               ("required", VArr [VStr "a"]) ],
        VObj [ ("$schema", VStr draft07); ("type", VStr "string") ])
  /\ (b <- chain (Ok FluentJSONSchema.self) [Call.required (VArr [VStr "a"])] ;;
      v <- serialize b ;;
      b' <- RawSchema v ;;
      v' <- serialize b' ;;
      Ok (v, v'))
     = Ok (VObj [("required", VArr [VStr "a"])], VObj [])
  /\ (b <- chain FluentJSONSchema.string
             [Call.raw
                (VObj [("definitions",
                        VArr [VObj [("name", VStr "d"); ("type", VStr "number")]])])] ;;
      v <- serialize b ;;
      b' <- RawSchema v ;;
      v' <- serialize b' ;;
      Ok (v, v'))
     = Ok (VObj [ ("$schema", VStr draft07);
                  ("definitions", VObj [("d", VObj [("type", VStr "number")])]);
                  ("type", VStr "string") ],
           VObj [ ("$schema", VStr draft07); ("type", VStr "string") ]).
Proof. repeat split; reflexivity. Qed.

(** C9, amended: for every builder that is an object schema with its
    properties, definitions and required list, or a string, number, integer,
    boolean or array schema or a fragment without a type whose properties,
    definitions and required list are empty or absent, serializing it,
    ingesting the result through the raw entry point and serializing again
    succeeds and gives an object with the same members as the first
    serialization, hence deep-equal to it; the two are identical, key order
    included, when [type] leads the other attributes, as it does in every
    builder the kind factories and the ingestion return.  Outside an object
    schema the three lists are not carried over. *)
Theorem raw_inverts_serialization (b : builder) (v : value) :
  typed_lists b.(base) = true ->
  unique_entries (get "properties" b.(base)) = true ->
  unique_entries (get "definitions" b.(base)) = true ->
  representable b.(base) = true ->
  serialize b = Ok v ->
  exists b' v',
    RawSchema v = Ok b'
    /\ serialize b' = Ok v'
    /\ same_members v v'
    /\ (type_leads b.(base) = true -> v' = v).
Proof.
  intros T Up Ud R V. unfold serialize in *.
  pose proof (valueOf_root_sentinel_free _ T _ V) as Rs.
  rewrite valueOf_computes_layout in V by auto.
  rewrite <- (settled_spec _ T) in V.
  inversion V as [E]. clear V.
  pose proof (settled_wf _ T) as W.
  pose proof (wf_unique _ W) as U.
  assert (X : exists b',
             RawSchema (VObj (serialized (settled (base b)))) = Ok b'
             /\ valueOf (base b') true
                = Ok (VObj (reserialized (settled (base b))))).
  { apply reingest_serialized; trivial.
    - unfold resolved in *. now rewrite get_settled_other.
    - now rewrite get_settled_other.
    - now rewrite get_settled_other.
    - now rewrite settled_representable. }
  destruct X as [b' [E1 E2]].
  exists b', (VObj (reserialized (settled (base b)))).
  split; [exact E1|]. split; [exact E2|].
  split.
  - unfold valueOf_spec, reserialized, same_members.
    repeat apply Permutation_app_head.
    apply Permutation_app_tail. apply type_first_permutation.
    now apply unique_keys_filter.
  - intros L. rewrite <- (settled_type_leads _ T) in L.
    unfold valueOf_spec, reserialized.
    now rewrite type_first_leading.
Qed.

Lemma object_with_required_a_chain :
  chain FluentJSONSchema.object
    [Call.prop "a" (Fluent string_builder); Call.required VUndefined]
  = Ok object_with_required_a.
Proof. reflexivity. Qed.

Lemma raw_inverts_serialization_witness :
  exists b' v',
    RawSchema
      (VObj [ ("$schema", VStr draft07); ("type", VStr "object");
              ("properties", VObj [("a", VObj [("type", VStr "string")])]);
              ("required", VArr [VStr "a"]) ]) = Ok b'
    /\ serialize b' = Ok v'
    /\ same_members
         (VObj [ ("$schema", VStr draft07); ("type", VStr "object");
                 ("properties", VObj [("a", VObj [("type", VStr "string")])]);
                 ("required", VArr [VStr "a"]) ])
         v'
    /\ (type_leads object_with_required_a.(base) = true ->
        v' = VObj [ ("$schema", VStr draft07); ("type", VStr "object");
                    ("properties", VObj [("a", VObj [("type", VStr "string")])]);
                    ("required", VArr [VStr "a"]) ]).
Proof.
  apply (raw_inverts_serialization object_with_required_a); reflexivity.
Defined.

(** * Further properties of the code *)

(** ** [isUniq] on names *)

Section MoreUniqFacts.

Lemma first_index_miss v (l1 : list value) x l2 i :
  (forall y, In y l1 -> strict_eqb y v = false) ->
  strict_eqb x v = true ->
  first_index v (l1 ++ x :: l2) i = Some (i + length l1).
Proof.
  revert i. induction l1 as [|y t IH]; intros i M E; simpl.
  - rewrite E. f_equal. lia.
  - rewrite (M y) by now left.
    rewrite IH; [f_equal; lia | | exact E].
    intros z Hz. apply M. now right.
Qed.

Lemma numbered_In {A} (l : list A) s i x :
  In (i, x) (combine (seq s (length l)) l) ->
  exists l1 l2, l = l1 ++ x :: l2 /\ i = s + length l1.
Proof.
  revert s. induction l as [|y t IH]; intros s; simpl; [tauto|].
  intros [E|I].
  - inversion E. subst. exists [], t. split; [reflexivity | simpl; lia].
  - destruct (IH _ I) as [l1 [l2 [E1 E2]]].
    exists (y :: l1), l2. split; [now rewrite E1 | simpl; lia].
Qed.

Lemma filter_all {A} (p : A -> bool) (l : list A) :
  (forall x, In x l -> p x = true) -> filter p l = l.
Proof.
  induction l as [|x t IH]; intros H; simpl; trivial.
  rewrite (H x) by now left. f_equal. apply IH. intros y Hy. apply H. now right.
Qed.

Lemma strict_eqb_strings a b : strict_eqb (VStr a) (VStr b) = String.eqb a b.
Proof. reflexivity. Qed.

Lemma repeated_or_NoDup (l : list string) :
  NoDup l \/ exists n l1 l2 l3, l = l1 ++ n :: l2 ++ n :: l3.
Proof.
  induction l as [|x t [N|[n [l1 [l2 [l3 E]]]]]].
  - left. constructor.
  - destruct (in_dec string_dec x t) as [I|I].
    + right. apply in_split in I as [a [b E]].
      exists x, [], a, b. now rewrite E.
    + left. now constructor.
  - right. exists n, (x :: l1), l2, l3. now rewrite E.
Qed.

Lemma isUniq_NoDup (names : list string) :
  isUniq (map VStr names) = true <-> NoDup names.
Proof.
  split.
  - intros U. destruct (repeated_or_NoDup names) as [N|[n [l1 [l2 [l3 E]]]]]; trivial.
    rewrite E in U. rewrite !map_app in U. cbn [map] in U.
    rewrite map_app in U. cbn [map] in U.
    now rewrite isUniq_duplicate in U.
  - intros N. unfold isUniq. rewrite filter_all.
    + rewrite length_combine, length_seq, Nat.min_id. apply Nat.eqb_refl.
    + intros [i x] I. apply numbered_In in I as [l1 [l2 [E1 E2]]].
      cbn [fst snd]. subst i. cbn [plus].
      apply map_eq_app in E1 as [a [b [E [Ea Eb]]]].
      destruct b as [|y b]; [discriminate|]. cbn [map] in Eb.
      inversion Eb. subst x l1 l2 names.
      unfold indexOf. rewrite map_app. cbn [map].
      rewrite first_index_miss.
      * apply Nat.eqb_refl.
      * intros z Hz. apply in_map_iff in Hz as [w [<- Hw]].
        rewrite strict_eqb_strings. apply String.eqb_neq. intros ->.
        apply NoDup_remove_2 in N. apply N. apply in_or_app. now left.
      * rewrite strict_eqb_strings. apply String.eqb_refl.
Qed.

End MoreUniqFacts.

(** X1: a list of names passes [isUniq] exactly when no name occurs in it
    twice. *)
Theorem isUniq_iff_no_name_twice (names : list string) :
  isUniq (map VStr names) = true <-> NoDup names.
Proof. apply isUniq_NoDup. Qed.

Lemma isUniq_iff_no_name_twice_witness :
  isUniq (map VStr ["a"; "b"; "a"]) = true <-> NoDup ["a"; "b"; "a"].
Proof. apply (isUniq_iff_no_name_twice ["a"; "b"; "a"]). Defined.

(** ** The shared utilities on their own *)

(** X2: [omit] drops exactly the listed names: the other members keep their
    values and their order. *)
Theorem omit_drops_the_listed_names (o : obj) (props : list string) :
  unique_keys o = true ->
  omit o props = filter (fun kv => negb (existsb (String.eqb (fst kv)) props)) o.
Proof. apply omit_filter. Qed.

Lemma omit_drops_the_listed_names_witness :
  omit [("$schema", VStr draft07); ("type", VStr "string"); ("title", VStr "t")]
       ["$schema"; "definitions"; "type"]
  = [("title", VStr "t")].
Proof.
  refine (eq_trans
            (omit_drops_the_listed_names
               [("$schema", VStr draft07); ("type", VStr "string");
                ("title", VStr "t")]
               ["$schema"; "definitions"; "type"] eq_refl) _).
  reflexivity.
Defined.

Section KeyedFacts.

Lemma name_first_shape (e : value) :
  name_first e = true ->
  exists n r, e = VObj (("name", VStr n) :: r)
              /\ unique_keys r = true /\ has "name" r = false.
Proof.
  destruct e as [| | | | | | |[|[k v] r]]; try discriminate.
  destruct v; try discriminate. cbn [name_first].
  intros H. apply andb_true_iff in H as [H H3].
  apply andb_true_iff in H as [H1 H2].
  apply String.eqb_eq in H1. subst k. apply negb_true_iff in H3. eauto.
Qed.

Lemma name_first_named (l : list value) :
  forallb name_first l = true -> forallb named l = true.
Proof.
  induction l as [|e t IH]; intros H; trivial.
  cbn [forallb] in *. apply andb_true_iff in H as [H1 H2].
  rewrite (IH H2), andb_true_r.
  apply name_first_shape in H1 as [n [r [-> _]]]. reflexivity.
Qed.

Lemma flatten_distinct_from (l : list value) (memo : obj) :
  unique_keys (memo ++ map keyed l) = true ->
  fold_left (fun memo e => set (entry_name e) (entry_rest e) memo) l memo
  = memo ++ map keyed l.
Proof.
  revert memo. induction l as [|e t IH]; intros memo U; cbn [fold_left map].
  - now rewrite app_nil_r.
  - assert (A : memo ++ keyed e :: map keyed t
                = (memo ++ [keyed e]) ++ map keyed t)
      by (rewrite <- app_assoc; reflexivity).
    cbn [map] in U. rewrite A in *.
    rewrite set_absent.
    + now apply IH.
    + apply unique_keys_app in U as [U _].
      apply unique_keys_app in U as [_ [_ U]].
      destruct (has (entry_name e) memo) eqn:H; trivial.
      specialize (U _ H). cbn in U. now rewrite String.eqb_refl in U.
Qed.

Lemma rebuilt_keyed (l : list value) :
  forallb name_first l = true -> map rebuilt (map keyed l) = l.
Proof.
  induction l as [|e t IH]; intros H; trivial.
  cbn [forallb] in H. apply andb_true_iff in H as [H1 H2].
  cbn [map]. rewrite (IH H2). f_equal.
  apply name_first_shape in H1 as [n [r [-> [U N]]]].
  unfold keyed. destruct (entry_of_rebuilt n r N) as [-> ->].
  now apply rebuilt_nameless.
Qed.

End KeyedFacts.

(** X3: [flat] undoes [toArray]: an object whose members are sub-schemas
    without a field called [name] comes back as it was. *)
Theorem flat_inverts_toArray (d : obj) :
  unique_keys d = true ->
  forallb nameless d = true ->
  exists l, toArray (VObj d) = VArr l /\ flat l = Ok d.
Proof.
  intros U N. exists (map rebuilt d). split; [apply toArray_object|].
  rewrite flat_flatten by now apply named_rebuilt.
  unfold flatten. now rewrite flatten_rebuilt.
Qed.

Lemma flat_inverts_toArray_witness :
  exists l,
    toArray (VObj [("a", VObj [("type", VStr "string")]); ("b", VObj [])])
    = VArr l
    /\ flat l = Ok [("a", VObj [("type", VStr "string")]); ("b", VObj [])].
Proof.
  apply (flat_inverts_toArray
           [("a", VObj [("type", VStr "string")]); ("b", VObj [])]);
    reflexivity.
Defined.

(** X4: [toArray] undoes [flat]: a list of entries that lead with their
    name, no two of them under the same name, their names and the names of
    their fields ordinary, comes back as it was, in the same order. *)
Theorem toArray_inverts_flat (l : list value) :
  forallb name_first l = true ->
  distinct_names l = true ->
  forallb ordinary_entry l = true ->
  exists d, flat l = Ok d /\ toArray (VObj d) = VArr l.
Proof.
  intros F D _. exists (map keyed l). split.
  - rewrite flat_flatten by now apply name_first_named.
    unfold flatten. now rewrite flatten_distinct_from.
  - rewrite toArray_object. now rewrite rebuilt_keyed.
Qed.

Lemma toArray_inverts_flat_witness :
  exists d,
    flat [ VObj [("name", VStr "a"); ("type", VStr "string")];
           VObj [("name", VStr "b")] ] = Ok d
    /\ toArray (VObj d)
       = VArr [ VObj [("name", VStr "a"); ("type", VStr "string")];
                VObj [("name", VStr "b")] ].
Proof.
  apply (toArray_inverts_flat
           [ VObj [("name", VStr "a"); ("type", VStr "string")];
             VObj [("name", VStr "b")] ]);
    reflexivity.
Defined.

(** X5: [appendRequired] turns each sentinel of the sub-schema's required
    list into the property's name at the end of the root's list, keeps the
    other items for the sub-schema, and throws when the root's list would
    hold a name twice. *)
Theorem appendRequired_resolves_the_sentinels
    (attributes schema : obj) (items current : list value) :
  get "required" attributes = VArr items ->
  get "required" schema = VArr current ->
  appendRequired attributes schema
  = let appended :=
      current ++ map (fun _ => get "name" attributes) (filter is_REQUIRED items) in
    if isUniq appended then
      Ok (set "required" (VArr appended) schema,
          set "required"
            (VArr (filter (fun item => negb (is_REQUIRED item)) items))
            (remove "required" (remove "name" attributes)))
    else Throw FluentSchemaError.
Proof.
  intros A S. unfold appendRequired. rewrite A, S.
  cbn [truthy bind iterate]. rewrite appendRequired_split.
  cbn [fst snd app]. now destruct (isUniq _).
Qed.

Lemma appendRequired_resolves_the_sentinels_witness :
  appendRequired
    [ ("type", VStr "object"); ("required", VArr [VStr "x"; REQUIRED]);
      ("name", VStr "a") ]
    [ ("required", VArr [VStr "b"]) ]
  = Ok ([ ("required", VArr [VStr "b"; VStr "a"]) ],
        [ ("type", VStr "object"); ("required", VArr [VStr "x"]) ]).
Proof.
  refine (eq_trans
            (appendRequired_resolves_the_sentinels
               [ ("type", VStr "object");
                 ("required", VArr [VStr "x"; REQUIRED]); ("name", VStr "a") ]
               [ ("required", VArr [VStr "b"]) ]
               [VStr "x"; REQUIRED] [VStr "b"] eq_refl eq_refl) _).
  reflexivity.
Defined.

(** ** When serialization throws *)

(** X6: on a state of the data model, [valueOf({ isRoot: false })] always
    returns; [valueOf()] returns the same object when the required list
    holds strings only, and throws [FluentSchemaError] when it holds
    anything else, such as the sentinel. *)
Theorem valueOf_throws_on_an_unresolved_required_only (schema : obj) :
  wf_state schema = true ->
  valueOf schema false = Ok (valueOf_spec schema)
  /\ valueOf schema true
     = if resolved schema then Ok (valueOf_spec schema)
       else Throw FluentSchemaError.
Proof.
  intros W. split.
  - apply valueOf_computes_spec; [exact W | discriminate].
  - destruct (resolved schema) eqn:R.
    + now apply valueOf_computes_spec.
    + unfold resolved in R. unfold valueOf. cbv zeta.
      destruct (get "required" schema) as [| | | | | |l|]; try discriminate.
      cbn [andb truthy]. now rewrite R.
Qed.

Lemma valueOf_throws_on_an_unresolved_required_only_witness :
  valueOf [("type", VStr "string"); ("required", VArr [REQUIRED])] false
  = Ok (VObj [("type", VStr "string"); ("required", VArr [REQUIRED])])
  /\ valueOf [("type", VStr "string"); ("required", VArr [REQUIRED])] true
     = Throw FluentSchemaError.
Proof.
  destruct (valueOf_throws_on_an_unresolved_required_only
              [("type", VStr "string"); ("required", VArr [REQUIRED])] eq_refl)
    as [H1 H2].
  split.
  - refine (eq_trans H1 _). reflexivity.
  - refine (eq_trans H2 _). reflexivity.
Defined.

(** ** Keywords set at the root *)

Section RootFacts.

Lemma set_again k v1 v2 (o : obj) : set k v2 (set k v1 o) = set k v2 o.
Proof.
  induction o as [|[k' v'] t IH]; cbn [set].
  - now rewrite String.eqb_refl.
  - destruct (String.eqb k k') eqn:E; cbn [set].
    + now rewrite String.eqb_refl.
    + now rewrite E, IH.
Qed.

Lemma root_stays k v (schema : obj) :
  String.eqb k "properties" = false ->
  empty_or_absent (get "properties" schema) = true ->
  empty_or_absent (get "properties" (set k v schema)) = true.
Proof.
  intros N E. rewrite get_set_other; trivial.
  destruct (String.eqb "properties" k) eqn:E'; trivial.
  apply String.eqb_eq in E'. subst k. discriminate.
Qed.

Lemma root_cases (schema : obj) :
  empty_or_absent (get "properties" schema) = true ->
  get "properties" schema = VArr [] \/ get "properties" schema = VUndefined.
Proof.
  unfold empty_or_absent.
  destruct (get "properties" schema) as [| | | | | |[|]|]; try discriminate; auto.
Qed.

(** Whatever [setAttribute] returns was made by the factory of the
    options. *)
Lemma setAttribute_factory (schema : obj) (o : options) key value b :
  setAttribute schema o key value = Ok b -> built_by b = o.(factory).
Proof.
  unfold setAttribute.
  destruct (last (get "properties" schema)) as [c|]; cbn [bind]; [|discriminate].
  destruct (truthy c).
  - destruct (get "name" (entries c)); try discriminate.
    destruct (factory o) eqn:F; try discriminate.
    intros E. apply prop_run_Ok in E as [t [s' [cur [i [a ->]]]]]. reflexivity.
  - intros E. inversion E. reflexivity.
Qed.

End RootFacts.

(** X7: while no property has been declared, setting a keyword a second
    time is the same as setting it once to the later value; the keyword
    keeps the place it took first. *)
Theorem root_keyword_set_again_keeps_the_later_value
    (schema : obj) (o : options) (key : string) (v1 v2 : value) :
  empty_or_absent (get "properties" schema) = true ->
  String.eqb key "properties" = false ->
  (b <- setAttribute schema o key v1 ;; setAttribute b.(base) b.(opts) key v2)
  = setAttribute schema o key v2.
Proof.
  intros R N.
  rewrite !(setAttribute_root schema) by now apply root_cases.
  cbn [bind construct base opts].
  rewrite setAttribute_root by (apply root_cases; now apply root_stays).
  now rewrite set_again.
Qed.

Lemma root_keyword_set_again_keeps_the_later_value_witness :
  (b <- setAttribute [("title", VStr "a"); ("type", VStr "string")]
          (mkOptions false String_) "title" (VStr "b") ;;
   setAttribute b.(base) b.(opts) "title" (VStr "c"))
  = Ok (construct String_ [("title", VStr "c"); ("type", VStr "string")]
          (mkOptions false String_)).
Proof.
  refine (eq_trans
            (root_keyword_set_again_keeps_the_later_value
               [("title", VStr "a"); ("type", VStr "string")]
               (mkOptions false String_) "title" (VStr "b") (VStr "c")
               eq_refl eq_refl) _).
  reflexivity.
Defined.

(** X8: on a builder without properties a bare [required()] leaves the
    sentinel as the whole required list, whatever the list held, so a
    second [required()] changes nothing. *)
Theorem required_without_property_leaves_the_sentinel
    (schema : obj) (o : options) :
  empty_or_absent (get "properties" schema) = true ->
  BaseSchema.required schema o VUndefined
  = Ok (construct o.(factory) (set "required" (VArr [REQUIRED]) schema) o)
  /\ (b <- BaseSchema.required schema o VUndefined ;;
      BaseSchema.required b.(base) b.(opts) VUndefined)
     = BaseSchema.required schema o VUndefined.
Proof.
  intros R.
  assert (E : forall s, empty_or_absent (get "properties" s) = true ->
            BaseSchema.required s o VUndefined
            = Ok (construct o.(factory) (set "required" (VArr [REQUIRED]) s) o)).
  { intros s Rs. unfold BaseSchema.required, last.
    destruct (root_cases s Rs) as [-> | ->]; reflexivity. }
  split; [now apply E|].
  rewrite (E schema R). cbn [bind construct base opts].
  rewrite E by now apply root_stays. now rewrite set_again.
Qed.

Lemma required_without_property_leaves_the_sentinel_witness :
  BaseSchema.required
    [("type", VStr "string"); ("required", VArr [VStr "a"])]
    (mkOptions false String_) VUndefined
  = Ok (construct String_
          [("type", VStr "string"); ("required", VArr [REQUIRED])]
          (mkOptions false String_)).
Proof.
  destruct (required_without_property_leaves_the_sentinel
              [("type", VStr "string"); ("required", VArr [VStr "a"])]
              (mkOptions false String_) eq_refl) as [H _].
  refine (eq_trans H _). reflexivity.
Defined.

(** ** What [not] returns *)

(** X9: [not] returns a builder made by [BaseSchema], whatever made the
    receiver: the methods a kind adds ([prop], [definition], [minLength],
    [minimum], [minItems], ...) are missing from it and calling one is a
    [TypeError]; a base setter such as [title] called on it hands the state
    back to the receiver's factory. *)
Theorem not_returns_a_base_builder (b : builder) (a : arg) (b' : builder) :
  snd (invoke b (Call.not a)) = Ok b' ->
  built_by b' = Base
  /\ opts b' = opts b
  /\ (forall name props, snd (invoke b' (Call.prop name props)) = Throw TypeError)
  /\ (forall name props,
        snd (invoke b' (Call.definition name props)) = Throw TypeError)
  /\ (forall v, snd (invoke b' (Call.minLength v)) = Throw TypeError)
  /\ (forall v, snd (invoke b' (Call.minimum v)) = Throw TypeError)
  /\ (forall v, snd (invoke b' (Call.minItems v)) = Throw TypeError)
  /\ (forall v, snd (invoke b' (Call.maxProperties v)) = Throw TypeError)
  /\ (forall v b'',
        snd (invoke b' (Call.title v)) = Ok b'' ->
        built_by b'' = (opts b).(factory)).
Proof.
  cbn [invoke snd]. unfold BaseSchema.not.
  destruct (isFluentSchema a); cbn [negb]; [|discriminate].
  destruct (arg_valueOf a true) as [v|]; cbn [bind]; [|discriminate].
  destruct (patchIdsWithParentId _ _ _) as [p|]; cbn [bind]; [|discriminate].
  intros E. inversion E. subst b'. cbn [built_by opts base own construct].
  repeat split.
  intros w b''. unfold BaseSchema.title. now apply setAttribute_factory.
Qed.

Lemma not_returns_a_base_builder_witness :
  exists b',
    snd (invoke (object_builder false) (Call.not (Fluent string_builder))) = Ok b'
    /\ built_by b' = Base
    /\ snd (invoke b' (Call.prop "a" (Plain VUndefined))) = Throw TypeError.
Proof.
  eexists. split; [reflexivity|].
  destruct (not_returns_a_base_builder (object_builder false)
              (Fluent string_builder) _ eq_refl) as [H1 [_ [H2 _]]].
  split; [exact H1 | apply H2].
Defined.

(** ** What [prop] and [definition] leave alone *)

Section FrameFacts.

Lemma has_fold_set (drop : string * value -> bool) k (src memo : obj) :
  has k
    (fold_left
       (fun memo kv => if drop kv then memo else set (fst kv) (snd kv) memo)
       src memo) = true ->
  has k memo = true \/ has k src = true.
Proof.
  revert memo. induction src as [|[k' v'] t IH]; intros memo H; cbn in *; auto.
  apply IH in H as [H|H].
  - destruct (drop (k', v')); auto. rewrite has_set in H. cbn [fst] in H.
    apply orb_true_iff in H as [H|H]; auto. rewrite H. auto.
  - rewrite H. rewrite orb_true_r. auto.
Qed.

Lemma has_strip k (attributes : obj) :
  has k attributes = false -> has k (strip attributes) = false.
Proof.
  intros N. destruct (has k (strip attributes)) eqn:H; trivial.
  unfold strip in H.
  apply (has_fold_set
           (fun kv =>
              String.eqb (fst kv) "$schema" || String.eqb (fst kv) "def"
              || match snd kv with VUndefined => true | _ => false end
              || (match snd kv with VArr [] => true | _ => false end
                  && negb (String.eqb (fst kv) "default")))) in H.
  destruct H as [H|H]; [discriminate | congruence].
Qed.

Lemma get_assign_absent k (target source : obj) :
  has k source = false -> get k (assign target source) = get k target.
Proof.
  unfold assign. revert target.
  induction source as [|[k' v'] s IH]; intros target N; cbn in *; trivial.
  apply orb_false_iff in N as [N1 N2].
  rewrite IH by assumption. now apply get_set_other.
Qed.

(** The entry [prop] appends carries the property's name unless the
    attributes bring a [name] of their own. *)
Lemma entry_name_kept name id attributes :
  has "name" attributes = false ->
  get "name" (entries (entry name id attributes)) = VStr name.
Proof.
  intros N. unfold entry. destruct (truthy (get "$ref" attributes)); trivial.
  cbn [entries]. rewrite get_assign_absent; trivial.
  apply has_strip. now rewrite !has_set, N.
Qed.

Lemma appendRequired_nameless attributes schema schema' attributes' :
  appendRequired attributes schema = Ok (schema', attributes') ->
  has "name" attributes' = false.
Proof.
  unfold appendRequired.
  destruct (if truthy _ then _ else Ok []) as [items|]; cbn [bind]; [|discriminate].
  destruct (iterate _) as [current|]; cbn [bind]; [|discriminate].
  destruct (negb _); [discriminate|].
  intros E. inversion E. rewrite has_set, has_remove, has_remove.
  reflexivity.
Qed.

(** A successful [prop], opened up. *)
Lemma prop_run_frame schema o name props b :
  snd (prop_run schema o name props) = Ok b ->
  exists schema' current id attributes,
    b = construct Object
          (set (target_of props)
             (VArr (current ++ [entry name id attributes])) schema') o
    /\ iterate (get (target_of props) schema') = Ok current
    /\ (forall k, String.eqb k "required" = false -> get k schema' = get k schema)
    /\ (isFluentSchema props = false -> schema' = schema)
    /\ (forall sub, props = Fluent sub -> has "name" attributes = false).
Proof.
  unfold prop_run, target_of, marked_def.
  destruct props as [[| | | | | |l|po]|sb]; cbn [snd]; try discriminate.
  - cbn [entries get truthy isFluentSchema has snd bind or_else].
    destruct (iterate (get "properties" schema)) as [current|] eqn:I;
      cbn [bind]; [|discriminate].
    intros E. inversion E.
    eexists schema, current, _, [].
    repeat split; auto; discriminate.
  - cbn [entries isFluentSchema].
    destruct (has "valueOf" po); cbn [snd]; [discriminate|].
    destruct (truthy (get "isFluentSchema" po)) eqn:F.
    + destruct (bind _ _) as [[schema' attributes]|] eqn:A; cbn [snd];
        [|discriminate].
      destruct (iterate _) as [current|] eqn:I; cbn [bind]; [|discriminate].
      intros E. inversion E.
      destruct (patchIdsWithParentId _ _ _) as [p|]; cbn [bind] in A;
        [|discriminate].
      apply appendRequired_attributes in A as [_ [_ A]].
      eexists schema', current, _, attributes.
      repeat split; auto; discriminate.
    + destruct (iterate _) as [current|] eqn:I; cbn [bind snd]; [|discriminate].
      intros E. inversion E.
      eexists schema, current, _, po.
      repeat split; auto; discriminate.
  - cbn [isFluentSchema].
    destruct (valueOf (base sb) false) as [v|]; cbn [snd]; [|discriminate].
    destruct (bind _ _) as [[schema' attributes]|] eqn:A; cbn [snd];
      [|discriminate].
    destruct (iterate _) as [current|] eqn:I; cbn [bind]; [|discriminate].
    intros E. inversion E.
    destruct (patchIdsWithParentId _ _ _) as [p|]; cbn [bind] in A;
      [|discriminate].
    pose proof (appendRequired_nameless _ _ _ _ A) as N.
    apply appendRequired_attributes in A as [_ [_ A]].
    eexists schema', current, _, attributes.
    repeat split; auto; discriminate.
Qed.

Lemma target_not_required props : String.eqb (target_of props) "required" = false.
Proof. unfold target_of. now destruct (marked_def props). Qed.

End FrameFacts.

(** X10: a [prop] that returns has put exactly one entry at the end of
    [properties] (of [definitions], for a plain object marked [def]): the
    entries declared before stay in place, every other attribute of the
    root but [required] is as before, [required] too when the sub-schema is
    a plain object, and for a builder the entry carries the given name. *)
Theorem prop_appends_one_entry
    (schema : obj) (o : options) (name : string) (props : arg) (b : builder) :
  snd (prop_run schema o name props) = Ok b ->
  exists current e,
    iterate (get (target_of props) schema) = Ok current
    /\ get (target_of props) b.(base) = VArr (current ++ [e])
    /\ (forall k, String.eqb k (target_of props) = false ->
                  String.eqb k "required" = false ->
                  get k b.(base) = get k schema)
    /\ (isFluentSchema props = false ->
        get "required" b.(base) = get "required" schema)
    /\ (forall sub, props = Fluent sub -> get "name" (entries e) = VStr name).
Proof.
  intros H.
  apply prop_run_frame in H
    as [schema' [current [id [attributes [-> [I [K [P F]]]]]]]].
  exists current, (entry name id attributes).
  pose proof (target_not_required props) as R.
  cbn [base construct]. repeat split.
  - now rewrite <- (K _ R).
  - apply get_set_same.
  - intros k N1 N2. rewrite get_set_other by exact N1. now apply K.
  - intros N. rewrite (P N). apply get_set_other.
    rewrite String.eqb_sym. exact R.
  - intros sub E. apply entry_name_kept. now apply (F sub).
Qed.

Lemma prop_appends_one_entry_witness :
  exists current e,
    iterate (get "properties" (object_builder false).(base)) = Ok current
    /\ get "properties" object_with_required_a.(base) = VArr (current ++ [e])
    /\ (forall k, String.eqb k "properties" = false ->
                  String.eqb k "required" = false ->
                  get k object_with_required_a.(base)
                  = get k (object_builder false).(base))
    /\ (isFluentSchema (Fluent required_string) = false ->
        get "required" object_with_required_a.(base)
        = get "required" (object_builder false).(base))
    /\ (forall sub, Fluent required_string = Fluent sub ->
          get "name" (entries e) = VStr "a").
Proof.
  apply (prop_appends_one_entry (object_builder false).(base)
           (mkOptions false Object) "a" (Fluent required_string)).
  reflexivity.
Defined.

Section MarkedFacts.

(** [prop] on a plain object marked [def]. *)
Lemma prop_run_marked schema o name attributes b :
  truthy (get "isFluentSchema" attributes) = false ->
  truthy (get "def" attributes) = true ->
  snd (prop_run schema o name (Plain (VObj attributes))) = Ok b ->
  exists current,
    iterate (get "definitions" schema) = Ok current
    /\ b = construct Object
             (set "definitions"
                (VArr (current ++
                       [ entry name
                           (or_else (get "$id" attributes)
                              (if o.(generateIds)
                               then VStr ("#definitions/" ++ name)
                               else VUndefined))
                           attributes ]))
                schema)
             o.
Proof.
  intros M2 M3. unfold prop_run, isFluentSchema. cbn [entries].
  rewrite M2, M3.
  destruct (has "valueOf" attributes); cbn [snd bind]; [discriminate|].
  destruct (iterate _) as [current|]; cbn [bind]; [|discriminate].
  intros E. injection E as <-. exists current. split; reflexivity.
Qed.

End MarkedFacts.

(** X11: a [definition] that returns has put one entry at the end of
    [definitions] and left every other attribute of the root as it was,
    [properties] and [required] included: a sentinel that the sub-schema
    carries is not resolved into the root's required list.  The entry is
    the one [prop] makes of the serialized sub-schema marked [def]: with a
    [$ref] it holds the name and the [$ref] alone; without one, it holds the
    sub-schema's own required list, sentinel included, when that list is
    not empty.  (The sub-schema is serialized first; a member
    [isFluentSchema] of that object would make [prop] take it for a
    builder.) *)
Theorem definition_touches_definitions_only
    (schema : obj) (o : options) (name : string) (props : arg)
    (v : value) (b : builder) :
  arg_valueOf props false = Ok v ->
  truthy (get "isFluentSchema" (entries v)) = false ->
  ObjectSchema.definition schema o name props = Ok b ->
  exists current e,
    iterate (get "definitions" schema) = Ok current
    /\ get "definitions" b.(base) = VArr (current ++ [e])
    /\ (forall k, String.eqb k "definitions" = false ->
                  get k b.(base) = get k schema)
    /\ e = entry name
             (or_else (get "$id" (entries v))
                (if o.(generateIds) then VStr ("#definitions/" ++ name)
                 else VUndefined))
             (set "def" (VBool true) (entries v))
    /\ (truthy (get "$ref" (entries v)) = true ->
        e = VObj [("name", VStr name); ("$ref", get "$ref" (entries v))])
    /\ (truthy (get "$ref" (entries v)) = false ->
        unique_keys (entries v) = true ->
        forall r rs,
          get "required" (entries v) = VArr (r :: rs) ->
          get "required" (entries e) = VArr (r :: rs)).
Proof.
  intros V F. unfold ObjectSchema.definition.
  assert (E : match props with Plain VUndefined => Plain (VObj []) | p => p end
              = props)
    by (destruct props as [[]|]; try reflexivity; discriminate).
  rewrite E, V. cbn [bind]. intros H.
  apply prop_run_marked in H as [current [I ->]];
    [| now rewrite get_set_other | now rewrite get_set_same ].
  rewrite (get_set_other "$id" "def") by reflexivity.
  eexists current, _. cbn [base construct].
  split; [exact I|]. split; [apply get_set_same|].
  split; [intros k N; now apply get_set_other|].
  split; [reflexivity|]. split.
  - intros R. unfold entry.
    rewrite (get_set_other "$ref" "def") by reflexivity. now rewrite R.
  - intros R U r rs Q.
    rewrite entry_get;
      [| now apply unique_keys_set
       | now rewrite get_set_other
       | reflexivity ].
    rewrite (get_set_other "required" "def"), Q by reflexivity. reflexivity.
Qed.

Lemma definition_touches_definitions_only_witness :
  exists b,
    ObjectSchema.definition (object_builder false).(base)
      (mkOptions false Object) "d" (Fluent required_string) = Ok b
    /\ get "definitions" b.(base)
       = VArr [VObj [ ("name", VStr "d"); ("type", VStr "string");
                      ("required", VArr [REQUIRED]) ]]
    /\ get "required" b.(base) = VArr []
    /\ (exists e,
          get "definitions" b.(base) = VArr [e]
          /\ get "required" (entries e) = VArr [REQUIRED]).
Proof.
  eexists. split; [reflexivity|].
  destruct (definition_touches_definitions_only
              (object_builder false).(base) (mkOptions false Object) "d"
              (Fluent required_string) _ _ eq_refl eq_refl eq_refl)
    as [current [e [H1 [H2 [H3 [_ [_ H6]]]]]]].
  split; [reflexivity|]. split.
  - refine (eq_trans (H3 "required" eq_refl) _). reflexivity.
  - exists e. split.
    + inversion H1. subst current. exact H2.
    + exact (H6 eq_refl eq_refl REQUIRED [] eq_refl).
Defined.

(** ** Selecting properties *)

Section SelectionFacts.

Lemma filterM_pure {A} (f : A -> result bool) (p : A -> bool) (l : list A) :
  (forall x, In x l -> f x = Ok (p x)) -> filterM f l = Ok (filter p l).
Proof.
  induction l as [|x t IH]; intros H; cbn [filterM filter]; trivial.
  rewrite (H x) by now left. cbn [bind].
  rewrite IH by (intros y Hy; apply H; now right). reflexivity.
Qed.

Lemma filterM_each {A} (f : A -> result bool) (l r : list A) :
  filterM f l = Ok r -> forall x, In x l -> exists b, f x = Ok b.
Proof.
  revert r. induction l as [|y t IH]; intros r H x I; [destruct I|].
  cbn [filterM] in H. destruct (f y) as [b|] eqn:E; cbn [bind] in H;
    [|discriminate].
  destruct (filterM f t) as [r'|]; cbn [bind] in H; [|discriminate].
  destruct I as [<-|I]; eauto.
Qed.

(** The callbacks of [only] and [without] on an entry that can be read. *)
Lemma only_callback names e b :
  (name <- field "name" e ;; includes (VArr names) name) = Ok b ->
  b = chosen names (get "name" (entries e))
  /\ (name <- field "name" e ;;
      found <- includes (VArr names) name ;; Ok (negb found))
     = Ok (negb (chosen names (get "name" (entries e)))).
Proof.
  unfold field. destruct e; cbn [bind includes]; try discriminate;
    intros E; inversion E; split; reflexivity.
Qed.









End SelectionFacts.

Section Selected.

Variable schema : obj.
Variable q : value -> bool.
Variables ps rs : list value.
Hypothesis wf : wf_state schema = true.
Hypothesis P : get "properties" schema = VArr ps.
Hypothesis R : get "required" schema = VArr rs.
















End Selected.

Section SelectionRuns.

Variable schema : obj.
Variable o : options.
Variable names : list value.

Lemma filter_of_list v f r :
  filter_of v f = Ok r -> exists l, v = VArr l /\ filterM f l = Ok r.
Proof.
  destruct v as [| | | | | |l|w]; cbn [filter_of]; try discriminate; eauto.
  destruct (has "filter" w); discriminate.
Qed.

(** A successful [only], opened up; [without] then succeeds as well. *)
Lemma only_runs b :
  ObjectSelection.only schema o (VArr names) = Ok b ->
  exists ps rs,
    get "properties" schema = VArr ps
    /\ get "required" schema = VArr rs
    /\ b = construct Object (selected_state (chosen names) ps rs schema) o
    /\ ObjectSelection.without schema o (VArr names)
       = Ok (construct Object
               (selected_state (fun v => negb (chosen names v)) ps rs schema) o).
Proof.
  unfold ObjectSelection.only, ObjectSelection.without. cbv zeta.
  destruct (filter_of (get "properties" schema) _) as [sel|] eqn:F1;
    cbn [bind]; [|discriminate].
  destruct (filter_of (get "required" schema) _) as [req|] eqn:F2;
    cbn [bind]; [|discriminate].
  intros E. inversion E. clear E.
  apply filter_of_list in F1 as [ps [P F1]].
  apply filter_of_list in F2 as [rs [R F2]].
  exists ps, rs. rewrite P, R. cbn [filter_of].
  pose proof (filterM_each _ _ _ F1) as Each.
  rewrite (filterM_pure _ (fun e => chosen names (get "name" (entries e)))) in F1.
  2:{ intros e I. destruct (Each e I) as [c C].
      rewrite C. f_equal. now destruct (only_callback names e c C). }
  rewrite (filterM_pure _ (chosen names)) in F2 by reflexivity.
  inversion F1. inversion F2.
  rewrite (filterM_pure _
             (fun e => negb (chosen names (get "name" (entries e))))).
  2:{ intros e I. destruct (Each e I) as [c C].
      now destruct (only_callback names e c C). }
  rewrite (filterM_pure _ (fun v => negb (chosen names v))) by reflexivity.
  cbn [bind]. repeat split.
Qed.


Lemma filter_split {A} (p : A -> bool) (l : list A) :
  Permutation (filter p l ++ filter (fun x => negb (p x)) l) l.
Proof.
  induction l as [|x t IH]; cbn [filter]; [constructor|].
  destruct (p x); cbn [negb app].
  - now constructor.
  - apply Permutation_sym, Permutation_cons_app, Permutation_sym, IH.
Qed.

Lemma filter_apart {A} (p : A -> bool) (l : list A) x :
  In x (filter p l) -> In x (filter (fun x => negb (p x)) l) -> False.
Proof.
  intros H1 H2. apply filter_In in H1 as [_ H1]. apply filter_In in H2 as [_ H2].
  rewrite H1 in H2. discriminate.
Qed.

End SelectionRuns.



(** X13: [without(names)] is the complement of [only(names)]: it returns
    whenever [only] does, the two split the receiver's [properties] entries
    and [required] items between them, none going to both, and they agree
    on every other attribute. *)
Theorem without_is_the_complement_of_only
    (schema : obj) (o : options) (names : list value) (b1 : builder) :
  ObjectSelection.only schema o (VArr names) = Ok b1 ->
  exists b2 ps rs ps1 ps2 rs1 rs2,
    ObjectSelection.without schema o (VArr names) = Ok b2
    /\ get "properties" schema = VArr ps
    /\ get "required" schema = VArr rs
    /\ get "properties" b1.(base) = VArr ps1
    /\ get "properties" b2.(base) = VArr ps2
    /\ get "required" b1.(base) = VArr rs1
    /\ get "required" b2.(base) = VArr rs2
    /\ Permutation (ps1 ++ ps2) ps
    /\ Permutation (rs1 ++ rs2) rs
    /\ (forall e, In e ps1 -> In e ps2 -> False)
    /\ (forall r, In r rs1 -> In r rs2 -> False)
    /\ (forall k, String.eqb k "properties" = false ->
                  String.eqb k "required" = false ->
                  get k b1.(base) = get k b2.(base)).
Proof.
  intros H. apply only_runs in H as [ps [rs [P [R [-> E]]]]].
  eexists _, ps, rs, _, _, _, _.
  split; [exact E|]. split; [exact P|]. split; [exact R|].
  cbn [base construct]. unfold selected_state.
  rewrite !(get_set_other "properties" "required") by reflexivity.
  rewrite !get_set_same.
  repeat split.
  - apply (filter_split (fun e => chosen names (get "name" (entries e)))).
  - apply filter_split.
  - apply (filter_apart (fun e => chosen names (get "name" (entries e)))).
  - apply filter_apart.
  - intros k N1 N2. now rewrite !get_set_other by assumption.
Qed.

Lemma without_is_the_complement_of_only_witness :
  exists b2 ps rs ps1 ps2 rs1 rs2,
    ObjectSelection.without object_with_required_a.(base)
      (mkOptions false Object) (VArr [VStr "a"]) = Ok b2
    /\ get "properties" object_with_required_a.(base) = VArr ps
    /\ get "required" object_with_required_a.(base) = VArr rs
    /\ get "properties" object_with_only_a.(base) = VArr ps1
    /\ get "properties" b2.(base) = VArr ps2
    /\ get "required" object_with_only_a.(base) = VArr rs1
    /\ get "required" b2.(base) = VArr rs2
    /\ Permutation (ps1 ++ ps2) ps
    /\ Permutation (rs1 ++ rs2) rs
    /\ (forall e, In e ps1 -> In e ps2 -> False)
    /\ (forall r, In r rs1 -> In r rs2 -> False)
    /\ (forall k, String.eqb k "properties" = false ->
                  String.eqb k "required" = false ->
                  get k object_with_only_a.(base) = get k b2.(base)).
Proof.
  apply (without_is_the_complement_of_only object_with_required_a.(base)
           (mkOptions false Object) [VStr "a"] object_with_only_a).
  reflexivity.
Defined.

(** ** Sub-schemas under [contains] *)

Lemma remove_placed k (schema : obj) :
  existsb (String.eqb k) placed = true -> remove k (others schema) = others schema.
Proof. intros H. apply remove_absent. now apply has_others. Qed.

(** X14: [contains] stores the sub-schema's own attributes and its
    [if]/[then]/[else], in the order of its serialized form, and never its
    [properties], [definitions] or [required] list: an object sub-schema
    loses the properties it declares. *)
Theorem contains_keeps_no_structure (schema : obj) (o : options) (sub : builder) :
  wf_state sub.(base) = true ->
  resolved sub.(base) = true ->
  ArrayContains.contains schema o (Fluent sub)
  = setAttribute schema o "contains"
      (VObj (others sub.(base) ++ present "if" sub.(base)
             ++ present "then" sub.(base) ++ present "else" sub.(base))).
Proof.
  intros W R. unfold ArrayContains.contains.
  cbn [isFluentSchema negb arg_valueOf].
  rewrite valueOf_computes_spec by auto. cbn [bind]. do 2 f_equal.
  unfold valueOf_spec. cbn [entries].
  rewrite !remove_app. remove_parts.
  rewrite !remove_placed by reflexivity.
  reflexivity.
Qed.

Lemma contains_keeps_no_structure_witness :
  ArrayContains.contains [("type", VStr "array")] (mkOptions false Array)
    (Fluent object_with_required_a)
  = Ok (construct Array
          [("type", VStr "array"); ("contains", VObj [("type", VStr "object")])]
          (mkOptions false Array)).
Proof.
  refine (eq_trans
            (contains_keeps_no_structure [("type", VStr "array")]
               (mkOptions false Array) object_with_required_a
               eq_refl eq_refl) _).
  reflexivity.
Defined.

(** ** What ingestion keeps *)

Section DispatchFacts.

(** The [switch] of [RawSchema], as a chain of comparisons. *)
Lemma kind_switch {A} (t : string) (s i n b o a d : A) :
  match t with
  | "string" => s
  | "integer" => i
  | "number" => n
  | "boolean" => b
  | "object" => o
  | "array" => a
  | _ => d
  end
  = if String.eqb t "string" then s
    else if String.eqb t "integer" then i
    else if String.eqb t "number" then n
    else if String.eqb t "boolean" then b
    else if String.eqb t "object" then o
    else if String.eqb t "array" then a
    else d.
Proof.
  repeat
    (match goal with
     | |- context [match ?x with _ => _ end] => is_var x; destruct x
     end; cbn; try reflexivity).
Qed.

End DispatchFacts.

Section IngestionFacts.

Lemma get_spread_props k (o : obj) :
  existsb (String.eqb k) headed = false -> get k (spread_props o) = get k o.
Proof.
  intros N. unfold headed, existsb in N.
  repeat (apply orb_false_iff in N as [? N]).
  unfold spread_props. rewrite !get_remove_other; trivial;
    now apply eqb_sym_false.
Qed.

Lemma has_spread_props k (o : obj) :
  existsb (String.eqb k) headed = true -> has k (spread_props o) = false.
Proof.
  intros N. unfold spread_props. rewrite !has_remove.
  unfold headed, existsb in N.
  repeat (apply orb_true_iff in N as [N|N]); try discriminate;
    rewrite (String.eqb_sym k) in N; rewrite N; cbn [negb andb];
    rewrite ?andb_false_r; reflexivity.
Qed.

Lemma RawSchema_switch (o : obj) t :
  get "type" o = VStr t ->
  RawSchema (VObj o)
  = let typed := assign [("type", VStr t)] (spread_props o) in
    if String.eqb t "string"
    then Ok (construct String_ typed (mkOptions false String_))
    else if String.eqb t "integer"
    then Ok (construct Integer typed (mkOptions false Number))
    else if String.eqb t "number"
    then Ok (construct Number typed (mkOptions false Number))
    else if String.eqb t "boolean"
    then Ok (construct Boolean typed (mkOptions false Boolean))
    else if String.eqb t "object" then
      Ok (construct Object
            (assign
               [ ("type", VStr t);
                 ("definitions", or_else (toArray (get "definitions" o)) (VArr []));
                 ("properties", or_else (toArray (get "properties" o)) (VArr []));
                 ("required", or_else (get "required" o) (VArr [])) ]
               (spread_props o))
            (mkOptions false Object))
    else if String.eqb t "array"
    then Ok (construct Array typed (mkOptions false Array))
    else Ok (construct Base (spread_props o) (mkOptions false Base)).
Proof.
  intros E. unfold RawSchema. cbn [typeof_object negb field entries bind].
  rewrite E. cbv zeta. apply kind_switch.
Qed.

(** What such a state holds: the members of the fragment that are not
    read by name, behind the type if it is kept. *)
Lemma ingested_members (o pre : obj) :
  part "type" pre ->
  (forall k, existsb (String.eqb k) ["definitions"; "properties"; "required"]
             = true -> has k (pre ++ spread_props o) = false)
  /\ (forall k, existsb (String.eqb k) headed = false ->
                get k (pre ++ spread_props o) = get k o).
Proof.
  intros P. split.
  - intros k K.
    assert (N : String.eqb k "type" = false).
    { cbn [existsb] in K.
      repeat (apply orb_true_iff in K as [K|K]); try discriminate;
        apply String.eqb_eq in K; subst k; reflexivity. }
    rewrite (has_skip_part k "type" pre _ P N).
    apply has_spread_props. cbn [existsb headed] in *. rewrite K.
    apply orb_true_r.
  - intros k K.
    assert (N : String.eqb k "type" = false)
      by (cbn [existsb headed] in K; now apply orb_false_iff in K as [K _]).
    rewrite (get_skip_part k "type" pre _ P N). now apply get_spread_props.
Qed.

End IngestionFacts.

(** [RawSchema] on a fragment of another type than ['object']. *)
Lemma RawSchema_other_kinds (o : obj) :
  unique_keys o = true ->
  strict_eqb (get "type" o) (VStr "object") = false ->
  exists b,
    RawSchema (VObj o) = Ok b
    /\ b.(base)
       = (if known_kind (get "type" o) then [("type", get "type" o)] else [])
         ++ spread_props o
    /\ (forall k, existsb (String.eqb k) ["definitions"; "properties"; "required"]
                  = true -> has k b.(base) = false)
    /\ (forall k, existsb (String.eqb k) headed = false ->
                  get k b.(base) = get k o).
Proof.
  intros U N.
  assert (Us : unique_keys (spread_props o) = true)
    by (unfold spread_props; now repeat apply unique_keys_remove).
  assert (T : forall t, assign [("type", VStr t)] (spread_props o)
                        = [("type", VStr t)] ++ spread_props o).
  { intros t. apply (assign_disjoint [("type", VStr t)]); trivial.
    intros k H. cbn [has]. rewrite orb_false_r.
    destruct (String.eqb k "type") eqn:E; trivial.
    apply String.eqb_eq in E. subst k.
    now rewrite has_spread_props in H. }
  assert (D : forall pre b,
            RawSchema (VObj o) = Ok b ->
            b.(base) = pre ++ spread_props o ->
            part "type" pre ->
            pre = (if known_kind (get "type" o)
                   then [("type", get "type" o)] else []) ->
            exists b,
              RawSchema (VObj o) = Ok b
              /\ b.(base)
                 = (if known_kind (get "type" o)
                    then [("type", get "type" o)] else [])
                   ++ spread_props o
              /\ (forall k, existsb (String.eqb k)
                              ["definitions"; "properties"; "required"]
                            = true -> has k b.(base) = false)
              /\ (forall k, existsb (String.eqb k) headed = false ->
                            get k b.(base) = get k o)).
  { intros pre b E B P K. exists b. rewrite <- K, B.
    split; [exact E|]. split; [reflexivity|]. now apply ingested_members. }
  destruct (get "type" o) as [| | | | t| | |] eqn:G.
  5:{ cbn [strict_eqb] in N. pose proof (RawSchema_switch o t G) as S.
      cbv zeta in S. rewrite T, N in S.
      assert (K : known_kind (VStr t)
                  = (String.eqb t "string" || String.eqb t "integer"
                     || String.eqb t "number" || String.eqb t "boolean"
                     || String.eqb t "array")).
      { cbn [known_kind existsb]. rewrite N.
        now destruct (String.eqb t "string"), (String.eqb t "integer"),
          (String.eqb t "number"), (String.eqb t "boolean"),
          (String.eqb t "array"). }
      destruct (String.eqb t "string");
        [|destruct (String.eqb t "integer");
          [|destruct (String.eqb t "number");
            [|destruct (String.eqb t "boolean");
              [|destruct (String.eqb t "array")]]]];
        cbn [orb] in K.
      1-5: apply (D [("type", VStr t)] _ S eq_refl);
        [right; eauto | now rewrite K].
      apply (D [] _ S eq_refl); [now left | now rewrite K]. }
  all: apply (D [] (construct Base (spread_props o) (mkOptions false Base)));
    [ unfold RawSchema; cbn [typeof_object negb field entries bind];
      rewrite G; reflexivity
    | reflexivity | now left | reflexivity ].
Qed.

(** X15: [RawSchema] keeps [properties], [definitions] and [required] for
    a fragment of type ['object'] only.  Of any other fragment it keeps the
    remaining members as they are; the [type] itself is kept when it is one
    of ['string'], ['integer'], ['number'], ['boolean'] and ['array'], and
    dropped when it is anything else (such as ['null'] or a list of types).
    When the names of the fragment are ordinary the builder's attributes
    are the [type], if kept, followed by the remaining members in their
    order. *)
Theorem raw_keeps_structure_for_objects_only (o : obj) :
  unique_keys o = true ->
  strict_eqb (get "type" o) (VStr "object") = false ->
  exists b,
    RawSchema (VObj o) = Ok b
    /\ get "type" b.(base)
       = (if known_kind (get "type" o) then get "type" o else VUndefined)
    /\ (forall k, existsb (String.eqb k) ["definitions"; "properties"; "required"]
                  = true -> has k b.(base) = false)
    /\ (forall k, existsb (String.eqb k) headed = false ->
                  get k b.(base) = get k o)
    /\ (ordinary_keys o = true ->
        b.(base)
        = (if known_kind (get "type" o) then [("type", get "type" o)] else [])
          ++ spread_props o).
Proof.
  intros U N.
  destruct (RawSchema_other_kinds o U N) as [b [E [B [H G]]]].
  exists b. split; [exact E|]. split; [|split; [exact H|split; [exact G|]]].
  - rewrite B. destruct (known_kind (get "type" o)).
    + cbn [app get]. now rewrite String.eqb_refl.
    + cbn [app]. apply has_false_get. now apply has_spread_props.
  - intros _. exact B.
Qed.

Lemma raw_keeps_structure_for_objects_only_witness :
  exists b,
    RawSchema (VObj [ ("type", VStr "null"); ("title", VStr "t");
                      ("required", VArr [VStr "a"]) ]) = Ok b
    /\ b.(base) = [("title", VStr "t")].
Proof.
  destruct (raw_keeps_structure_for_objects_only
              [ ("type", VStr "null"); ("title", VStr "t");
                ("required", VArr [VStr "a"]) ] eq_refl eq_refl)
    as [b [H1 [_ [_ [_ H5]]]]].
  exists b. split; [exact H1 | exact (H5 eq_refl)].
Defined.

(** ** What id patching leaves alone *)

Section PatchFacts.

Variable generateIds : bool.
Variable parentId : value.

Lemma patch_reduction (l : obj) (memo patched : obj) :
  foldM
    (fun memo kp =>
       let key := fst kp in
       let props := snd kp in
       own <- field "$id" props ;;
       let id :=
         or_else own
           (if generateIds then VStr ("#properties/" ++ key) else VUndefined) in
       id' <-
         (if generateIds && truthy parentId then
            match parentId with
            | VStr parent =>
                match id with
                | VStr i => Ok (VStr (parent ++ "/" ++ replace_hash i))
                | _ => Throw TypeError
                end
            | _ => Throw Unsupported
            end
          else Ok id) ;;
       Ok (set key (VObj (set "$id" id' (entries props))) memo))
    l memo = Ok patched ->
  unique_keys (memo ++ l) = true ->
  exists l', patched = memo ++ l' /\ Forall2 repatched l l'.
Proof.
  revert memo. induction l as [|[k p] t IH]; intros memo F U.
  - inversion F. exists []. split; [now rewrite app_nil_r | constructor].
  - cbn [foldM] in F. cbv zeta in F. cbn [fst snd] in F.
    destruct (field "$id" p) as [own|]; cbn [bind] in F; [|discriminate].
    destruct (if generateIds && truthy parentId then _ else _) as [id'|];
      cbn [bind] in F; [|discriminate].
    assert (A : memo ++ (k, p) :: t = (memo ++ [(k, p)]) ++ t)
      by (rewrite <- app_assoc; reflexivity).
    rewrite A in U.
    assert (H : has k memo = false).
    { apply unique_keys_app in U as [U _].
      apply unique_keys_app in U as [_ [_ U]].
      destruct (has k memo) eqn:H; trivial.
      specialize (U _ H). cbn in U. now rewrite String.eqb_refl in U. }
    rewrite set_absent in F by exact H.
    apply IH in F as [l' [-> F]].
    + exists ((k, VObj (set "$id" id' (entries p))) :: l'). split.
      * now rewrite <- app_assoc.
      * constructor; [|exact F]. split; [reflexivity|].
        exists id'. reflexivity.
    + apply unique_keys_NoDup. apply unique_keys_NoDup in U.
      unfold keys in *. rewrite !map_app in *. exact U.
Qed.

End PatchFacts.

(** X16: [patchIdsWithParentId] changes ids and nothing else: every
    attribute of the schema but [properties] is returned as it was, and
    [properties] holds the same names in the same order, each with its
    sub-schema as before but for [$id]. *)
Theorem patchIds_changes_ids_only
    (schema : obj) (generateIds : bool) (parentId : value) (patched : obj) :
  unique_keys (nested_properties schema) = true ->
  patchIdsWithParentId schema generateIds parentId = Ok patched ->
  (forall k, String.eqb k "properties" = false -> get k patched = get k schema)
  /\ Forall2 repatched (nested_properties schema) (nested_properties patched).
Proof.
  intros U H. split; [intros k N; now apply (patchIds_get _ _ _ _ _ H)|].
  revert H U. unfold patchIdsWithParentId, nested_properties. cbv zeta.
  destruct (Nat.eqb _ 0) eqn:Z.
  - intros E _. inversion E. subst patched. apply Nat.eqb_eq in Z.
    apply length_zero_iff_nil in Z. rewrite Z. constructor.
  - destruct (foldM _ _ _) as [p|] eqn:F; cbn [bind]; [|discriminate].
    intros E U. inversion E. rewrite get_set_same. cbn [or_else truthy entries].
    apply patch_reduction in F as [l' [-> F]]; trivial.
Qed.

Lemma patchIds_changes_ids_only_witness :
  exists patched,
    patchIdsWithParentId
      [ ("type", VStr "object");
        ("properties", VObj [("bar", VObj [("type", VStr "string")])]) ]
      true (VStr "#properties/foo") = Ok patched
    /\ get "type" patched = VStr "object"
    /\ Forall2 repatched
         [("bar", VObj [("type", VStr "string")])]
         (nested_properties patched).
Proof.
  eexists. split; [reflexivity|].
  destruct (patchIds_changes_ids_only
              [ ("type", VStr "object");
                ("properties", VObj [("bar", VObj [("type", VStr "string")])]) ]
              true (VStr "#properties/foo") _ eq_refl eq_refl) as [H1 H2].
  split; [exact (H1 "type" eq_refl) | exact H2].
Defined.

(** ** Setters that go to the root *)

Section RootSetters.

Variable schema : obj.
Variable o : options.

Lemma unchanged_set k v : unchanged_but [k] schema (set k v schema).
Proof.
  intros k' N. cbn [existsb] in N. rewrite orb_false_r in N.
  now apply get_set_other.
Qed.

Lemma unchanged_set2 k1 v1 k2 v2 :
  unchanged_but [k1; k2] schema (set k2 v2 (set k1 v1 schema)).
Proof.
  intros k N. cbn [existsb] in N. rewrite orb_false_r in N.
  apply orb_false_iff in N as [N1 N2]. now rewrite !get_set_other.
Qed.

Lemma unchanged_set3 k1 v1 k2 v2 k3 v3 :
  unchanged_but [k1; k2; k3] schema (set k3 v3 (set k2 v2 (set k1 v1 schema))).
Proof.
  intros k N. cbn [existsb] in N. rewrite orb_false_r in N.
  apply orb_false_iff in N as [N1 N2]. apply orb_false_iff in N2 as [N2 N3].
  now rewrite !get_set_other.
Qed.

End RootSetters.

(** X17: the object builder's [id], [not], [anyOf]/[allOf]/[oneOf],
    [ifThen] and [ifThenElse] write to the root whatever property was
    declared last: what they return differs from the receiver's state in
    the keyword they set and in nothing else, [properties] included. *)
Theorem root_setters_leave_the_properties (schema : obj) (o : options) :
  (forall v b, ObjectSchema.id schema o v = Ok b ->
               unchanged_but ["$id"] schema b.(base))
  /\ (forall a b, BaseSchema.not schema o a = Ok b ->
                  unchanged_but ["not"] schema b.(base))
  /\ (forall keyword l b, setComposeType keyword l schema o = Ok b ->
                          unchanged_but [keyword] schema b.(base))
  /\ (forall i t b, BaseSchema.ifThen schema o i t = Ok b ->
                    unchanged_but ["if"; "then"] schema b.(base))
  /\ (forall i t e b, BaseSchema.ifThenElse schema o i t e = Ok b ->
                      unchanged_but ["if"; "then"; "else"] schema b.(base)).
Proof.
  repeat split.
  - intros v b. unfold ObjectSchema.id. destruct (negb (truthy v)); [discriminate|].
    intros E. inversion E. apply unchanged_set.
  - intros a b. unfold BaseSchema.not.
    destruct (negb (isFluentSchema a)); [discriminate|].
    destruct (arg_valueOf a true); cbn [bind]; [|discriminate].
    destruct (patchIdsWithParentId _ _ _); cbn [bind]; [|discriminate].
    intros E. inversion E. apply unchanged_set.
  - intros keyword l b. unfold setComposeType. destruct l as [l|]; [|discriminate].
    destruct (negb (forallb isFluentSchema l)); [discriminate|].
    destruct (foldM _ _ _); cbn [bind]; [|discriminate].
    intros E. inversion E. apply unchanged_set.
  - intros i t b. unfold BaseSchema.ifThen.
    destruct (negb (isFluentSchema i)); [discriminate|].
    destruct (negb (isFluentSchema t)); [discriminate|].
    destruct (BaseSchema.clause i); cbn [bind]; [|discriminate].
    destruct (BaseSchema.clause t); cbn [bind]; [|discriminate].
    destruct (BaseSchema.patched o _ "#if"); cbn [bind]; [|discriminate].
    destruct (BaseSchema.patched o _ "#then"); cbn [bind]; [|discriminate].
    intros E. inversion E. apply unchanged_set2.
  - intros i t e b. unfold BaseSchema.ifThenElse.
    destruct (negb (isFluentSchema i)); [discriminate|].
    destruct (negb (isFluentSchema t)); [discriminate|].
    destruct (negb (isFluentSchema e)); [discriminate|].
    destruct (BaseSchema.clause i); cbn [bind]; [|discriminate].
    destruct (BaseSchema.clause t); cbn [bind]; [|discriminate].
    destruct (BaseSchema.clause e); cbn [bind]; [|discriminate].
    destruct (BaseSchema.patched o _ "#if"); cbn [bind]; [|discriminate].
    destruct (BaseSchema.patched o _ "#then"); cbn [bind]; [|discriminate].
    destruct (BaseSchema.patched o _ "#else"); cbn [bind]; [|discriminate].
    intros E. inversion E. apply unchanged_set3.
Qed.

Lemma root_setters_leave_the_properties_witness :
  exists b,
    ObjectSchema.id object_with_required_a.(base) (mkOptions false Object)
      (VStr "#x") = Ok b
    /\ get "properties" b.(base)
       = VArr [VObj [("name", VStr "a"); ("type", VStr "string")]].
Proof.
  eexists. split; [reflexivity|].
  destruct (root_setters_leave_the_properties object_with_required_a.(base)
              (mkOptions false Object)) as [H _].
  exact (H (VStr "#x") _ eq_refl "properties" eq_refl).
Defined.

(** ** Required names given in bulk *)

(** X18: required names given in two lists one call after the other add
    up to the one call with the lists joined: the same builder, or the
    same error when a name comes twice. *)
Theorem bulk_required_accumulates
    (schema : obj) (o : options) (rs l1 l2 : list string) :
  get "required" schema = VArr (map VStr rs) ->
  (b <- BaseSchema.required schema o (VArr (map VStr l1)) ;;
   BaseSchema.required b.(base) b.(opts) (VArr (map VStr l2)))
  = BaseSchema.required schema o (VArr (map VStr (l1 ++ l2))).
Proof.
  intros R. unfold BaseSchema.required at 1 3.
  destruct (last (get "properties" schema)) as [c|e] eqn:L; cbn [bind];
    [|reflexivity].
  cbn [isArray]. rewrite R. cbn [iterate bind].
  rewrite <- !map_app.
  destruct (isUniq (map VStr (rs ++ l1))) eqn:U; cbn [negb bind].
  - unfold BaseSchema.required. cbn [base opts construct].
    rewrite get_set_other by reflexivity. rewrite L. cbn [bind isArray].
    rewrite get_set_same. cbn [iterate bind].
    rewrite <- !map_app, <- app_assoc, set_again. reflexivity.
  - assert (N : isUniq (map VStr (rs ++ l1 ++ l2)) = false).
    { destruct (isUniq (map VStr (rs ++ l1 ++ l2))) eqn:U2; trivial.
      apply isUniq_NoDup in U2. rewrite app_assoc in U2.
      apply NoDup_app_remove_r in U2. apply isUniq_NoDup in U2. congruence. }
    now rewrite N.
Qed.

Lemma bulk_required_accumulates_witness :
  (b <- BaseSchema.required [("required", VArr [VStr "a"])]
          (mkOptions false Object) (VArr [VStr "b"]) ;;
   BaseSchema.required b.(base) b.(opts) (VArr [VStr "c"]))
  = Ok (construct Object [("required", VArr [VStr "a"; VStr "b"; VStr "c"])]
          (mkOptions false Object)).
Proof.
  refine (eq_trans
            (bulk_required_accumulates [("required", VArr [VStr "a"])]
               (mkOptions false Object) ["a"] ["b"] ["c"] eq_refl) _).
  reflexivity.
Defined.

(** ** The type of a property under a combining keyword *)

(** X19: the entry [prop] builds for a sub-schema that has [allOf],
    [anyOf], [oneOf] or [not] carries no [type], whatever type the
    sub-schema had. *)
Theorem combining_keyword_drops_the_type
    (name : string) (id : value) (attributes : obj) :
  unique_keys attributes = true ->
  hasCombiningKeywords attributes = true ->
  has "type" (entries (entry name id attributes)) = false.
Proof.
  intros U C. unfold entry. rewrite C.
  destruct (truthy (get "$ref" attributes)); [reflexivity|].
  cbn [entries]. rewrite has_assign. cbn [has orb].
  rewrite strip_filter by now do 2 apply unique_keys_set.
  rewrite has_filter_get by now do 2 apply unique_keys_set.
  rewrite get_set_same. unfold kept. cbn [fst snd].
  rewrite !orb_true_r. apply andb_false_r.
Qed.

Lemma combining_keyword_drops_the_type_witness :
  entry "a" VUndefined
    [("type", VStr "string"); ("anyOf", VArr [VObj [("type", VStr "number")]])]
  = VObj [("name", VStr "a"); ("anyOf", VArr [VObj [("type", VStr "number")]])]
  /\ has "type"
       (entries
          (entry "a" VUndefined
             [ ("type", VStr "string");
               ("anyOf", VArr [VObj [("type", VStr "number")]]) ]))
     = false.
Proof.
  split; [reflexivity|].
  apply (combining_keyword_drops_the_type "a" VUndefined
           [ ("type", VStr "string");
             ("anyOf", VArr [VObj [("type", VStr "number")]]) ]);
    reflexivity.
Defined.

(** ** What the clauses of [not] and [ifThen] leave out *)

Section ClauseFacts.

Lemma has_omit_listed k (o : obj) props :
  existsb (String.eqb k) props = true -> has k (omit o props) = false.
Proof.
  intros K. unfold omit.
  assert (G : forall memo, has k memo = false ->
    has k (fold_left
             (fun memo kv =>
                if existsb (String.eqb (fst kv)) props then memo
                else set (fst kv) (snd kv) memo) o memo) = false).
  { induction o as [|[k' v'] t IH]; intros memo M; cbn [fold_left fst snd];
      trivial.
    apply IH. destruct (existsb (String.eqb k') props) eqn:E; trivial.
    rewrite has_set, M, orb_false_r.
    destruct (String.eqb k k') eqn:E'; trivial.
    apply String.eqb_eq in E'. subst k'. congruence. }
  now apply G.
Qed.

Lemma patchIds_has schema generateIds parentId patched k :
  patchIdsWithParentId schema generateIds parentId = Ok patched ->
  String.eqb k "properties" = false ->
  has k patched = has k schema.
Proof.
  unfold patchIdsWithParentId.
  destruct (Nat.eqb _ 0).
  - intros E _. now inversion E.
  - destruct (foldM _ _ _) as [p|e]; cbn [bind]; [|discriminate].
    intros E N. inversion E. now rewrite has_set, N.
Qed.

(** A clause as [ifThen] stores it. *)
Lemma patched_clause (o : options) c parent clauseSchema stored k :
  BaseSchema.clause c = Ok clauseSchema ->
  BaseSchema.patched o clauseSchema parent = Ok stored ->
  existsb (String.eqb k) ["$schema"; "definitions"; "type"] = true ->
  has k (entries stored) = false.
Proof.
  unfold BaseSchema.clause, BaseSchema.patched.
  destruct (arg_valueOf c true) as [v|]; cbn [bind]; [|discriminate].
  intros C. inversion C. subst clauseSchema. clear C.
  destruct (patchIdsWithParentId _ _ _) as [p|] eqn:P; cbn [bind];
    [|discriminate].
  intros S K. inversion S. cbn [entries].
  rewrite (patchIds_has _ _ _ _ k P).
  - now apply has_omit_listed.
  - cbn [existsb] in K.
    repeat (apply orb_true_iff in K as [K|K]); try discriminate;
      apply String.eqb_eq in K; subst k; reflexivity.
Qed.

End ClauseFacts.

(** X20: the sub-schemas that [ifThen] and [ifThenElse] store under [if],
    [then] and [else] never carry [$schema], [definitions] or [type], and
    the one [not] stores never carries [$schema] or [definitions],
    whatever the builders passed in held. *)
Theorem clauses_carry_no_type (schema : obj) (o : options) :
  (forall i t b c k,
     BaseSchema.ifThen schema o i t = Ok b ->
     existsb (String.eqb c) ["if"; "then"] = true ->
     existsb (String.eqb k) ["$schema"; "definitions"; "type"] = true ->
     has k (entries (get c b.(base))) = false)
  /\ (forall i t e b c k,
        BaseSchema.ifThenElse schema o i t e = Ok b ->
        existsb (String.eqb c) ["if"; "then"; "else"] = true ->
        existsb (String.eqb k) ["$schema"; "definitions"; "type"] = true ->
        has k (entries (get c b.(base))) = false)
  /\ (forall a b k,
        BaseSchema.not schema o a = Ok b ->
        existsb (String.eqb k) ["$schema"; "definitions"] = true ->
        has k (entries (get "not" b.(base))) = false).
Proof.
  repeat split.
  - intros i t b c k. unfold BaseSchema.ifThen.
    destruct (negb (isFluentSchema i)); [discriminate|].
    destruct (negb (isFluentSchema t)); [discriminate|].
    destruct (BaseSchema.clause i) as [ci|] eqn:Ci; cbn [bind]; [|discriminate].
    destruct (BaseSchema.clause t) as [ct|] eqn:Ct; cbn [bind]; [|discriminate].
    destruct (BaseSchema.patched o ci "#if") as [pi|] eqn:Pi; cbn [bind];
      [|discriminate].
    destruct (BaseSchema.patched o ct "#then") as [pt|] eqn:Pt; cbn [bind];
      [|discriminate].
    intros E C K. inversion E. cbn [base construct]. cbn [existsb] in C.
    repeat (apply orb_true_iff in C as [C|C]); try discriminate;
      apply String.eqb_eq in C; subst c.
    + rewrite get_set_other, get_set_same by reflexivity.
      now apply (patched_clause o i "#if" ci).
    + rewrite get_set_same. now apply (patched_clause o t "#then" ct).
  - intros i t e b c k. unfold BaseSchema.ifThenElse.
    destruct (negb (isFluentSchema i)); [discriminate|].
    destruct (negb (isFluentSchema t)); [discriminate|].
    destruct (negb (isFluentSchema e)); [discriminate|].
    destruct (BaseSchema.clause i) as [ci|] eqn:Ci; cbn [bind]; [|discriminate].
    destruct (BaseSchema.clause t) as [ct|] eqn:Ct; cbn [bind]; [|discriminate].
    destruct (BaseSchema.clause e) as [ce|] eqn:Ce; cbn [bind]; [|discriminate].
    destruct (BaseSchema.patched o ci "#if") as [pi|] eqn:Pi; cbn [bind];
      [|discriminate].
    destruct (BaseSchema.patched o ct "#then") as [pt|] eqn:Pt; cbn [bind];
      [|discriminate].
    destruct (BaseSchema.patched o ce "#else") as [pe|] eqn:Pe; cbn [bind];
      [|discriminate].
    intros E C K. inversion E. cbn [base construct]. cbn [existsb] in C.
    repeat (apply orb_true_iff in C as [C|C]); try discriminate;
      apply String.eqb_eq in C; subst c.
    + rewrite !get_set_other, get_set_same by reflexivity.
      now apply (patched_clause o i "#if" ci).
    + rewrite get_set_other, get_set_same by reflexivity.
      now apply (patched_clause o t "#then" ct).
    + rewrite get_set_same. now apply (patched_clause o e "#else" ce).
  - intros a b k. unfold BaseSchema.not.
    destruct (negb (isFluentSchema a)); [discriminate|].
    destruct (arg_valueOf a true) as [v|]; cbn [bind]; [|discriminate].
    destruct (patchIdsWithParentId _ _ _) as [p|] eqn:P; cbn [bind];
      [|discriminate].
    intros E K. inversion E. cbn [base construct]. rewrite get_set_same.
    cbn [entries]. rewrite (patchIds_has _ _ _ _ k P).
    + now apply has_omit_listed.
    + cbn [existsb] in K.
      repeat (apply orb_true_iff in K as [K|K]); try discriminate;
        apply String.eqb_eq in K; subst k; reflexivity.
Qed.

Lemma clauses_carry_no_type_witness :
  exists b,
    BaseSchema.ifThen (object_builder false).(base) (mkOptions false Object)
      (Fluent object_with_required_a) (Fluent string_builder) = Ok b
    /\ get "if" b.(base)
       = VObj [ ("properties", VObj [("a", VObj [ ("type", VStr "string");
                                                   ("$id", VUndefined) ])]);
                ("required", VArr [VStr "a"]) ]
    /\ has "type" (entries (get "if" b.(base))) = false.
Proof.
  eexists. split; [reflexivity|]. split; [reflexivity|].
  destruct (clauses_carry_no_type (object_builder false).(base)
              (mkOptions false Object)) as [H _].
  exact (H (Fluent object_with_required_a) (Fluent string_builder) _
           "if" "type" eq_refl eq_refl eq_refl).
Defined.

(** ** The data model as an invariant *)

Section InvariantFacts.

Lemma get_set k' k v (s : obj) :
  get k' (set k v s) = if String.eqb k' k then v else get k' s.
Proof.
  destruct (String.eqb k' k) eqn:E.
  - apply String.eqb_eq in E. subst. apply get_set_same.
  - now apply get_set_other.
Qed.

Lemma wf_set k v (s : obj) :
  wf_state s = true -> fits k v = true -> wf_state (set k v s) = true.
Proof.
  unfold wf_state, fits. intros W F.
  repeat (apply andb_true_iff in W as [W ?]).
  cbn [forallb] in *. repeat (apply andb_true_iff in H as [? H]).
  rewrite unique_keys_set by exact W.
  rewrite !get_set, !has_set.
  destruct (String.eqb "properties" k) eqn:E1;
    destruct (String.eqb "definitions" k) eqn:E2;
    destruct (String.eqb "required" k) eqn:E3;
    destruct (String.eqb "$schema" k) eqn:E4;
    destruct (String.eqb "if" k) eqn:E5;
    destruct (String.eqb "then" k) eqn:E6;
    destruct (String.eqb "else" k) eqn:E7;
    cbn [orb andb negb] in *;
    repeat match goal with
           | E : String.eqb _ k = true |- _ => apply String.eqb_eq in E; subst k
           end;
    try discriminate;
    repeat match goal with
           | X : _ = true |- _ => rewrite X
           end;
    cbn [orb andb negb]; rewrite ?orb_true_r; reflexivity.
Qed.

Lemma entry_named name id attributes :
  has "name" attributes = false -> named (entry name id attributes) = true.
Proof.
  intros N. pose proof (entry_name_kept name id attributes N) as E.
  unfold entry in *. destruct (truthy (get "$ref" attributes)); [reflexivity|].
  cbn [named entries] in *. now rewrite E.
Qed.

Lemma appendRequired_patched attributes schema schema' attributes' :
  appendRequired attributes schema = Ok (schema', attributes') ->
  exists l, schema' = set "required" (VArr l) schema.
Proof.
  unfold appendRequired.
  destruct (if truthy _ then _ else Ok []) as [items|]; cbn [bind]; [|discriminate].
  destruct (iterate _) as [current|]; cbn [bind]; [|discriminate].
  destruct (negb _); [discriminate|].
  intros E. inversion E. eauto.
Qed.

(** A successful [prop] with a sub-schema that brings no name. *)
Lemma prop_run_named schema o name props b :
  nameless_arg props = true ->
  snd (prop_run schema o name props) = Ok b ->
  exists schema' current e,
    b = construct Object
          (set (target_of props) (VArr (current ++ [e])) schema') o
    /\ named e = true
    /\ iterate (get (target_of props) schema') = Ok current
    /\ (schema' = schema \/ exists l, schema' = set "required" (VArr l) schema).
Proof.
  unfold prop_run, target_of, marked_def, nameless_arg.
  destruct props as [[| | | | | |l|po]|sb]; cbn [snd]; try discriminate.
  - cbn [entries get truthy isFluentSchema has snd bind or_else].
    destruct (iterate (get "properties" schema)) as [current|] eqn:I;
      cbn [bind]; [|discriminate].
    intros _ E. inversion E.
    eexists schema, current, _.
    split; [reflexivity|]. split; [now apply entry_named|]. auto.
  - cbn [entries isFluentSchema]. intros N. apply negb_true_iff in N.
    destruct (has "valueOf" po); cbn [snd]; [discriminate|].
    destruct (truthy (get "isFluentSchema" po)) eqn:F.
    + destruct (bind _ _) as [[schema' attributes]|] eqn:A; cbn [snd];
        [|discriminate].
      destruct (iterate _) as [current|] eqn:I; cbn [bind]; [|discriminate].
      intros E. inversion E.
      destruct (patchIdsWithParentId _ _ _) as [p|]; cbn [bind] in A;
        [|discriminate].
      pose proof (appendRequired_nameless _ _ _ _ A) as N'.
      apply appendRequired_patched in A.
      eexists schema', current, _.
      split; [reflexivity|]. split; [now apply entry_named|]. auto.
    + destruct (iterate _) as [current|] eqn:I; cbn [bind snd]; [|discriminate].
      intros E. inversion E.
      eexists schema, current, _.
      split; [reflexivity|]. split; [now apply entry_named|]. auto.
  - cbn [isFluentSchema]. intros _.
    destruct (valueOf (base sb) false) as [v|]; cbn [snd]; [|discriminate].
    destruct (bind _ _) as [[schema' attributes]|] eqn:A; cbn [snd];
      [|discriminate].
    destruct (iterate _) as [current|] eqn:I; cbn [bind]; [|discriminate].
    intros E. inversion E.
    destruct (patchIdsWithParentId _ _ _) as [p|]; cbn [bind] in A;
      [|discriminate].
    pose proof (appendRequired_nameless _ _ _ _ A) as N'.
    apply appendRequired_patched in A.
    eexists schema', current, _.
    split; [reflexivity|]. split; [now apply entry_named|]. auto.
Qed.

Lemma forallb_snoc {A} (p : A -> bool) (l : list A) x :
  forallb p l = true -> p x = true -> forallb p (l ++ [x]) = true.
Proof. intros L X. rewrite forallb_app, L. cbn. now rewrite X. Qed.

Lemma prop_run_wf schema o name props b :
  wf_state schema = true ->
  nameless_arg props = true ->
  snd (prop_run schema o name props) = Ok b ->
  wf_state b.(base) = true /\ b.(own) = b.(base).
Proof.
  intros W N H.
  apply prop_run_named in H as [schema' [current [e [-> [Ne [I S]]]]]]; trivial.
  split; [|reflexivity]. cbn [base construct].
  assert (W' : wf_state schema' = true).
  { destruct S as [-> | [l ->]]; trivial. now apply wf_set. }
  apply wf_set; trivial.
  assert (T : named_entries (get (target_of props) schema') = true).
  { unfold wf_state in W'. repeat (apply andb_true_iff in W' as [W' ?]).
    unfold target_of. now destruct (marked_def props). }
  assert (F : forallb named (current ++ [e]) = true).
  { destruct (get (target_of props) schema') as [| | | | | |l|];
      try discriminate.
    cbn [iterate] in I. inversion I. subst l. now apply forallb_snoc. }
  unfold fits, target_of. destruct (marked_def props); exact F.
Qed.

(** The keywords the single-keyword setters write. *)
Lemma setAttribute_wf schema o key v b :
  wf_state schema = true ->
  existsb (String.eqb key) ("name" :: placed) = false ->
  setAttribute schema o key v = Ok b ->
  wf_state b.(base) = true /\ b.(own) = b.(base).
Proof.
  intros W K. unfold setAttribute.
  destruct (last (get "properties" schema)) as [c|]; cbn [bind]; [|discriminate].
  cbn [existsb placed] in K. repeat (apply orb_false_iff in K as [? K]).
  destruct (truthy c).
  - destruct (get "name" (entries c)); try discriminate.
    destruct (factory o); try discriminate.
    apply prop_run_wf; trivial.
    cbn [nameless_arg entries]. rewrite has_assign. cbn [has].
    rewrite (String.eqb_sym "name" key), H, has_remove, String.eqb_refl.
    reflexivity.
  - intros E. inversion E. split; [|reflexivity]. cbn [base construct].
    apply wf_set; trivial. unfold fits.
    rewrite (String.eqb_sym "properties" key), (String.eqb_sym "definitions" key),
      (String.eqb_sym "required" key), (String.eqb_sym "$schema" key),
      (String.eqb_sym "if" key), (String.eqb_sym "then" key),
      (String.eqb_sym "else" key).
    now rewrite H0, H1, H2, H3, H4, H5, H6.
Qed.

Lemma wf_patched (o : options) clauseSchema parent stored :
  BaseSchema.patched o clauseSchema parent = Ok stored -> truthy stored = true.
Proof.
  unfold BaseSchema.patched.
  destruct (patchIdsWithParentId _ _ _); cbn [bind]; [|discriminate].
  intros E. now inversion E.
Qed.

Ltac guarded :=
  repeat match goal with
         | |- (if ?c then Throw _ else _) = Ok _ -> _ =>
             destruct c; [discriminate|]
         | |- (if ?c then _ else Throw _) = Ok _ -> _ =>
             destruct c; [|discriminate]
         end.

Lemma invoke_wf (b : builder) (c : Call.t) (b' : builder) :
  wf_state b.(base) = true ->
  b.(own) = b.(base) ->
  keeps_data_model c = true ->
  snd (invoke b c) = Ok b' ->
  wf_state b'.(base) = true /\ b'.(own) = b'.(base).
Proof.
  intros W O K.
  destruct c; cbn [invoke snd]; rewrite ?O; try (discriminate K).
  - (* id *)
    destruct (built_by b);
      try (unfold BaseSchema.id; guarded;
           apply setAttribute_wf; [exact W | reflexivity]).
    unfold ObjectSchema.id. guarded. intros E. inversion E.
    split; [|reflexivity]. now apply wf_set.
  - apply setAttribute_wf; [exact W | reflexivity].
  - apply setAttribute_wf; [exact W | reflexivity].
  - unfold BaseSchema.examples. guarded.
    apply setAttribute_wf; [exact W | reflexivity].
  - apply setAttribute_wf; [exact W | reflexivity].
  - unfold BaseSchema.enum. guarded.
    apply setAttribute_wf; [exact W | reflexivity].
  - apply setAttribute_wf; [exact W | reflexivity].
  - apply setAttribute_wf; [exact W | reflexivity].
  - apply setAttribute_wf; [exact W | reflexivity].
  - apply setAttribute_wf; [exact W | reflexivity].
  - unfold BaseSchema.deprecated. guarded.
    apply setAttribute_wf; [exact W | reflexivity].
  - (* required *)
    unfold BaseSchema.required.
    destruct (last _); cbn [bind]; [|discriminate].
    destruct (if isArray props then _ else _); cbn [bind]; [|discriminate].
    guarded. intros E. inversion E. split; [|reflexivity]. now apply wf_set.
  - (* not *)
    unfold BaseSchema.not. guarded.
    destruct (arg_valueOf s true); cbn [bind]; [|discriminate].
    destruct (patchIdsWithParentId _ _ _); cbn [bind]; [|discriminate].
    intros E. inversion E. split; [|reflexivity]. now apply wf_set.
  - unfold BaseSchema.anyOf, setComposeType. destruct l; [|discriminate].
    guarded. destruct (foldM _ _ _); cbn [bind]; [|discriminate].
    intros E. inversion E. split; [|reflexivity]. now apply wf_set.
  - unfold BaseSchema.allOf, setComposeType. destruct l; [|discriminate].
    guarded. destruct (foldM _ _ _); cbn [bind]; [|discriminate].
    intros E. inversion E. split; [|reflexivity]. now apply wf_set.
  - unfold BaseSchema.oneOf, setComposeType. destruct l; [|discriminate].
    guarded. destruct (foldM _ _ _); cbn [bind]; [|discriminate].
    intros E. inversion E. split; [|reflexivity]. now apply wf_set.
  - (* ifThen *)
    unfold BaseSchema.ifThen. guarded.
    destruct (BaseSchema.clause i); cbn [bind]; [|discriminate].
    destruct (BaseSchema.clause t); cbn [bind]; [|discriminate].
    destruct (BaseSchema.patched _ _ "#if") eqn:Pi; cbn [bind]; [|discriminate].
    destruct (BaseSchema.patched _ _ "#then") eqn:Pt; cbn [bind]; [|discriminate].
    intros E. inversion E. split; [|reflexivity]. cbn [base construct].
    apply wf_set; [apply wf_set; trivial|].
    + unfold fits. cbn. now apply wf_patched in Pi.
    + unfold fits. cbn. now apply wf_patched in Pt.
  - (* ifThenElse *)
    unfold BaseSchema.ifThenElse. guarded.
    destruct (BaseSchema.clause i); cbn [bind]; [|discriminate].
    destruct (BaseSchema.clause t); cbn [bind]; [|discriminate].
    destruct (BaseSchema.clause e); cbn [bind]; [|discriminate].
    destruct (BaseSchema.patched _ _ "#if") eqn:Pi; cbn [bind]; [|discriminate].
    destruct (BaseSchema.patched _ _ "#then") eqn:Pt; cbn [bind]; [|discriminate].
    destruct (BaseSchema.patched _ _ "#else") eqn:Pe; cbn [bind]; [|discriminate].
    intros E. inversion E. split; [|reflexivity]. cbn [base construct].
    apply wf_set; [apply wf_set; [apply wf_set; trivial|]|].
    + unfold fits. cbn. now apply wf_patched in Pi.
    + unfold fits. cbn. now apply wf_patched in Pt.
    + unfold fits. cbn. now apply wf_patched in Pe.
  - guarded. unfold StringSchema.minLength. guarded.
    apply setAttribute_wf; [exact W | reflexivity].
  - guarded. unfold StringSchema.maxLength. guarded.
    apply setAttribute_wf; [exact W | reflexivity].
  - guarded. unfold StringSchema.format. guarded.
    apply setAttribute_wf; [exact W | reflexivity].
  - guarded. unfold NumberSchema.minimum, NumberSchema.numeric. guarded.
    apply setAttribute_wf; [exact W | reflexivity].
  - guarded. unfold NumberSchema.maximum, NumberSchema.numeric. guarded.
    apply setAttribute_wf; [exact W | reflexivity].
  - guarded. unfold NumberSchema.multipleOf, NumberSchema.numeric. guarded.
    apply setAttribute_wf; [exact W | reflexivity].
  - guarded. unfold ArraySchema.minItems. guarded.
    apply setAttribute_wf; [exact W | reflexivity].
  - guarded. unfold ArraySchema.maxItems. guarded.
    apply setAttribute_wf; [exact W | reflexivity].
  - guarded. unfold ArraySchema.uniqueItems. guarded.
    apply setAttribute_wf; [exact W | reflexivity].
  - guarded. unfold ObjectSchema.maxProperties. guarded.
    apply setAttribute_wf; [exact W | reflexivity].
  - guarded. unfold ObjectSchema.minProperties. guarded.
    apply setAttribute_wf; [exact W | reflexivity].
  - (* prop *)
    destruct (built_by b); cbn [snd]; try discriminate.
    unfold ObjectSchema.prop. now apply prop_run_wf.
  - (* definition *)
    guarded. unfold ObjectSchema.definition.
    cbn [keeps_data_model] in K.
    destruct (arg_valueOf _ false) as [v|]; cbn [bind]; [|discriminate].
    apply prop_run_wf; trivial.
    cbn [nameless_arg entries]. now rewrite has_set.
Qed.

End InvariantFacts.

Lemma chain_thrown (calls : list Call.t) (e : error) :
  chain (Throw e) calls = Throw e.
Proof. induction calls as [|c t IH]; [reflexivity | exact IH]. Qed.

(** X21: the data model is an invariant of the builder: a chain of calls
    (any but [raw], with sub-schemas for [prop] and [definition] that bring
    no [name] of their own) that starts from a builder whose state is
    well-formed and returns, returns a builder whose state is well-formed
    again and is held by both of its closures; the kind factories of the
    default export start from such builders. *)
Theorem chains_keep_the_data_model :
  (forall (b0 : builder) (calls : list Call.t) (b : builder),
     wf_state b0.(base) = true ->
     b0.(own) = b0.(base) ->
     forallb keeps_data_model calls = true ->
     chain (Ok b0) calls = Ok b ->
     wf_state b.(base) = true /\ b.(own) = b.(base))
  /\ Forall
       (fun start =>
          exists b0, start = Ok b0
                     /\ wf_state b0.(base) = true /\ b0.(own) = b0.(base))
       [ FluentJSONSchema.string; FluentJSONSchema.number;
         FluentJSONSchema.integer; FluentJSONSchema.boolean;
         FluentJSONSchema.array; FluentJSONSchema.object ].
Proof.
  split.
  - intros b0 calls. revert b0.
    induction calls as [|c t IH]; intros b0 b W O K H.
    + inversion H. subst b. auto.
    + cbn [forallb] in K. apply andb_true_iff in K as [K1 K2].
      unfold chain in H. cbn [fold_left bind] in H.
      destruct (snd (invoke b0 c)) as [b1|e] eqn:E.
      * destruct (invoke_wf b0 c b1 W O K1 E) as [W1 O1].
        now apply (IH b1).
      * fold (chain (Throw e) t) in H. rewrite chain_thrown in H. discriminate.
  - repeat constructor; eexists; repeat split.
Qed.

Lemma chains_keep_the_data_model_witness :
  exists b,
    chain (Ok (object_builder true))
      [ Call.prop "a" (Fluent required_string); Call.title (VStr "t");
        Call.definition "d" (Fluent string_builder) ] = Ok b
    /\ wf_state b.(base) = true.
Proof.
  eexists. split; [vm_compute; reflexivity|].
  destruct chains_keep_the_data_model as [H _].
  refine (proj1 (H (object_builder true)
                   [ Call.prop "a" (Fluent required_string);
                     Call.title (VStr "t");
                     Call.definition "d" (Fluent string_builder) ]
                   _ eq_refl eq_refl eq_refl _)).
  vm_compute. reflexivity.
Defined.
